(** * cppsock: the socketaddr value type (src/cppsock_socketaddr.cpp)

    A shallow embedding of [cppsock::socketaddr] and of the C library
    routines it calls, followed by the properties of the specification
    that are settled against it.

    Conventions.
    - A byte is a [Z] in [0, 256); memory is a [list Z] of bytes.
    - [std::string] is [string]; it may hold NUL characters.  A C routine
      that receives [s.data()] only sees [c_str s], the characters before
      the first NUL.
    - [errno] is the one process-wide cell the code writes; it is threaded
      by the small state monad [Errno].
    - The platform is Linux/glibc on a little-endian host: the values of
      the AF_ and E constants, the layout of [sockaddr_in], [sockaddr_in6]
      and [sockaddr_storage], and the text accepted and produced by
      [inet_pton] and [inet_ntop] are the ones of that platform. *)

From Stdlib Require Import ZArith List String Ascii Bool Lia.
Import ListNotations.

Local Open Scope Z_scope.

(** ** Characters and C strings *)

Module cstr.

Definition code (c : ascii) : Z := Z.of_N (N_of_ascii c).

Definition chr (n : Z) : ascii := ascii_of_N (Z.to_N n).

Definition NUL : ascii := chr 0.

(** What a C routine reads through [s.data()]: everything before the
    first NUL. *)
Fixpoint c_str (s : string) : string :=
  match s with
  | EmptyString => EmptyString
  | String c s' => if code c =? 0 then EmptyString else String c (c_str s')
  end.

(** [n] NUL characters. *)
Fixpoint nuls (n : nat) : string :=
  match n with
  | O => EmptyString
  | S n' => String NUL (nuls n')
  end.

(** The first [n] characters of [s]. *)
Fixpoint take (n : nat) (s : string) : string :=
  match n, s with
  | S n', String c s' => String c (take n' s')
  | _, _ => EmptyString
  end.

(** [s] without its first [n] characters. *)
Fixpoint drop (n : nat) (s : string) : string :=
  match n, s with
  | S n', String _ s' => drop n' s'
  | _, _ => s
  end.

(** [std::string::resize(n)]: truncate, or pad with NUL characters. *)
Definition resize (n : nat) (s : string) : string :=
  String.append (take n s) (nuls (n - String.length s)).

(** [strcpy(&buf[0], text)]: the text and its terminating NUL replace the
    first characters of the buffer. *)
Definition strcpy (buf text : string) : string :=
  String.append text (String NUL (drop (S (String.length text)) buf)).

(** [printf]'s [%u] and [%x]: the digits of [n] in the given base, most
    significant first, no padding. *)
Definition digit_char (d : Z) : ascii :=
  if d <? 10 then chr (48 + d) else chr (87 + d).

Fixpoint utoa_aux (fuel : nat) (base n : Z) (acc : string) : string :=
  match fuel with
  | O => acc
  | S fuel' =>
      let acc' := String (digit_char (n mod base)) acc in
      if n / base =? 0 then acc' else utoa_aux fuel' base (n / base) acc'
  end.

Definition utoa (base n : Z) : string :=
  utoa_aux (S (Z.to_nat (Z.log2 n))) base n EmptyString.

Definition dec (n : Z) : string := utoa 10 n.
Definition hex (n : Z) : string := utoa 16 n.

End cstr.

(** ** The C library *)

Module libc.

Import cstr.

Definition AF_UNSPEC : Z := 0.
Definition AF_INET : Z := 2.
Definition AF_INET6 : Z := 10.

Definition EINVAL : Z := 22.
Definition ENOSPC : Z := 28.
Definition EAFNOSUPPORT : Z := 97.

Definition INET6_ADDRSTRLEN : nat := 46.

(** An unsigned char, and a 16-bit group of an IPv6 address. *)
Definition byte (b : Z) : Prop := 0 <= b < 256.
Definition word (w : Z) : Prop := 0 <= w < 65536.

(** [memset(p, 0, n)] over a whole object of [n] bytes. *)
Definition memset0 (n : nat) : list Z := repeat 0 n.

(** [memcpy(dst, src, n)] with [dst] and [src] disjoint: the first [n]
    bytes of [dst] become those of [src]. *)
Definition memcpy (dst src : list Z) (n : nat) : list Z :=
  firstn n src ++ skipn n dst.

(** Bytes [bs] stored at offset [off] of [m]. *)
Definition poke (m : list Z) (off : nat) (bs : list Z) : list Z :=
  firstn off m ++ bs ++ skipn (off + List.length bs) m.

(** The [n] bytes at offset [off] of [m]. *)
Definition peek (m : list Z) (off n : nat) : list Z :=
  firstn n (skipn off m).

(** [memcmp(a, b, n)]: the difference of the first pair of bytes that
    differ, read as unsigned chars; 0 when there is none. *)
Fixpoint memcmp (a b : list Z) (n : nat) : Z :=
  match n with
  | O => 0
  | S n' =>
      match a, b with
      | x :: a', y :: b' => if x =? y then memcmp a' b' n' else x - y
      | _, _ => 0
      end
  end.

(** *** inet_pton

    After resolv/inet_pton.c of glibc 2.36.  [inet_pton4] accepts exactly four
    decimal numbers 0..255 separated by dots, none with a leading zero.
    [tmp] holds the octets already closed by a dot and [cur] is the octet
    being read ([*tp] in the C code). *)

Definition is_digit (ch : ascii) : bool :=
  (48 <=? code ch) && (code ch <=? 57).

Fixpoint inet_pton4_loop (src : string) (tmp : list Z) (cur : Z)
    (saw_digit : bool) (octets : nat) : option (list Z) :=
  match src with
  | EmptyString =>
      if (octets <? 4)%nat then None else Some (tmp ++ [cur])
  | String ch src' =>
      if is_digit ch then
        let new := cur * 10 + (code ch - 48) in
        if saw_digit && (cur =? 0) then None
        else if 255 <? new then None
        else if saw_digit then inet_pton4_loop src' tmp new true octets
        else if (4 <? S octets)%nat then None
        else inet_pton4_loop src' tmp new true (S octets)
      else if (code ch =? 46) && saw_digit then
        if (octets =? 4)%nat then None
        else inet_pton4_loop src' (tmp ++ [cur]) 0 false octets
      else None
  end.

Definition inet_pton4 (src : string) : option (list Z) :=
  inet_pton4_loop src [] 0 false 0.

(** [inet_pton6], same file of glibc.  [tmp] is the part of the 16-byte
    result written so far ([tmp .. tp) in the C code), [colonp] the
    position in it of the double colon when one was seen, [curtok] the
    text from the start of the current group on. *)

Definition hex_digit_value (ch : ascii) : Z :=
  let c := code ch in
  if (48 <=? c) && (c <=? 57) then c - 48
  else if (97 <=? c) && (c <=? 102) then c - 97 + 10
  else if (65 <=? c) && (c <=? 70) then c - 65 + 10
  else -1.

Definition group_bytes (val : Z) : list Z :=
  [Z.land (Z.shiftr val 8) 255; Z.land val 255].

Definition inet_pton6_finish (tmp : list Z) (colonp : option nat)
    (xdigits_seen : nat) (val : Z) : option (list Z) :=
  let flushed :=
    if (0 <? xdigits_seen)%nat then
      if (16 <? List.length tmp + 2)%nat then None
      else Some (tmp ++ group_bytes val)
    else Some tmp in
  match flushed with
  | None => None
  | Some tmp =>
      match colonp with
      | Some k =>
          if (List.length tmp =? 16)%nat then None
          else Some (firstn k tmp ++ repeat 0 (16 - List.length tmp)
                       ++ skipn k tmp)
      | None => if (List.length tmp =? 16)%nat then Some tmp else None
      end
  end.

Fixpoint inet_pton6_loop (src : string) (tmp : list Z) (colonp : option nat)
    (curtok : string) (xdigits_seen : nat) (val : Z) : option (list Z) :=
  match src with
  | EmptyString => inet_pton6_finish tmp colonp xdigits_seen val
  | String ch src' =>
      let digit := hex_digit_value ch in
      if 0 <=? digit then
        if (xdigits_seen =? 4)%nat then None
        else
          let val' := Z.lor (Z.shiftl val 4) digit in
          if 65535 <? val' then None
          else inet_pton6_loop src' tmp colonp curtok (S xdigits_seen) val'
      else if code ch =? 58 then
        if (xdigits_seen =? 0)%nat then
          match colonp with
          | Some _ => None
          | None =>
              inet_pton6_loop src' tmp (Some (List.length tmp)) src' 0 val
          end
        else
          match src' with
          | EmptyString => None
          | _ =>
              if (16 <? List.length tmp + 2)%nat then None
              else inet_pton6_loop src' (tmp ++ group_bytes val) colonp
                     src' 0 0
          end
      else if (code ch =? 46) && (List.length tmp + 4 <=? 16)%nat then
        match inet_pton4 curtok with
        | Some quad => inet_pton6_finish (tmp ++ quad) colonp 0 val
        | None => None
        end
      else None
  end.

Definition inet_pton6 (src : string) : option (list Z) :=
  match src with
  | EmptyString => None
  | String ch src1 =>
      if code ch =? 58 then
        match src1 with
        | String ch1 _ =>
            if code ch1 =? 58 then inet_pton6_loop src1 [] None src1 0 0
            else None
        | EmptyString => None
        end
      else inet_pton6_loop src [] None src 0 0
  end.

(** *** inet_ntop

    After resolv/inet_ntop.c of glibc 2.36.  [inet_ntop4] is
    [sprintf "%u.%u.%u.%u"].  [inet_ntop6] abbreviates the longest run of
    two or more zero groups (the first one when several are as long) to a
    double colon, prints the other groups with [%x], and prints the last
    four bytes as a dotted quad for IPv4-compatible and IPv4-mapped
    addresses. *)

Definition dot : string := String (chr 46) EmptyString.
Definition colon : string := String (chr 58) EmptyString.

Definition inet_ntop4 (src : list Z) : string :=
  String.append (dec (nth 0 src 0)) (String.append dot
    (String.append (dec (nth 1 src 0)) (String.append dot
      (String.append (dec (nth 2 src 0)) (String.append dot
        (dec (nth 3 src 0))))))).

Fixpoint words_of (src : list Z) : list Z :=
  match src with
  | hi :: lo :: rest => Z.lor (Z.shiftl hi 8) lo :: words_of rest
  | _ => []
  end.

Record run := { base : Z; len : Z }.

Definition longer (best cur : run) : run :=
  if (base best =? -1) || (len best <? len cur) then cur else best.

Fixpoint best_run (words : list Z) (i : Z) (best cur : run) : run :=
  match words with
  | [] =>
      let best := if base cur =? -1 then best else longer best cur in
      if negb (base best =? -1) && (len best <? 2)
      then {| base := -1; len := len best |}
      else best
  | w :: words' =>
      if w =? 0 then
        if base cur =? -1
        then best_run words' (i + 1) best {| base := i; len := 1 |}
        else best_run words' (i + 1) best
               {| base := base cur; len := len cur + 1 |}
      else
        if base cur =? -1
        then best_run words' (i + 1) best cur
        else best_run words' (i + 1) (longer best cur)
               {| base := -1; len := len cur |}
  end.

Definition in_run (best : run) (i : Z) : bool :=
  negb (base best =? -1) && (base best <=? i) && (i <? base best + len best).

(** The dotted-quad tail is printed for [::a.b.c.d] and [::ffff:a.b.c.d]. *)
Definition encapsulated_ipv4 (word5 : Z) (best : run) (i : Z) : bool :=
  (i =? 6) && (base best =? 0) &&
  ((len best =? 6) || ((len best =? 5) && (word5 =? 65535))).

Fixpoint inet_ntop6_fmt (src : list Z) (word5 : Z) (best : run) (i : Z)
    (words : list Z) : string :=
  match words with
  | [] => EmptyString
  | w :: words' =>
      if in_run best i then
        String.append
          (if i =? base best then colon else EmptyString)
          (inet_ntop6_fmt src word5 best (i + 1) words')
      else
        String.append
          (if i =? 0 then EmptyString else colon)
          (if encapsulated_ipv4 word5 best i
           then inet_ntop4 (skipn 12 src)
           else String.append (hex w)
                  (inet_ntop6_fmt src word5 best (i + 1) words'))
  end.

Definition inet_ntop6 (src : list Z) : string :=
  let words := words_of src in
  let best :=
    best_run words 0 {| base := -1; len := 0 |} {| base := -1; len := 0 |} in
  String.append
    (inet_ntop6_fmt src (nth 5 words 0) best 0 words)
    (if negb (base best =? -1) && (base best + len best =? 8)
     then colon else EmptyString).

(** *** errno

    The process-wide error cell, threaded through every routine that may
    write it. *)

Definition Errno (A : Type) : Type := Z -> A * Z.

Definition ret {A : Type} (a : A) : Errno A := fun e => (a, e).

Definition bind {A B : Type} (m : Errno A) (k : A -> Errno B) : Errno B :=
  fun e => let (a, e') := m e in k a e'.

(** The C expression [errno = v], whose value is [v]. *)
Definition set_errno (v : Z) : Errno Z := fun _ => (v, v).

(** [inet_pton(af, src, dst)]: the return value and, on success, the
    bytes stored at [dst].  Nothing is stored on failure. *)
Definition inet_pton (af : Z) (src : string) : Errno (Z * option (list Z)) :=
  if af =? AF_INET then
    ret (match inet_pton4 src with
         | Some b => (1, Some b)
         | None => (0, None)
         end)
  else if af =? AF_INET6 then
    ret (match inet_pton6 src with
         | Some b => (1, Some b)
         | None => (0, None)
         end)
  else bind (set_errno EAFNOSUPPORT) (fun _ => ret (-1, None)).

(** [inet_ntop(af, src, dst, size)]: the text stored at [dst] (followed by
    a NUL), or [None] for the NULL result. *)
Definition inet_ntop (af : Z) (src : list Z) (size : nat)
    : Errno (option string) :=
  if af =? AF_INET then
    let text := inet_ntop4 src in
    if (size <=? String.length text)%nat
    then bind (set_errno ENOSPC) (fun _ => ret None)
    else ret (Some text)
  else if af =? AF_INET6 then
    let text := inet_ntop6 src in
    if (size <? String.length text + 1)%nat
    then bind (set_errno ENOSPC) (fun _ => ret None)
    else ret (Some text)
  else bind (set_errno EAFNOSUPPORT) (fun _ => ret None).

End libc.

(** ** cppsock::socketaddr *)

Module cppsock.

Import cstr libc.

(** Modelled from the spec: the member [sa] is declared in cppsock.hpp,
    which is not among the sources.  It is the "fixed-capacity binary
    region large enough to hold either representation (family tag + 16-bit
    port in network byte order + either a 4-byte or 16-byte address
    payload, plus family-specific padding/scope fields for IPv6)": a union
    of [sa_family_t], [sockaddr], [sockaddr_in], [sockaddr_in6] and
    [sockaddr_storage], all starting at offset 0, with the platform's
    layout. *)
Definition sizeof_sa : nat := 128.    (* sizeof(sockaddr_storage) *)
Definition sizeof_sin : nat := 16.    (* sizeof(sockaddr_in) *)
Definition sizeof_sin6 : nat := 28.   (* sizeof(sockaddr_in6) *)
Definition off_sin_port : nat := 2.   (* sin_port and sin6_port *)
Definition off_sin_addr : nat := 4.   (* after sin_port *)
Definition off_sin6_addr : nat := 8.  (* after sin6_port and sin6_flowinfo *)

Record socketaddr := { sa : list Z }.

(** A 16-bit field in host (little-endian) byte order. *)
Definition load_u16 (m : list Z) (off : nat) : Z :=
  nth off m 0 + 256 * nth (S off) m 0.

Definition store_u16 (m : list Z) (off : nat) (v : Z) : list Z :=
  poke m off [v mod 256; (v / 256) mod 256].

(** Modelled from the spec: [cppsock::hton] and [cppsock::ntoh] are
    templates of cppsock.hpp; "Port is always stored in network
    (big-endian) byte order internally; accessors convert to/from host
    order."  On a little-endian host both swap the two bytes. *)
Definition hton (v : Z) : Z := (v mod 256) * 256 + (v / 256) mod 256.
Definition ntoh (v : Z) : Z := (v mod 256) * 256 + (v / 256) mod 256.

(** [this->sa.sa_family] *)
Definition sa_family (this : socketaddr) : Z := load_u16 (sa this) 0.

(** [socketaddr::is] ([is] is a reserved word here), [is_ipv4], [is_ipv6] *)
Definition is_ (family : Z) (ip : string) : Errno bool :=
  bind (inet_pton family (c_str ip)) (fun r => ret (fst r =? 1)).

Definition is_ipv4 (ip : string) : Errno bool := is_ AF_INET ip.
Definition is_ipv6 (ip : string) : Errno bool := is_ AF_INET6 ip.

(** [socketaddr::socketaddr()] *)
Definition socketaddr_default : socketaddr := {| sa := memset0 sizeof_sa |}.

(** [sockaddr *data()] *)
Definition data (this : socketaddr) : list Z := sa this.

(** [void set_family(sa_family_t fam)] *)
Definition set_family (this : socketaddr) (fam : Z) : socketaddr :=
  {| sa := store_u16 (memset0 sizeof_sa) 0 fam |}.

(** [error_t set_addr(const std::string &ip)] *)
Definition set_addr (this : socketaddr) (ip : string)
    : Errno (Z * socketaddr) :=
  let addrptr :=
    if sa_family this =? AF_INET then Some off_sin_addr
    else if sa_family this =? AF_INET6 then Some off_sin6_addr
    else None in
  match addrptr with
  | None => bind (set_errno EAFNOSUPPORT) (fun e => ret (e, this))
  | Some addrptr =>
      bind (inet_pton (sa_family this) (c_str ip)) (fun r =>
        let this' :=
          match snd r with
          | Some payload => {| sa := poke (sa this) addrptr payload |}
          | None => this
          end in
        if fst r =? 0
        then bind (set_errno EINVAL) (fun e => ret (e, this'))
        else ret (0, this'))
  end.

(** [error_t set_port(uint16_t port)] *)
Definition set_port (this : socketaddr) (port : Z) : Errno (Z * socketaddr) :=
  let portaddr :=
    if sa_family this =? AF_INET then Some off_sin_port
    else if sa_family this =? AF_INET6 then Some off_sin_port
    else None in
  match portaddr with
  | None => bind (set_errno EAFNOSUPPORT) (fun e => ret (e, this))
  | Some portaddr =>
      ret (0, {| sa := store_u16 (sa this) portaddr (hton port) |})
  end.

(** [error_t set(const std::string& addr, uint16_t port)] *)
Definition set (this : socketaddr) (addr : string) (port : Z)
    : Errno (Z * socketaddr) :=
  bind (is_ AF_INET addr) (fun v4 =>
    let after_family :=
      if v4 then ret (Some (set_family this AF_INET))
      else bind (is_ AF_INET6 addr) (fun v6 =>
        if v6 then ret (Some (set_family this AF_INET6)) else ret None) in
    bind after_family (fun this1 =>
      match this1 with
      | None => bind (set_errno EAFNOSUPPORT) (fun e => ret (e, this))
      | Some this1 =>
          bind (set_addr this1 addr) (fun r1 =>
            if negb (fst r1 =? 0) then ret r1
            else bind (set_port (snd r1) port) (fun r2 =>
              if negb (fst r2 =? 0) then ret r2
              else ret (0, snd r2)))
      end)).

(** [void set(const sockaddr* data)]; [data] points to memory outside the
    object, as [memcpy] requires. *)
Definition set_sockaddr (this : socketaddr) (data : list Z) : socketaddr :=
  let this0 := set_family this AF_UNSPEC in
  if load_u16 data 0 =? AF_INET
  then {| sa := memcpy (sa this0) data sizeof_sin |}
  else if load_u16 data 0 =? AF_INET6
  then {| sa := memcpy (sa this0) data sizeof_sin6 |}
  else this0.

(** [sa_family_t get_family() const] *)
Definition get_family (this : socketaddr) : Z := sa_family this.

(** [error_t get_addr(std::string &buf) const]: the return value and the
    new content of [buf]. *)
Definition get_addr_buf (this : socketaddr) (buf : string)
    : Errno (Z * string) :=
  let addrptr :=
    if sa_family this =? AF_INET then Some (off_sin_addr, 4%nat)
    else if sa_family this =? AF_INET6 then Some (off_sin6_addr, 16%nat)
    else None in
  match addrptr with
  | None => bind (set_errno EAFNOSUPPORT) (fun e => ret (e, buf))
  | Some (addrptr, n) =>
      let buf1 := resize INET6_ADDRSTRLEN buf in
      bind (inet_ntop (sa_family this) (peek (sa this) addrptr n)
              INET6_ADDRSTRLEN) (fun r =>
        let buf2 :=
          match r with
          | Some text => strcpy buf1 text
          | None => buf1
          end in
        ret (0, c_str buf2))
  end.

(** [error_t get_port(uint16_t &port) const]: the return value and the
    new content of [port]. *)
Definition get_port_ref (this : socketaddr) (port : Z) : Errno (Z * Z) :=
  if sa_family this =? AF_INET
  then ret (0, ntoh (load_u16 (sa this) off_sin_port))
  else if sa_family this =? AF_INET6
  then ret (0, ntoh (load_u16 (sa this) off_sin_port))
  else ret (EAFNOSUPPORT, port).

(** [std::string get_addr() const] *)
Definition get_addr (this : socketaddr) : Errno string :=
  bind (get_addr_buf this EmptyString) (fun r => ret (snd r)).

(** [uint16_t get_port() const] *)
Definition get_port (this : socketaddr) : Errno Z :=
  bind (get_port_ref this 0) (fun r => ret (snd r)).

(** [operator==], [operator!=], [operator<] *)
Definition operator_eq (this other : socketaddr) : bool :=
  memcmp (sa this) (sa other) sizeof_sa =? 0.

Definition operator_ne (this other : socketaddr) : bool :=
  negb (memcmp (sa this) (sa other) sizeof_sa =? 0).

Definition operator_lt (this other : socketaddr) : bool :=
  memcmp (sa this) (sa other) sizeof_sa <? 0.

(** [std::ostream& operator<<(std::ostream &o, const socketaddr &addr)]:
    the stream is the text written to it so far; a [uint16_t] is written
    in decimal. *)
Definition operator_shl (o : string) (addr : socketaddr) : Errno string :=
  if get_family addr =? AF_INET then
    bind (get_addr addr) (fun a =>
    bind (get_port addr) (fun p =>
      ret (String.append o (String.append a (String.append colon (dec p))))))
  else if get_family addr =? AF_INET6 then
    bind (get_addr addr) (fun a =>
    bind (get_port addr) (fun p =>
      ret (String.append o
             (String.append "[" (String.append a
                (String.append "]:" (dec p)))))))
  else ret (String.append o "error: unknown address family").

(** [socketaddr(const socketaddr& other)] and [operator=]: [this] is the
    storage of the object before the call, which the constructor finds
    uninitialised. *)
Definition socketaddr_copy (this other : socketaddr) : socketaddr :=
  {| sa := memcpy (sa this) (sa other) sizeof_sa |}.

Definition operator_assign (this other : socketaddr) : socketaddr :=
  {| sa := memcpy (sa this) (sa other) sizeof_sa |}.


(** [void get_family(sa_family_t &fam) const]: the new content of [fam]. *)
Definition get_family_ref (this : socketaddr) (fam : Z) : Z := sa_family this.

(** The storage of a live object: [sizeof_sa] bytes. *)
Definition wf (this : socketaddr) : Prop :=
  List.length (sa this) = sizeof_sa /\ Forall byte (sa this).

(** A [uint16_t] value. *)
Definition uint16 (v : Z) : Prop := 0 <= v < 65536.

End cppsock.

Import cstr libc cppsock.

(** ** Notions used in the statements *)

(** No NUL character in [s]. *)
Fixpoint nulfree (s : string) : bool :=
  match s with
  | EmptyString => true
  | String c s' => negb (code c =? 0) && nulfree s'
  end.

(** No colon in [s]. *)
Fixpoint colonfree (s : string) : bool :=
  match s with
  | EmptyString => true
  | String c s' => negb (code c =? 58) && colonfree s'
  end.

(** The address that [text] denotes as a literal of [family]: what
    [inet_pton] makes of [text.data()], that is of the characters of
    [text] before its first NUL. *)
Definition literal (family : Z) (text : string) : option (list Z) :=
  if family =? AF_INET then inet_pton4 (c_str text)
  else if family =? AF_INET6 then inet_pton6 (c_str text)
  else None.

(** The number that the digits of [s] denote in base [b], continuing
    from [acc]. *)
Fixpoint atou (b : Z) (s : string) (acc : Z) : Z :=
  match s with
  | EmptyString => acc
  | String c s' => atou b s' (acc * b + hex_digit_value c)
  end.

(** [a; a+1; ...; a+n-1] *)
Fixpoint zrange (n : nat) (a : Z) : list Z :=
  match n with
  | O => []
  | S n' => a :: zrange n' (a + 1)
  end.

(** The octets of [tmp], each followed by a dot. *)
Fixpoint dotted (tmp : list Z) : string :=
  match tmp with
  | [] => EmptyString
  | o :: tmp' => String.append (dec o) (String.append dot (dotted tmp'))
  end.


(** The address left by [set(text, port)] on a default-constructed
    object (with errno 0 before the call). *)
Definition socketaddr_of (text : string) (port : Z) : socketaddr :=
  snd (fst (set socketaddr_default text port 0)).

(** ["1.2.3.4"], a NUL and ["x"]: a [std::string] of nine characters. *)
Definition quad_nul_x : string :=
  String.append "1.2.3.4" (String NUL "x").

(** ** Proof automation *)

(** Facts on byte ranges. *)
Create HintDb bytes.

(** Replace a list [b] known to have [n] elements by its elements. *)
Tactic Notation "explode_list" ident(b) integer(n) :=
  do n (destruct b as [|? b]; [discriminate |]);
  destruct b; [| discriminate].

(** Name the first [n] elements of a list [m] that has them. *)
Tactic Notation "open_list" ident(m) integer(n) :=
  do n (destruct m as [|? m]; [simpl in *; try discriminate; lia |]).

(** ** Sample addresses

    One address for each choice of the groups that are zero, the others
    being distinct ([0x1234 + i]) or, for group 5 when [mapped] is set,
    [0xffff]. *)
Fixpoint sample_words (zeros : Z) (mapped : bool) (n : nat) (i : Z)
    : list Z :=
  match n with
  | O => []
  | S n' =>
      (if Z.testbit zeros i then 0
       else if mapped && (i =? 5) then 65535
       else 4660 + i)
      :: sample_words zeros mapped n' (i + 1)
  end.

Definition sample_addr (zeros : Z) (mapped : bool) : list Z :=
  flat_map (fun w => [w / 256; w mod 256]) (sample_words zeros mapped 8 0).

Definition bytes_eqb (a b : list Z) : bool :=
  (List.length a =? List.length b)%nat &&
  forallb (fun p => fst p =? snd p) (combine a b).

(** The text of [src] is an IPv6 literal of [src] again. *)
Definition reads_back (src : list Z) : bool :=
  match inet_pton6 (inet_ntop6 src) with
  | Some r => bytes_eqb r src
  | None => false
  end.

(** ** Reading hexadecimal digits

    What the loop of [inet_pton6] does on a text of hexadecimal digits
    only: the count of digits and the value, or [None] when it gives up. *)
Fixpoint feed (s : string) (seen : nat) (val : Z) : option (nat * Z) :=
  match s with
  | EmptyString => Some (seen, val)
  | String ch s' =>
      if 0 <=? hex_digit_value ch then
        if (seen =? 4)%nat then None
        else
          let val' := Z.lor (Z.shiftl val 4) (hex_digit_value ch) in
          if 65535 <? val' then None else feed s' (S seen) val'
      else None
  end.

(** ** Runs of zero groups

    [r] is no run, or a run of zero groups of [words] that ends at or
    before group [i]. *)
Definition zero_run (words : list Z) (i : Z) (r : run) : Prop :=
  base r = -1 \/
  (0 <= base r /\ 1 <= len r /\ base r + len r <= i /\
   forall j, base r <= j < base r + len r -> nth (Z.to_nat j) words 0 = 0).

(** [w] is the group of the bytes [hi] and [lo]. *)
Definition pair_of (w hi lo : Z) : Prop :=
  word w /\ group_bytes w = [hi; lo] /\ (w = 0 -> hi = 0 /\ lo = 0).

(** ** Addresses as numbers

    The bytes [b], most significant first, as one number continuing from
    [acc]: an IPv4 address as a 32-bit and an IPv6 address as a 128-bit
    number. *)
Fixpoint be_value (b : list Z) (acc : Z) : Z :=
  match b with
  | [] => acc
  | x :: b' => be_value b' (acc * 256 + x)
  end.

(** ** Cutting a text

    No character of code [c] in [s]. *)
Fixpoint charfree (c : Z) (s : string) : bool :=
  match s with
  | EmptyString => true
  | String ch s' => negb (code ch =? c) && charfree c s'
  end.

(** [s] cut at its first character of code [c]: what is before it and
    what is after it. *)
Fixpoint split_at (c : Z) (s : string) : string * string :=
  match s with
  | EmptyString => (EmptyString, EmptyString)
  | String ch s' =>
      if code ch =? c then (EmptyString, s')
      else let (a, r) := split_at c s' in (String ch a, r)
  end.

(** A code that no digit printed for a number has. *)
Definition no_digit (c : Z) : Prop := c < 48 \/ 57 < c < 97 \/ 102 < c.

(** ** Literals by their syntax

    What the specification calls a literal, "dotted-decimal for IPv4,
    colon-hex for IPv6", written as two recognisers of the text alone. *)

Definition is_decimal (ch : ascii) : bool :=
  (48 <=? code ch) && (code ch <=? 57).

Definition is_xdigit (ch : ascii) : bool :=
  is_decimal ch
  || ((97 <=? code ch) && (code ch <=? 102))
  || ((65 <=? code ch) && (code ch <=? 70)).

Fixpoint all_chars (p : ascii -> bool) (s : string) : bool :=
  match s with
  | EmptyString => true
  | String ch s' => p ch && all_chars p s'
  end.

(** The pieces of [s] between its characters of code [c]. *)
Fixpoint split_on (c : Z) (s : string) : list string :=
  match s with
  | EmptyString => [EmptyString]
  | String ch s' =>
      if code ch =? c then EmptyString :: split_on c s'
      else match split_on c s' with
           | p :: ps => String ch p :: ps
           | [] => [String ch EmptyString]
           end
  end.

(** The number that decimal digits denote. *)
Fixpoint decimal_value (t : string) (acc : Z) : Z :=
  match t with
  | EmptyString => acc
  | String ch t' => decimal_value t' (acc * 10 + (code ch - 48))
  end.

(** One to three decimal digits for a number up to 255, with no zero in
    front of another digit. *)
Definition decimal_octet (t : string) : bool :=
  match t with
  | EmptyString => false
  | String ch t' =>
      all_chars is_decimal t && (String.length t <=? 3)%nat
      && (negb (code ch =? 48) || (String.length t =? 1)%nat)
      && (decimal_value t 0 <=? 255)
  end.

(** Four such numbers with dots between them. *)
Definition dotted_decimal (s : string) : bool :=
  match split_on 46 s with
  | [a; b; c; d] =>
      decimal_octet a && decimal_octet b && decimal_octet c && decimal_octet d
  | _ => false
  end.

(** One to four hexadecimal digits. *)
Definition hex_group (g : string) : bool :=
  (1 <=? String.length g)%nat && (String.length g <=? 4)%nat
  && all_chars is_xdigit g.

(** The number of 16-bit groups that the pieces [ps] stand for, when each
    is a group, or the last a dotted-decimal address where [quad] allows
    it. *)
Fixpoint groups_of (quad : bool) (ps : list string) : option nat :=
  match ps with
  | [] => Some 0%nat
  | p :: ps' =>
      match ps' with
      | [] =>
          if hex_group p then Some 1%nat
          else if quad && dotted_decimal p then Some 2%nat
          else None
      | _ :: _ =>
          if hex_group p then option_map S (groups_of quad ps') else None
      end
  end.

(** [s] cut at its first double colon: what is before and what is
    after. *)
Fixpoint cut_double_colon (s : string) : option (string * string) :=
  match s with
  | EmptyString => None
  | String c1 s' =>
      match s' with
      | EmptyString => None
      | String c2 s'' =>
          if (code c1 =? 58) && (code c2 =? 58) then Some (EmptyString, s'')
          else option_map (fun p => (String c1 (fst p), snd p))
                 (cut_double_colon s')
      end
  end.

(** The pieces of [s] between its colons; none when [s] is empty. *)
Definition colon_pieces (s : string) : list string :=
  match s with
  | EmptyString => []
  | _ => split_on 58 s
  end.

(** Colon-hex text: groups with colons between them, the last of which
    may be a dotted-decimal address standing for two groups; eight groups
    in all, or fewer with one double colon standing for the one or more
    that are missing. *)
Definition colon_hex (s : string) : bool :=
  match cut_double_colon s with
  | None =>
      match groups_of true (split_on 58 s) with
      | Some n => (n =? 8)%nat
      | None => false
      end
  | Some (a, b) =>
      match groups_of false (colon_pieces a),
            groups_of true (colon_pieces b) with
      | Some m, Some n => (m + n <=? 7)%nat
      | _, _ => false
      end
  end.

(** Each group followed by a colon. *)
Fixpoint colons (gs : list string) : string :=
  match gs with
  | [] => EmptyString
  | g :: gs' => String.append g (String ":" (colons gs'))
  end.

(** The groups with colons between them. *)
Fixpoint join_colon (gs : list string) : string :=
  match gs with
  | [] => EmptyString
  | g :: gs' =>
      match gs' with
      | [] => g
      | _ :: _ => String.append g (String ":" (join_colon gs'))
      end
  end.

(** A text that starts with a character other than a colon. *)
Definition starts_plain (s : string) : Prop :=
  exists ch s', s = String ch s' /\ (code ch =? 58) = false.

(** The last item of a text: a group, a dotted-decimal address, or
    nothing. *)
Definition last_group (t : string) : Prop := hex_group t = true.
Definition last_quad (t : string) : Prop :=
  hex_group t = false /\ dotted_decimal t = true /\ charfree 58 t = true /\
  starts_plain t.

(** [g] is a group. *)
Definition is_group (g : string) : Prop := hex_group g = true.

(** The text of what has been read: the groups before the double colon
    and, when there is one, those after it. *)
Definition base_text (pre : list string) (comp : option (list string))
    : string :=
  match comp with
  | None => colons pre
  | Some post =>
      String.append (join_colon pre)
        (String ":" (String ":" (colons post)))
  end.

(** A text in its parts: the groups [pre], the groups after a double
    colon when [comp] has them, and a last item [t] that stands for [w]
    groups. *)
Definition colon_hex_form (s : string) : Prop :=
  exists pre comp t w,
    Forall is_group pre /\
    ((last_group t /\ w = 1%nat) \/ (last_quad t /\ w = 2%nat) \/
     (t = EmptyString /\ w = 0%nat /\ comp = Some [])) /\
    s = String.append (base_text pre comp) t /\
    match comp with
    | None => (List.length pre + w = 8)%nat /\ w <> 0%nat
    | Some post =>
        Forall is_group post /\ (List.length pre + List.length post + w <= 7)%nat
    end.

(** What the loop of [inet_pton6] knows when [pre], [comp] and the digits
    [cur] of a group have been read and [src] is left. *)
Definition loop_inv (src : string) (tmp : list Z) (colonp : option nat)
    (curtok : string) (seen : nat) (pre : list string)
    (comp : option (list string)) (cur : string) : Prop :=
  Forall is_group pre /\
  match comp with
  | None => colonp = None
  | Some post => Forall is_group post /\ colonp <> None
  end /\
  curtok = String.append cur src /\
  String.length cur = seen /\ all_chars is_xdigit cur = true /\
  (seen <= 4)%nat /\
  List.length tmp
  = (2 * (List.length pre
          + match comp with None => 0 | Some post => List.length post end))%nat /\
  (List.length tmp <= 16)%nat /\
  (pre = [] -> comp = None -> seen = 0%nat ->
   forall ch s', src = String ch s' -> (code ch =? 58) = false) /\
  (seen = 0%nat ->
   match comp with None => pre <> [] | Some post => post <> [] end ->
   src <> EmptyString).


(** * Checks on concrete inputs *)

Example pton4_tests :
  inet_pton4 "127.0.0.1" = Some [127; 0; 0; 1] /\
  inet_pton4 "127.0.0.01" = None /\
  inet_pton4 "256.0.0.1" = None /\
  inet_pton4 "1.2.3" = None /\
  inet_pton4 "1.2.3.4." = None /\
  inet_ntop4 [127; 0; 0; 1] = "127.0.0.1"%string.
Proof. repeat split; reflexivity. Qed.

Example utoa_tests :
  hex 65535 = "ffff"%string /\ hex 0 = "0"%string /\
  dec 8080 = "8080"%string /\ dec 0 = "0"%string.
Proof. repeat split; reflexivity. Qed.

Example pton6_tests :
  inet_pton6 "::1" = Some [0;0;0;0;0;0;0;0;0;0;0;0;0;0;0;1] /\
  inet_pton6 "0:0:0:0:0:0:0:1" = Some [0;0;0;0;0;0;0;0;0;0;0;0;0;0;0;1] /\
  inet_pton6 "::" = Some (repeat 0 16) /\
  inet_pton6 "1::" = Some ([0;1] ++ repeat 0 14) /\
  inet_pton6 ":1" = None /\
  inet_pton6 "1:" = None /\
  inet_pton6 "1:2:3:4:5:6:7:8" = Some [0;1;0;2;0;3;0;4;0;5;0;6;0;7;0;8] /\
  inet_pton6 "1:2:3:4:5:6:7::" = Some [0;1;0;2;0;3;0;4;0;5;0;6;0;7;0;0] /\
  inet_pton6 "1:2:3:4:5:6:7:8::" = None /\
  inet_pton6 "1:2:3:4:5:6:7:8:9" = None /\
  inet_pton6 "::ffff:1.2.3.4" = Some [0;0;0;0;0;0;0;0;0;0;255;255;1;2;3;4] /\
  inet_pton6 "fe80::AbCd" = Some [254;128;0;0;0;0;0;0;0;0;0;0;0;0;171;205] /\
  inet_pton6 "12345::" = None /\
  inet_pton6 "1::2::3" = None /\
  inet_pton6 "1.2.3.4" = None.
Proof. repeat split; reflexivity. Qed.

Example ntop6_tests :
  inet_ntop6 [0;0;0;0;0;0;0;0;0;0;0;0;0;0;0;1] = "::1"%string /\
  inet_ntop6 (repeat 0 16) = "::"%string /\
  inet_ntop6 ([0;1] ++ repeat 0 14) = "1::"%string /\
  inet_ntop6 [0;1;0;2;0;3;0;4;0;5;0;6;0;7;0;8] = "1:2:3:4:5:6:7:8"%string /\
  inet_ntop6 [0;0;0;0;0;0;0;0;0;0;255;255;1;2;3;4] = "::ffff:1.2.3.4"%string /\
  inet_ntop6 [0;0;0;0;0;0;0;0;0;0;0;0;1;2;3;4] = "::1.2.3.4"%string /\
  inet_ntop6 [254;128;0;0;0;0;0;0;0;0;0;0;0;0;171;205] = "fe80::abcd"%string /\
  inet_ntop6 [0;1;0;0;0;0;0;2;0;0;0;0;0;0;0;3] = "1:0:0:2::3"%string /\
  inet_ntop6 [0;1;0;0;0;2;0;0;0;3;0;4;0;5;0;6] = "1:0:2:0:3:4:5:6"%string /\
  inet_ntop6 [0;1;0;0;0;0;0;2;0;0;0;0;0;3;0;4] = "1::2:0:0:3:4"%string.
Proof. repeat split; reflexivity. Qed.

(** The scenarios of the specification. *)

Example scenario_1 :
  let r := set socketaddr_default "127.0.0.1" 8080 0 in
  fst (fst r) = 0 /\
  get_family (snd (fst r)) = AF_INET /\
  fst (get_addr (snd (fst r)) 0) = "127.0.0.1"%string /\
  fst (get_port (snd (fst r)) 0) = 8080 /\
  fst (operator_shl EmptyString (snd (fst r)) 0) = "127.0.0.1:8080"%string.
Proof. repeat split; reflexivity. Qed.

Example scenario_2 :
  let r := set socketaddr_default "::1" 443 0 in
  fst (fst r) = 0 /\
  get_family (snd (fst r)) = AF_INET6 /\
  fst (operator_shl EmptyString (snd (fst r)) 0) = "[::1]:443"%string.
Proof. repeat split; reflexivity. Qed.

Example scenario_3 :
  fst (fst (set socketaddr_default "not-an-ip" 80 0)) = EAFNOSUPPORT.
Proof. reflexivity. Qed.

Example scenario_4 :
  operator_eq socketaddr_default (socketaddr_of "127.0.0.1" 8080) = false /\
  operator_ne socketaddr_default (socketaddr_of "127.0.0.1" 8080) = true.
Proof. split; reflexivity. Qed.

Example scenario_5 :
  let a := snd (fst (set socketaddr_default "10.0.0.1" 53 0)) in
  let b := snd (fst (set (socketaddr_of "::1" 443) "10.0.0.1" 53 22)) in
  operator_eq a b = true /\ operator_lt a b = false /\ operator_lt b a = false.
Proof. repeat split; reflexivity. Qed.

(** Whatever groups are zero, [inet_pton6] reads the text of
    [inet_ntop6] back as the same address. *)
Example inet_ntop6_reads_back :
  forallb (fun zeros => reads_back (sample_addr zeros false)
                        && reads_back (sample_addr zeros true))
          (zrange 256 0) = true.
Proof. vm_compute; reflexivity. Qed.

Example sample_addr_tests :
  inet_ntop6 (sample_addr 0 false)
  = "1234:1235:1236:1237:1238:1239:123a:123b"%string /\
  inet_ntop6 (sample_addr 31 true) = "::ffff:18.58.18.59"%string /\
  inet_ntop6 (sample_addr 63 false) = "::18.58.18.59"%string /\
  inet_ntop6 (sample_addr 102 false) = "1234::1237:1238:0:0:123b"%string /\
  inet_ntop6 (sample_addr 255 false) = "::"%string.
Proof. repeat split; reflexivity. Qed.

Example colon_hex_tests :
  map colon_hex
    ["::"; "::1"; "1::"; "1:2:3:4:5:6:7:8"; "1:2:3:4:5:6:7::";
     "::1.2.3.4"; "::ffff:1.2.3.4"; "1:2:3:4:5:6:1.2.3.4"; "fe80::A:b";
     ""; ":"; ":::"; "1:2:3:4:5:6:7:8::"; "1::2::3"; "1:2:3:4:5:6:7";
     "12345::"; "1.2.3.4"; "1.2.3.4::"; "::1.2.3.4:5"; ":1"; "1:";
     "1:2:3:4:5:6:7:1.2.3.4"; "g::"; "::01.2.3.4"; "1:2:3:4:5:6:7:8:9"]%string
  = [true; true; true; true; true; true; true; true; true;
     false; false; false; false; false; false; false; false; false; false;
     false; false; false; false; false; false]
  /\ map (fun s => match inet_pton6 s with Some _ => true | None => false end)
    ["::"; "::1"; "1::"; "1:2:3:4:5:6:7:8"; "1:2:3:4:5:6:7::";
     "::1.2.3.4"; "::ffff:1.2.3.4"; "1:2:3:4:5:6:1.2.3.4"; "fe80::A:b";
     ""; ":"; ":::"; "1:2:3:4:5:6:7:8::"; "1::2::3"; "1:2:3:4:5:6:7";
     "12345::"; "1.2.3.4"; "1.2.3.4::"; "::1.2.3.4:5"; ":1"; "1:";
     "1:2:3:4:5:6:7:1.2.3.4"; "g::"; "::01.2.3.4"; "1:2:3:4:5:6:7:8:9"]%string
  = [true; true; true; true; true; true; true; true; true;
     false; false; false; false; false; false; false; false; false; false;
     false; false; false; false; false; false].
Proof. split; reflexivity. Qed.

Example dotted_decimal_tests :
  map dotted_decimal
    ["0.0.0.0"; "255.255.255.255"; "10.0.0.1"; ""; "1.2.3"; "1.2.3.4.5";
     "01.2.3.4"; "256.0.0.1"; "1..2.3"; "1.2.3.4 "; "a.b.c.d"; "1.2.3.0004"]%string
  = [true; true; true; false; false; false; false; false; false; false;
     false; false]
  /\ map (fun s => match inet_pton4 s with Some _ => true | None => false end)
    ["0.0.0.0"; "255.255.255.255"; "10.0.0.1"; ""; "1.2.3"; "1.2.3.4.5";
     "01.2.3.4"; "256.0.0.1"; "1..2.3"; "1.2.3.4 "; "a.b.c.d"; "1.2.3.0004"]%string
  = [true; true; true; false; false; false; false; false; false; false;
     false; false].
Proof. split; reflexivity. Qed.

(** * Properties *)

(** ** memcmp and the comparison operators *)

Lemma memcmp_refl (a : list Z) (n : nat) : memcmp a a n = 0.
Proof.
  revert a; induction n as [|n IH]; intros [|x a]; simpl; trivial.
  rewrite Z.eqb_refl; apply IH.
Qed.

Lemma memcmp_opp (a b : list Z) (n : nat) : memcmp b a n = - memcmp a b n.
Proof.
  revert a b; induction n as [|n IH]; intros [|x a] [|y b]; simpl; trivial.
  rewrite (Z.eqb_sym y x).
  destruct (x =? y) eqn:E; [apply IH | lia].
Qed.

Lemma memcmp_eq (a b : list Z) (n : nat) :
  List.length a = n -> List.length b = n -> memcmp a b n = 0 -> a = b.
Proof.
  revert a b; induction n as [|n IH]; intros [|x a] [|y b]; simpl;
    try discriminate; trivial.
  intros Ha Hb.
  destruct (x =? y) eqn:E.
  - apply Z.eqb_eq in E; subst y; intros H.
    f_equal; apply IH; auto.
  - apply Z.eqb_neq in E; intros H; lia.
Qed.

Lemma memcmp_lt_trans (a b c : list Z) (n : nat) :
  List.length a = n -> List.length b = n -> List.length c = n ->
  memcmp a b n < 0 -> memcmp b c n < 0 -> memcmp a c n < 0.
Proof.
  revert a b c; induction n as [|n IH]; intros [|x a] [|y b] [|z c]; simpl;
    try discriminate; try lia.
  intros Ha Hb Hc.
  destruct (x =? y) eqn:Exy, (y =? z) eqn:Eyz, (x =? z) eqn:Exz;
    rewrite ?Z.eqb_eq, ?Z.eqb_neq in *; subst; try lia.
  apply IH; auto.
Qed.

Lemma operator_eq_iff (a b : socketaddr) :
  wf a -> wf b -> (operator_eq a b = true <-> a = b).
Proof.
  intros [Ha _] [Hb _]; unfold operator_eq; split.
  - intros H; apply Z.eqb_eq in H.
    destruct a as [ma], b as [mb]; simpl in *.
    f_equal; eapply memcmp_eq; eauto.
  - intros ->; rewrite memcmp_refl; reflexivity.
Qed.

Lemma wf_check (this : socketaddr) :
  (List.length (sa this) =? sizeof_sa)%nat &&
  forallb (fun b => (0 <=? b) && (b <? 256)) (sa this) = true ->
  wf this.
Proof.
  intros H; apply andb_true_iff in H as [Hl Hb]; split.
  - now apply Nat.eqb_eq.
  - apply Forall_forall; intros b Hin.
    rewrite forallb_forall in Hb; specialize (Hb b Hin); unfold byte; lia.
Qed.

(** ** Characters and strings *)

Lemma code_range (ch : ascii) : 0 <= code ch < 256.
Proof. unfold code; pose proof (N_ascii_bounded ch); lia. Qed.

Lemma chr_code (ch : ascii) : chr (code ch) = ch.
Proof. unfold chr, code; rewrite N2Z.id; apply ascii_N_embedding. Qed.

Lemma append_assoc (a b c : string) :
  String.append (String.append a b) c = String.append a (String.append b c).
Proof. induction a as [|ch a IH]; simpl; [trivial | now rewrite IH]. Qed.

Lemma append_nil_r (a : string) : String.append a EmptyString = a.
Proof. induction a as [|ch a IH]; simpl; [trivial | now rewrite IH]. Qed.

Lemma length_append (a b : string) :
  String.length (String.append a b) = (String.length a + String.length b)%nat.
Proof. induction a as [|ch a IH]; simpl; [trivial | now rewrite IH]. Qed.

Lemma nulfree_append (a b : string) :
  nulfree (String.append a b) = nulfree a && nulfree b.
Proof.
  induction a as [|ch a IH]; simpl; [trivial |].
  now rewrite IH, andb_assoc.
Qed.

Lemma colonfree_append (a b : string) :
  colonfree (String.append a b) = colonfree a && colonfree b.
Proof.
  induction a as [|ch a IH]; simpl; [trivial |].
  now rewrite IH, andb_assoc.
Qed.

Lemma c_str_nulfree (s : string) : nulfree s = true -> c_str s = s.
Proof.
  induction s as [|ch s IH]; simpl; [trivial |].
  intros H; apply andb_true_iff in H as [Hc Hs].
  destruct (code ch =? 0); [discriminate | now rewrite IH].
Qed.

Lemma nulfree_c_str (s : string) : nulfree (c_str s) = true.
Proof.
  induction s as [|ch s IH]; simpl; [trivial |].
  destruct (code ch =? 0) eqn:E; simpl; [trivial | now rewrite E].
Qed.

(** What [buf = buf.c_str()] yields after [strcpy(&buf[0], text)]. *)
Lemma c_str_strcpy (buf text : string) :
  nulfree text = true -> c_str (strcpy buf text) = text.
Proof.
  unfold strcpy; generalize (drop (S (String.length text)) buf) as rest.
  induction text as [|ch text IH]; simpl; intros rest H; [trivial |].
  apply andb_true_iff in H as [Hc Hs].
  destruct (code ch =? 0); [discriminate | now rewrite IH].
Qed.

Lemma zrange_In (n : nat) (a z : Z) :
  In z (zrange n a) <-> a <= z < a + Z.of_nat n.
Proof.
  revert a; induction n as [|n IH]; intros a; simpl; [lia |].
  rewrite IH; lia.
Qed.

(** A property checked on every value of a range holds on the range. *)
Lemma zrange_forallb (P : Z -> bool) (n : nat) (a z : Z) :
  forallb P (zrange n a) = true -> a <= z < a + Z.of_nat n -> P z = true.
Proof.
  intros H Hz; rewrite forallb_forall in H; apply H, zrange_In, Hz.
Qed.

(** *** Decimal and hexadecimal digits *)

Lemma code_chr (n : Z) : 0 <= n < 256 -> code (chr n) = n.
Proof.
  intros H; unfold code, chr.
  rewrite N_ascii_embedding by lia; lia.
Qed.

Lemma digit_char_code (d : Z) :
  0 <= d < 16 -> code (digit_char d) = if d <? 10 then 48 + d else 87 + d.
Proof.
  intros H; unfold digit_char.
  destruct (d <? 10) eqn:E; apply code_chr; lia.
Qed.

(** The digits that [utoa] produces, in a base from 2 to 16. *)
Section Utoa.

Variable b : Z.
Hypothesis base_range : 1 < b <= 16.

Lemma utoa_aux_length (fuel : nat) (n : Z) (acc : string) (k : nat) :
  0 <= n < b ^ Z.of_nat (S k) ->
  (String.length (utoa_aux fuel b n acc) <= S k + String.length acc)%nat.
Proof.
  revert n acc k.
  induction fuel as [|fuel IH]; intros n acc k Hn; simpl; [lia |].
  destruct (n / b =? 0) eqn:E; simpl; [lia |].
  apply Z.eqb_neq in E.
  destruct k as [|k].
  - exfalso; apply E, Z.div_small.
    rewrite Z.pow_1_r in Hn; exact Hn.
  - specialize (IH (n / b) (String (digit_char (n mod b)) acc) k).
    simpl String.length in IH.
    assert (Hq : 0 <= n / b < b ^ Z.of_nat (S k)).
    { split; [apply Z.div_pos; lia |].
      apply Z.div_lt_upper_bound; [lia |].
      replace (Z.of_nat (S (S k))) with (Z.succ (Z.of_nat (S k))) in Hn by lia.
      rewrite Z.pow_succ_r in Hn by lia; lia. }
    specialize (IH Hq); lia.
Qed.

Lemma utoa_aux_free (fuel : nat) (n : Z) (acc : string) :
  nulfree acc = true -> colonfree acc = true ->
  nulfree (utoa_aux fuel b n acc) = true /\
  colonfree (utoa_aux fuel b n acc) = true.
Proof.
  revert n acc.
  induction fuel as [|fuel IH]; intros n acc Hn Hc; simpl; [auto |].
  assert (Hd : 0 <= n mod b < 16)
    by (pose proof (Z.mod_pos_bound n b); lia).
  assert (H : nulfree (String (digit_char (n mod b)) acc) = true /\
              colonfree (String (digit_char (n mod b)) acc) = true).
  { simpl; rewrite Hn, Hc, (digit_char_code _ Hd).
    destruct (n mod b <? 10) eqn:E;
      [apply Z.ltb_lt in E | apply Z.ltb_ge in E]; split;
      rewrite andb_true_r; apply negb_true_iff, Z.eqb_neq; lia. }
  destruct (n / b =? 0); [exact H | apply IH; apply H].
Qed.

Lemma utoa_free (n : Z) :
  nulfree (utoa b n) = true /\ colonfree (utoa b n) = true.
Proof. apply utoa_aux_free; reflexivity. Qed.

Lemma utoa_aux_grows (fuel : nat) (n : Z) (acc : string) :
  (String.length acc <= String.length (utoa_aux fuel b n acc))%nat.
Proof.
  revert n acc; induction fuel as [|fuel IH]; intros n acc; simpl; [lia |].
  destruct (n / b =? 0); simpl; [lia |].
  specialize (IH (n / b) (String (digit_char (n mod b)) acc)); simpl in IH; lia.
Qed.

Lemma utoa_nonempty (n : Z) : (1 <= String.length (utoa b n))%nat.
Proof.
  unfold utoa; cbn [utoa_aux].
  destruct (n / b =? 0); simpl; [lia |].
  pose proof (utoa_aux_grows (Z.to_nat (Z.log2 n)) (n / b)
                (String (digit_char (n mod b)) EmptyString)) as H.
  simpl in H; lia.
Qed.

Lemma hex_digit_value_digit_char (d : Z) :
  0 <= d < 16 -> hex_digit_value (digit_char d) = d.
Proof.
  intros Hd; unfold hex_digit_value; rewrite (digit_char_code d Hd).
  destruct (d <? 10) eqn:E; [apply Z.ltb_lt in E | apply Z.ltb_ge in E].
  - replace ((48 <=? 48 + d) && (48 + d <=? 57)) with true; [lia |].
    symmetry; apply andb_true_iff; split; apply Z.leb_le; lia.
  - replace ((48 <=? 87 + d) && (87 + d <=? 57)) with false
      by (symmetry; apply andb_false_iff; right; apply Z.leb_gt; lia).
    replace ((97 <=? 87 + d) && (87 + d <=? 102)) with true; [lia |].
    symmetry; apply andb_true_iff; split; apply Z.leb_le; lia.
Qed.

(** The fuel of [utoa] is enough: the digits printed denote [n]. *)
Lemma utoa_aux_value (fuel : nat) :
  forall (n : Z) (acc : string),
    0 <= n -> Z.log2 n < Z.of_nat fuel ->
    exists k : Z,
      0 <= k /\
      forall a0 : Z,
        atou b (utoa_aux fuel b n acc) a0 = atou b acc (a0 * b ^ k + n).
Proof.
  induction fuel as [|fuel IH]; intros n acc Hn Hlog.
  - pose proof (Z.log2_nonneg n); lia.
  - cbn [utoa_aux].
    assert (Hd : 0 <= n mod b < 16)
      by (pose proof (Z.mod_pos_bound n b); lia).
    pose proof (Z.div_mod n b ltac:(lia)) as Hdm.
    destruct (n / b =? 0) eqn:E.
    + apply Z.eqb_eq in E; exists 1; split; [lia |]; intros a0.
      cbn [atou]; rewrite (hex_digit_value_digit_char _ Hd).
      f_equal; rewrite Z.pow_1_r; lia.
    + apply Z.eqb_neq in E.
      assert (Hq : 0 <= n / b) by (apply Z.div_pos; lia).
      assert (Hlogq : Z.log2 (n / b) < Z.of_nat fuel).
      { assert (Hhalf : n / b <= n / 2)
          by (apply Z.div_le_compat_l; lia).
        assert (Hpos : 0 < n / 2) by lia.
        apply Z.le_lt_trans with (Z.log2 (n / 2));
          [apply Z.log2_le_mono; exact Hhalf |].
        change 2 with (2 ^ 1); rewrite <- Z.shiftr_div_pow2 by lia.
        rewrite Z.log2_shiftr by lia.
        assert (H1 : Z.log2 2 <= Z.log2 n) by (apply Z.log2_le_mono; lia).
        change (Z.log2 2) with 1 in H1; lia. }
      destruct (IH (n / b) (String (digit_char (n mod b)) acc) Hq Hlogq)
        as (k & Hk & IHk).
      exists (k + 1); split; [lia |]; intros a0.
      rewrite IHk; cbn [atou]; rewrite (hex_digit_value_digit_char _ Hd).
      f_equal; rewrite Z.pow_add_r, Z.pow_1_r by lia; lia.
Qed.

Lemma utoa_value (n : Z) : 0 <= n -> atou b (utoa b n) 0 = n.
Proof.
  intros Hn; unfold utoa.
  destruct (utoa_aux_value (S (Z.to_nat (Z.log2 n))) n EmptyString Hn)
    as (k & _ & Hk); [pose proof (Z.log2_nonneg n); lia |].
  rewrite Hk; reflexivity.
Qed.

End Utoa.

(** [dec] prints a number in decimal and [hex] in hexadecimal. *)
Lemma dec_value (n : Z) : 0 <= n -> atou 10 (dec n) 0 = n.
Proof. apply utoa_value; lia. Qed.

Lemma hex_value (n : Z) : 0 <= n -> atou 16 (hex n) 0 = n.
Proof. apply utoa_value; lia. Qed.

Lemma dec_byte (b : Z) :
  byte b ->
  (String.length (dec b) <= 3)%nat /\ nulfree (dec b) = true /\
  colonfree (dec b) = true.
Proof.
  intros Hb; unfold dec; split; [| apply utoa_free; lia].
  unfold byte in Hb.
  assert (H1000 : 0 <= b < 10 ^ Z.of_nat 3)
    by (change (10 ^ Z.of_nat 3) with 1000; lia).
  apply (utoa_aux_length 10 ltac:(lia) (S (Z.to_nat (Z.log2 b))) b
           EmptyString 2) in H1000.
  exact H1000.
Qed.

Lemma hex_word (w : Z) :
  word w ->
  (String.length (hex w) <= 4)%nat /\ nulfree (hex w) = true.
Proof.
  intros Hw; unfold hex; split; [| apply utoa_free; lia].
  unfold word in Hw.
  assert (H16 : 0 <= w < 16 ^ Z.of_nat 4)
    by (change (16 ^ Z.of_nat 4) with 65536; lia).
  apply (utoa_aux_length 16 ltac:(lia) (S (Z.to_nat (Z.log2 w))) w
           EmptyString 3) in H16.
  exact H16.
Qed.


(** Reading one more decimal digit appends it to the printed number. *)
Lemma dec_snoc (cur d : Z) :
  1 <= cur -> 0 <= d <= 9 -> cur * 10 + d <= 255 ->
  dec (cur * 10 + d) = String.append (dec cur) (String (chr (48 + d)) EmptyString).
Proof.
  intros Hc Hd Hn.
  assert (H : forallb (fun c => forallb (fun d =>
                (255 <? c * 10 + d) ||
                String.eqb (dec (c * 10 + d))
                  (String.append (dec c) (String (chr (48 + d)) EmptyString)))
                (zrange 10 0)) (zrange 25 1) = true)
    by (vm_compute; reflexivity).
  rewrite forallb_forall in H.
  assert (Hin : In cur (zrange 25 1)) by (apply zrange_In; lia).
  specialize (H cur Hin); rewrite forallb_forall in H.
  assert (Hin' : In d (zrange 10 0)) by (apply zrange_In; lia).
  specialize (H d Hin'); apply orb_true_iff in H as [H | H].
  - apply Z.ltb_lt in H; lia.
  - now apply String.eqb_eq.
Qed.

Lemma dec_digit (d : Z) :
  0 <= d <= 9 -> dec d = String (chr (48 + d)) EmptyString.
Proof.
  intros Hd.
  assert (H : forallb (fun d =>
                String.eqb (dec d) (String (chr (48 + d)) EmptyString))
                (zrange 10 0) = true) by (vm_compute; reflexivity).
  rewrite forallb_forall in H; apply String.eqb_eq, H, zrange_In; lia.
Qed.

(** ** inet_pton4 and inet_ntop4 *)

Lemma dotted_snoc (tmp : list Z) (cur : Z) :
  dotted (tmp ++ [cur])
  = String.append (dotted tmp) (String.append (dec cur) dot).
Proof.
  induction tmp as [|o tmp IH]; simpl.
  - reflexivity.
  - now rewrite IH, !append_assoc.
Qed.

Lemma is_digit_value (ch : ascii) :
  is_digit ch = true -> 0 <= code ch - 48 <= 9.
Proof. unfold is_digit; intros H; apply andb_true_iff in H; lia. Qed.

(** The loop invariant of [inet_pton4]: the text read so far is the
    closed octets, each with its dot, then the digits of the open one. *)
Lemma inet_pton4_loop_sound (src : string) :
  forall (tmp : list Z) (cur : Z) (saw : bool) (octets : nat) (r : list Z),
    inet_pton4_loop src tmp cur saw octets = Some r ->
    octets = (List.length tmp + (if saw then 1 else 0))%nat ->
    (List.length tmp <= 3)%nat ->
    (saw = false -> cur = 0) -> byte cur -> Forall byte tmp ->
    exists tmp' cur',
      r = tmp' ++ [cur'] /\ List.length tmp' = 3%nat /\ Forall byte r /\
      String.append (dotted tmp') (dec cur')
      = String.append (dotted tmp)
          (String.append (if saw then dec cur else EmptyString) src).
Proof.
  induction src as [|ch src IH]; intros tmp cur saw octets r H Hoct Hlen H0 Hcur Htmp.
  - simpl in H.
    destruct (octets <? 4)%nat eqn:E; [discriminate |].
    apply Nat.ltb_ge in E; injection H as <-.
    destruct saw; [| lia].
    exists tmp, cur; repeat split; [lia | |].
    + apply Forall_app; split; [exact Htmp | now constructor].
    + now rewrite append_nil_r.
  - simpl in H.
    destruct (is_digit ch) eqn:Ed.
    + pose proof (is_digit_value ch Ed) as Hd.
      destruct saw; simpl in H.
      * destruct (cur =? 0) eqn:Ez; [discriminate |].
        apply Z.eqb_neq in Ez.
        destruct (255 <? cur * 10 + (code ch - 48)) eqn:En; [discriminate |].
        apply Z.ltb_ge in En; unfold byte in Hcur.
        apply IH in H; [| exact Hoct | exact Hlen | discriminate
                        | unfold byte; lia | exact Htmp].
        destruct H as (tmp' & cur' & -> & Hl & Hb & Heq).
        exists tmp', cur'; repeat split; auto.
        rewrite Heq, dec_snoc by lia.
        replace (48 + (code ch - 48)) with (code ch) by lia.
        now rewrite chr_code, append_assoc.
      * rewrite (H0 eq_refl) in *; simpl in H.
        destruct (255 <? code ch - 48) eqn:En; [discriminate |].
        destruct (4 <? S octets)%nat eqn:E4; [discriminate |].
        apply IH in H; [| lia | exact Hlen | discriminate
                        | unfold byte; lia | exact Htmp].
        destruct H as (tmp' & cur' & -> & Hl & Hb & Heq).
        exists tmp', cur'; repeat split; auto.
        rewrite Heq, dec_digit by lia.
        replace (48 + (code ch - 48)) with (code ch) by lia.
        now rewrite chr_code.
    + destruct ((code ch =? 46) && saw) eqn:Edot; [| discriminate].
      apply andb_true_iff in Edot as [Edot ->]; apply Z.eqb_eq in Edot.
      destruct (octets =? 4)%nat eqn:E4; [discriminate |].
      apply Nat.eqb_neq in E4.
      apply IH in H; [| rewrite length_app; simpl; lia
                      | rewrite length_app; simpl; lia | reflexivity
                      | unfold byte; lia
                      | apply Forall_app; split; [exact Htmp | now constructor]].
      destruct H as (tmp' & cur' & -> & Hl & Hb & Heq).
      exists tmp', cur'; repeat split; auto.
      rewrite Heq, dotted_snoc, !append_assoc.
      rewrite <- (chr_code ch), Edot; reflexivity.
Qed.

(** An accepted IPv4 literal denotes four bytes, and [inet_ntop4] prints
    them back as the same text. *)
Lemma inet_pton4_sound (src : string) (r : list Z) :
  inet_pton4 src = Some r ->
  List.length r = 4%nat /\ Forall byte r /\ inet_ntop4 r = src.
Proof.
  intros H; apply inet_pton4_loop_sound in H;
    [| reflexivity | simpl; lia | reflexivity | unfold byte; lia | constructor].
  destruct H as (tmp' & cur' & -> & Hl & Hb & Heq).
  destruct tmp' as [|a [|b [|c [|d tmp']]]]; try discriminate.
  repeat split; [exact Hb |].
  simpl in Heq; rewrite <- Heq.
  unfold inet_ntop4; simpl.
  repeat (rewrite append_assoc; simpl); reflexivity.
Qed.

Lemma inet_ntop4_free (r : list Z) :
  Forall byte r ->
  (String.length (inet_ntop4 r) <= 15)%nat /\
  nulfree (inet_ntop4 r) = true /\ colonfree (inet_ntop4 r) = true.
Proof.
  intros Hr.
  assert (Hn : forall i, byte (nth i r 0)).
  { intros i; destruct (nth_in_or_default i r 0) as [Hin | ->];
      [| unfold byte; lia].
    rewrite Forall_forall in Hr; now apply Hr. }
  destruct (dec_byte _ (Hn 0%nat)) as (L0 & N0 & C0).
  destruct (dec_byte _ (Hn 1%nat)) as (L1 & N1 & C1).
  destruct (dec_byte _ (Hn 2%nat)) as (L2 & N2 & C2).
  destruct (dec_byte _ (Hn 3%nat)) as (L3 & N3 & C3).
  unfold inet_ntop4.
  rewrite !length_append, !nulfree_append, !colonfree_append.
  rewrite N0, N1, N2, N3, C0, C1, C2, C3.
  repeat split; simpl; lia.
Qed.

(** *** Every printed dotted quad is accepted *)

(** Reading the digits of one octet. *)
Lemma inet_pton4_loop_octet (v : Z) (rest : string) (tmp : list Z)
    (octets : nat) :
  byte v -> (octets < 4)%nat ->
  inet_pton4_loop (String.append (dec v) rest) tmp 0 false octets
  = inet_pton4_loop rest tmp v true (S octets).
Proof.
  intros Hv Hoct.
  assert (Hin : In v (zrange 256 0)) by (apply zrange_In; exact Hv).
  destruct octets as [|[|[|[|octets]]]]; [| | | | lia];
    vm_compute in Hin;
    repeat (destruct Hin as [<- | Hin]; [reflexivity |]);
    contradiction.
Qed.

Lemma inet_pton4_loop_dot (rest : string) (tmp : list Z) (v : Z)
    (octets : nat) :
  (octets < 4)%nat ->
  inet_pton4_loop (String.append dot rest) tmp v true octets
  = inet_pton4_loop rest (tmp ++ [v]) 0 false octets.
Proof.
  intros Hoct.
  destruct octets as [|[|[|[|octets]]]]; [| | | | lia]; reflexivity.
Qed.

Lemma inet_pton4_complete (a b c d : Z) :
  byte a -> byte b -> byte c -> byte d ->
  inet_pton4 (inet_ntop4 [a; b; c; d]) = Some [a; b; c; d].
Proof.
  intros Ha Hb Hc Hd; unfold inet_pton4, inet_ntop4; cbn [nth].
  rewrite inet_pton4_loop_octet, inet_pton4_loop_dot by (auto; lia).
  rewrite inet_pton4_loop_octet, inet_pton4_loop_dot by (auto; lia).
  rewrite inet_pton4_loop_octet, inet_pton4_loop_dot by (auto; lia).
  rewrite <- (append_nil_r (dec d)).
  rewrite inet_pton4_loop_octet by (auto; lia).
  reflexivity.
Qed.

(** ** inet_pton6 *)

Lemma land_255_byte (x : Z) : byte (Z.land x 255).
Proof.
  change 255 with (Z.ones 8); rewrite Z.land_ones by lia.
  unfold byte; change (2 ^ 8) with 256; apply Z.mod_pos_bound; lia.
Qed.

Lemma group_bytes_byte (val : Z) : Forall byte (group_bytes val).
Proof. repeat constructor; apply land_255_byte. Qed.

Lemma Forall_byte_repeat (n : nat) : Forall byte (repeat 0 n).
Proof.
  induction n as [|n IH]; simpl; constructor; [unfold byte; lia | exact IH].
Qed.

#[local] Hint Resolve land_255_byte group_bytes_byte Forall_byte_repeat : bytes.

Lemma Forall_firstn_skipn {A : Type} (P : A -> Prop) (n : nat) (l : list A) :
  Forall P l -> Forall P (firstn n l) /\ Forall P (skipn n l).
Proof.
  intros H; rewrite <- (firstn_skipn n l) in H.
  now apply Forall_app in H.
Qed.

Lemma fill_zeros_length (k : nat) (t : list Z) :
  (k <= List.length t <= 16)%nat ->
  List.length (firstn k t ++ repeat 0 (16 - List.length t) ++ skipn k t)
  = 16%nat.
Proof.
  intros H.
  rewrite !length_app, repeat_length, length_firstn, length_skipn; lia.
Qed.

(** Filling in the double colon yields sixteen bytes. *)
Lemma inet_pton6_finish_sound (tmp : list Z) (colonp : option nat)
    (seen : nat) (val : Z) (r : list Z) :
  inet_pton6_finish tmp colonp seen val = Some r ->
  Forall byte tmp -> (List.length tmp <= 16)%nat ->
  (forall k, colonp = Some k -> (k <= List.length tmp)%nat) ->
  List.length r = 16%nat /\ Forall byte r.
Proof.
  unfold inet_pton6_finish; intros H Htmp H16 Hk.
  set (flushed := if (0 <? seen)%nat
                  then if (16 <? List.length tmp + 2)%nat then None
                       else Some (tmp ++ group_bytes val)
                  else Some tmp) in H.
  assert (Hf : forall t, flushed = Some t ->
                 Forall byte t /\
                 (List.length tmp <= List.length t <= 16)%nat).
  { subst flushed; intros t Ht.
    destruct (0 <? seen)%nat.
    - destruct (16 <? List.length tmp + 2)%nat eqn:E; [discriminate |].
      apply Nat.ltb_ge in E; injection Ht as <-; split.
      + apply Forall_app; auto with bytes.
      + rewrite length_app; simpl; lia.
    - injection Ht as <-; auto. }
  destruct flushed as [t|]; [| discriminate].
  destruct (Hf t eq_refl) as [Ht Hlen].
  destruct colonp as [k|].
  - specialize (Hk k eq_refl).
    destruct (List.length t =? 16)%nat eqn:E; [discriminate |].
    apply Nat.eqb_neq in E; injection H as <-; split.
    + apply fill_zeros_length; lia.
    + destruct (Forall_firstn_skipn byte k t Ht) as [H1 H2].
      repeat (apply Forall_app; split); auto with bytes.
  - destruct (List.length t =? 16)%nat eqn:E; [| discriminate].
    apply Nat.eqb_eq in E; injection H as <-; auto.
Qed.

(** The loop invariant of [inet_pton6]: at most sixteen bytes are written
    and the double colon lies among them. *)
Lemma inet_pton6_loop_sound (src : string) :
  forall (tmp : list Z) (colonp : option nat) (curtok : string) (seen : nat)
         (val : Z) (r : list Z),
    inet_pton6_loop src tmp colonp curtok seen val = Some r ->
    Forall byte tmp -> (List.length tmp <= 16)%nat ->
    (forall k, colonp = Some k -> (k <= List.length tmp)%nat) ->
    List.length r = 16%nat /\ Forall byte r.
Proof.
  induction src as [|ch src IH]; intros tmp colonp curtok seen val r H Htmp H16 Hk.
  - cbn [inet_pton6_loop] in H; eapply inet_pton6_finish_sound; eauto.
  - cbn [inet_pton6_loop] in H.
    destruct (0 <=? hex_digit_value ch).
    { destruct (seen =? 4)%nat; [discriminate |].
      destruct (65535 <? Z.lor (Z.shiftl val 4) (hex_digit_value ch));
        [discriminate | eapply IH; eauto]. }
    destruct (code ch =? 58).
    { destruct (seen =? 0)%nat.
      - destruct colonp; [discriminate |].
        eapply IH; eauto.
        intros k [= <-]; lia.
      - destruct src as [|ch' src']; [discriminate |].
        destruct (16 <? List.length tmp + 2)%nat eqn:E; [discriminate |].
        apply Nat.ltb_ge in E.
        eapply IH; eauto.
        + apply Forall_app; auto with bytes.
        + rewrite length_app; simpl; lia.
        + intros k Hc; specialize (Hk k Hc); rewrite length_app; lia. }
    destruct ((code ch =? 46) && (List.length tmp + 4 <=? 16)%nat) eqn:E;
      [| discriminate].
    apply andb_true_iff in E as [_ E]; apply Nat.leb_le in E.
    destruct (inet_pton4 curtok) as [quad|] eqn:E4; [| discriminate].
    apply inet_pton4_sound in E4 as (Hl & Hq & _).
    eapply inet_pton6_finish_sound; eauto.
    + apply Forall_app; split; assumption.
    + rewrite length_app; lia.
    + intros k Hc; specialize (Hk k Hc); rewrite length_app; lia.
Qed.

(** An accepted IPv6 literal denotes sixteen bytes. *)
Lemma inet_pton6_sound (src : string) (r : list Z) :
  inet_pton6 src = Some r -> List.length r = 16%nat /\ Forall byte r.
Proof.
  unfold inet_pton6; intros H.
  destruct src as [|ch src1]; [discriminate |].
  destruct (code ch =? 58).
  - destruct src1 as [|ch1 src2]; [discriminate |].
    destruct (code ch1 =? 58); [| discriminate].
    eapply inet_pton6_loop_sound; eauto; simpl; try lia.
    intros k [=].
  - eapply inet_pton6_loop_sound; eauto; simpl; try lia.
    intros k [=].
Qed.

(** No text without a colon is an IPv6 literal. *)
Lemma inet_pton6_loop_colonfree (src : string) :
  forall (curtok : string) (seen : nat) (val : Z),
    colonfree src = true ->
    inet_pton6_loop src [] None curtok seen val = None.
Proof.
  induction src as [|ch src IH]; intros curtok seen val Hc.
  - simpl; unfold inet_pton6_finish.
    destruct (0 <? seen)%nat; reflexivity.
  - simpl in Hc; apply andb_true_iff in Hc as [Hch Hc].
    apply negb_true_iff in Hch; cbn [inet_pton6_loop]; rewrite Hch.
    destruct (0 <=? hex_digit_value ch).
    { destruct (seen =? 4)%nat; [reflexivity |].
      destruct (65535 <? Z.lor (Z.shiftl val 4) (hex_digit_value ch));
        [reflexivity | now apply IH]. }
    destruct ((code ch =? 46) && (List.length (@nil Z) + 4 <=? 16)%nat);
      [| reflexivity].
    destruct (inet_pton4 curtok) as [quad|] eqn:E4; [| reflexivity].
    apply inet_pton4_sound in E4 as (Hl & _ & _).
    explode_list quad 4; reflexivity.
Qed.

Lemma inet_pton6_colonfree (src : string) :
  colonfree src = true -> inet_pton6 src = None.
Proof.
  intros Hc; unfold inet_pton6.
  destruct src as [|ch src1]; [reflexivity |].
  pose proof Hc as Hc'; simpl in Hc'.
  apply andb_true_iff in Hc' as [Hch _]; apply negb_true_iff in Hch.
  rewrite Hch; now apply inet_pton6_loop_colonfree.
Qed.

(** No text is a literal of both families. *)
Lemma inet_pton4_not_pton6 (src : string) (r : list Z) :
  inet_pton4 src = Some r -> inet_pton6 src = None.
Proof.
  intros H; apply inet_pton4_sound in H as (_ & Hb & <-).
  apply inet_pton6_colonfree, inet_ntop4_free, Hb.
Qed.

(** ** inet_ntop6 *)

Lemma lor_shiftl_word (hi lo : Z) :
  byte hi -> byte lo -> word (Z.lor (Z.shiftl hi 8) lo).
Proof.
  intros Hhi Hlo.
  pose (P := fun hi => forallb (fun lo =>
               let w := Z.lor (Z.shiftl hi 8) lo in (0 <=? w) && (w <? 65536))
               (zrange 256 0)).
  assert (H : P hi = true)
    by (apply (zrange_forallb P 256 0); [vm_compute; reflexivity | exact Hhi]).
  unfold P in H; rewrite forallb_forall in H.
  specialize (H lo (proj2 (zrange_In 256 0 lo) Hlo)).
  cbv zeta in H; apply andb_true_iff in H as [H1 H2].
  apply Z.leb_le in H1; apply Z.ltb_lt in H2; split; assumption.
Qed.

Lemma words_of_word (src : list Z) :
  Forall byte src -> Forall word (words_of src).
Proof.
  assert (H : forall n src, (List.length src <= n)%nat ->
                Forall byte src -> Forall word (words_of src)).
  { induction n as [|n IH]; intros [|hi [|lo rest]] Hn Hb; simpl in *;
      try constructor; try lia.
    - inversion Hb as [|? ? Hhi H']; inversion H' as [|? ? Hlo H'']; subst.
      now apply lor_shiftl_word.
    - apply IH; [lia |].
      inversion Hb as [|? ? Hhi H']; now inversion H'. }
  apply (H (List.length src)); lia.
Qed.

Lemma colon_free : nulfree colon = true /\ String.length colon = 1%nat.
Proof. split; reflexivity. Qed.

(** The text of [inet_ntop6] is a C string. *)
Lemma inet_ntop6_fmt_nulfree (src : list Z) (word5 : Z) (best : run)
    (words : list Z) :
  Forall byte src -> Forall word words ->
  forall i, nulfree (inet_ntop6_fmt src word5 best i words) = true.
Proof.
  intros Hsrc Hw; induction Hw as [|w words Hw0 Hw IH]; intros i; simpl;
    [reflexivity |].
  destruct (in_run best i).
  - rewrite nulfree_append, IH.
    destruct (i =? base best); reflexivity.
  - rewrite nulfree_append.
    assert (Hc : nulfree (if i =? 0 then EmptyString else colon) = true)
      by (destruct (i =? 0); reflexivity).
    rewrite Hc; simpl.
    destruct (encapsulated_ipv4 word5 best i).
    + apply inet_ntop4_free, (Forall_firstn_skipn byte 12 src Hsrc).
    + rewrite nulfree_append, IH.
      now rewrite (proj2 (hex_word w Hw0)).
Qed.

(** Without a dotted-quad tail every group takes at most a colon and four
    digits. *)
Lemma inet_ntop6_fmt_length_plain (src : list Z) (word5 : Z) (best : run)
    (words : list Z) :
  (forall i, encapsulated_ipv4 word5 best i = false) -> Forall word words ->
  forall i,
    (String.length (inet_ntop6_fmt src word5 best i words)
     <= 5 * List.length words)%nat.
Proof.
  intros Hplain Hw; induction Hw as [|w words Hw0 Hw IH]; intros i;
    cbn [inet_ntop6_fmt List.length]; [simpl; lia |].
  specialize (IH (i + 1)).
  destruct (in_run best i).
  - rewrite length_append.
    destruct (i =? base best); simpl String.length; lia.
  - rewrite Hplain, !length_append.
    pose proof (proj1 (hex_word w Hw0)).
    destruct (i =? 0); simpl String.length; lia.
Qed.

(** With a dotted-quad tail the text is [::a.b.c.d] or [::ffff:a.b.c.d]. *)
Lemma inet_ntop6_fmt_length_enc (src : list Z) (word5 : Z) (best : run)
    (w0 w1 w2 w3 w4 w5 w6 w7 : Z) :
  Forall byte src -> word w5 -> encapsulated_ipv4 word5 best 6 = true ->
  (String.length
     (inet_ntop6_fmt src word5 best 0 [w0; w1; w2; w3; w4; w5; w6; w7])
   <= 22)%nat.
Proof.
  intros Hsrc Hw5 Henc.
  pose proof (proj1 (inet_ntop4_free (skipn 12 src)
                       (proj2 (Forall_firstn_skipn byte 12 src Hsrc)))) as H4.
  pose proof (proj1 (hex_word w5 Hw5)) as Hx.
  cbn [inet_ntop6_fmt].
  generalize dependent (inet_ntop4 (skipn 12 src)); intros tail H4.
  generalize dependent (hex w5); intros x5 Hx.
  destruct best as [b l]; unfold encapsulated_ipv4 in Henc; simpl in Henc.
  apply andb_true_iff in Henc as [Hb Hl]; apply Z.eqb_eq in Hb; subst b.
  apply orb_true_iff in Hl as [Hl | Hl].
  - apply Z.eqb_eq in Hl; subst l.
    unfold in_run, encapsulated_ipv4; simpl.
    lia.
  - apply andb_true_iff in Hl as [Hl H65535]; apply Z.eqb_eq in Hl; subst l.
    unfold in_run, encapsulated_ipv4; simpl.
    rewrite H65535; simpl.
    rewrite !length_append; simpl String.length; lia.
Qed.

Lemma words_of_length_8 (src : list Z) :
  List.length src = 16%nat -> List.length (words_of src) = 8%nat.
Proof.
  intros H; explode_list src 16; reflexivity.
Qed.

(** The text of sixteen bytes fits the buffer of INET6_ADDRSTRLEN
    characters with its NUL, and holds no NUL itself. *)
Lemma inet_ntop6_text (src : list Z) :
  List.length src = 16%nat -> Forall byte src ->
  (String.length (inet_ntop6 src) <= 45)%nat /\
  nulfree (inet_ntop6 src) = true.
Proof.
  intros Hlen Hsrc; unfold inet_ntop6.
  pose proof (words_of_word src Hsrc) as Hw.
  pose proof (words_of_length_8 src Hlen) as H8.
  set (words := words_of src) in *.
  set (best := best_run words 0 _ _).
  set (word5 := nth 5 words 0).
  match goal with
  | |- context [String.append _ ?t] => set (trailer := t)
  end.
  rewrite length_append, nulfree_append.
  rewrite inet_ntop6_fmt_nulfree by assumption.
  assert (Htail : (String.length trailer <= 1)%nat /\ nulfree trailer = true).
  { subst trailer.
    destruct (negb (base best =? -1) && (base best + len best =? 8));
      split; simpl; try reflexivity; lia. }
  destruct Htail as [Ht1 Ht2]; rewrite Ht2; split; [| reflexivity].
  destruct (encapsulated_ipv4 word5 best 6) eqn:Eenc.
  - destruct words as [|w0 [|w1 [|w2 [|w3 [|w4 [|w5 [|w6 [|w7 [|w8 ws]]]]]]]]];
      try discriminate.
    assert (Hw5 : word w5).
    { rewrite Forall_forall in Hw; apply Hw; simpl; tauto. }
    pose proof (inet_ntop6_fmt_length_enc src word5 best w0 w1 w2 w3 w4 w5 w6 w7
                  Hsrc Hw5 Eenc).
    lia.
  - assert (Hplain : forall i, encapsulated_ipv4 word5 best i = false).
    { intros i; unfold encapsulated_ipv4 in *.
      destruct (i =? 6) eqn:Ei; [| reflexivity].
      apply Z.eqb_eq in Ei; subst i; exact Eenc. }
    pose proof (inet_ntop6_fmt_length_plain src word5 best words Hplain Hw 0).
    lia.
Qed.

(** ** Byte order *)

Lemma ntoh_hton_stored (p : Z) :
  uint16 p ->
  ntoh (hton p mod 256 + 256 * ((hton p / 256) mod 256)) = p.
Proof.
  unfold uint16, ntoh, hton; intros Hp.
  Z.to_euclidean_division_equations; lia.
Qed.

(** *** The text of an address is never empty *)

Lemma inet_ntop4_nonempty (src : list Z) :
  (1 <= String.length (inet_ntop4 src))%nat.
Proof.
  unfold inet_ntop4; rewrite length_append.
  pose proof (utoa_nonempty 10 (nth 0 src 0)); unfold dec; lia.
Qed.

(** The run that [best_run] returns starts at a group index, or is the
    "none" run. *)
Lemma best_run_base (words : list Z) :
  forall (i : Z) (best cur : run),
    0 <= i ->
    base best = -1 \/ 0 <= base best ->
    base cur = -1 \/ 0 <= base cur ->
    base (best_run words i best cur) = -1 \/
    0 <= base (best_run words i best cur).
Proof.
  induction words as [|w words IH]; intros i best cur Hi Hbest Hcur;
    cbn [best_run].
  - assert (Hl : base (longer best cur) = -1 \/ 0 <= base (longer best cur))
      by (unfold longer; destruct ((base best =? -1) || (len best <? len cur));
          assumption).
    destruct (base cur =? -1);
      match goal with
      | |- context [if ?c then _ else _] => destruct c; simpl; auto
      end.
  - destruct (w =? 0), (base cur =? -1); apply IH; simpl; auto; try lia.
    + unfold longer; destruct ((base best =? -1) || (len best <? len cur));
        assumption.
Qed.

Lemma inet_ntop6_nonempty (src : list Z) :
  List.length src = 16%nat -> (1 <= String.length (inet_ntop6 src))%nat.
Proof.
  intros Hlen; pose proof (words_of_length_8 src Hlen) as H8.
  unfold inet_ntop6.
  set (words := words_of src) in *.
  set (best := best_run words 0 _ _).
  assert (Hbase : base best = -1 \/ 0 <= base best)
    by (apply best_run_base; simpl; auto; lia).
  destruct words as [|w words]; [discriminate |].
  rewrite length_append; cbn [inet_ntop6_fmt].
  destruct (in_run best 0) eqn:Ein.
  - unfold in_run in Ein.
    apply andb_true_iff in Ein as [Ein _].
    apply andb_true_iff in Ein as [Hne Hle].
    apply negb_true_iff, Z.eqb_neq in Hne; apply Z.leb_le in Hle.
    assert (E0 : (0 =? base best) = true) by (apply Z.eqb_eq; lia).
    rewrite E0, length_append; simpl; lia.
  - unfold encapsulated_ipv4; simpl.
    rewrite length_append.
    pose proof (utoa_nonempty 16 w); unfold hex; lia.
Qed.

(** ** The text of [inet_ntop6] is read back by [inet_pton6] *)

Lemma inet_pton6_loop_feed (s : string) :
  forall (rest : string) (tmp : list Z) (colonp : option nat)
         (curtok : string) (seen seen' : nat) (val val' : Z),
    feed s seen val = Some (seen', val') ->
    inet_pton6_loop (String.append s rest) tmp colonp curtok seen val
    = inet_pton6_loop rest tmp colonp curtok seen' val'.
Proof.
  induction s as [|ch s IH]; intros rest tmp colonp curtok seen seen' val val' H.
  - injection H as <- <-; reflexivity.
  - cbn [feed] in H; cbn [String.append inet_pton6_loop].
    destruct (0 <=? hex_digit_value ch); [| discriminate].
    destruct (seen =? 4)%nat; [discriminate |].
    destruct (65535 <? Z.lor (Z.shiftl val 4) (hex_digit_value ch));
      [discriminate | now apply IH].
Qed.

(** A digit put below a value by shift and or. *)
Lemma lor_shiftl_digit (v d : Z) :
  0 <= v -> 0 <= d < 16 -> Z.lor (Z.shiftl v 4) d = v * 16 + d.
Proof.
  intros Hv Hd.
  assert (Hland : Z.land (Z.shiftl v 4) d = 0).
  { apply Z.bits_inj'; intros i Hi.
    rewrite Z.land_spec, Z.bits_0, Z.shiftl_spec by exact Hi.
    destruct (Z.lt_ge_cases i 4) as [Hlt | Hge].
    - rewrite Z.testbit_neg_r by lia; reflexivity.
    - rewrite (Z.bits_above_log2 d i), andb_false_r; [reflexivity | lia |].
      destruct (Z.eq_dec d 0) as [-> | Hne]; [simpl; lia |].
      apply Z.lt_le_trans with 4; [| exact Hge].
      apply Z.log2_lt_pow2; [lia | change (2 ^ 4) with 16; lia]. }
  pose proof (Z.add_lor_land (Z.shiftl v 4) d) as H.
  rewrite Hland in H; rewrite (Z.shiftl_mul_pow2 v 4) in * by lia.
  change (2 ^ 4) with 16 in *; lia.
Qed.

(** The loop of [inet_pton6] on the digits that [utoa] prints in base
    16: [k] digits, one at least and no leading zero, that denote [n]. *)
Lemma feed_utoa_aux (fuel : nat) :
  forall (n : Z) (acc : string),
    0 <= n -> Z.log2 n < Z.of_nat fuel ->
    exists k : nat,
      (k = 1%nat \/ 16 ^ (Z.of_nat k - 1) <= n) /\
      (1 <= k)%nat /\
      forall (seen : nat) (val : Z),
        0 <= val -> (seen + k <= 4)%nat ->
        val * 16 ^ Z.of_nat k + n <= 65535 ->
        feed (utoa_aux fuel 16 n acc) seen val
        = feed acc (seen + k) (val * 16 ^ Z.of_nat k + n).
Proof.
  induction fuel as [|fuel IH]; intros n acc Hn Hlog.
  - pose proof (Z.log2_nonneg n); lia.
  - cbn [utoa_aux].
    assert (Hd : 0 <= n mod 16 < 16) by (apply Z.mod_pos_bound; lia).
    pose proof (Z.div_mod n 16 ltac:(lia)) as Hdm.
    assert (Hq : 0 <= n / 16) by (apply Z.div_pos; lia).
    destruct (n / 16 =? 0) eqn:E.
    + apply Z.eqb_eq in E; exists 1%nat.
      split; [now left | split; [lia |]].
      intros seen val Hval Hseen Hmax.
      change (16 ^ Z.of_nat 1) with 16 in *.
      cbn [feed]; rewrite (hex_digit_value_digit_char _ Hd).
      rewrite lor_shiftl_digit by assumption.
      destruct (Z.leb_spec 0 (n mod 16)) as [_ | ?]; [| lia].
      destruct (Nat.eqb_spec seen 4) as [? | _]; [lia |].
      destruct (Z.ltb_spec 65535 (val * 16 + n mod 16)) as [? | _]; [lia |].
      f_equal; lia.
    + apply Z.eqb_neq in E.
      assert (Hlogq : Z.log2 (n / 16) < Z.of_nat fuel).
      { assert (Hhalf : n / 16 <= n / 2)
          by (apply Z.div_le_compat_l; lia).
        assert (Hpos : 0 < n / 2) by lia.
        apply Z.le_lt_trans with (Z.log2 (n / 2));
          [apply Z.log2_le_mono; exact Hhalf |].
        change 2 with (2 ^ 1); rewrite <- Z.shiftr_div_pow2 by lia.
        rewrite Z.log2_shiftr by lia.
        assert (H1 : Z.log2 2 <= Z.log2 n) by (apply Z.log2_le_mono; lia).
        change (Z.log2 2) with 1 in H1; lia. }
      destruct (IH (n / 16) (String (digit_char (n mod 16)) acc) Hq Hlogq)
        as (k & Hlow & Hk & IHk).
      assert (Hpow : 16 ^ Z.of_nat (S k) = 16 ^ Z.of_nat k * 16)
        by (rewrite Nat2Z.inj_succ, Z.pow_succ_r by lia; lia).
      assert (Hlow' : 16 ^ (Z.of_nat k - 1) <= n / 16).
      { destruct Hlow as [-> | Hlow]; [simpl; lia | exact Hlow]. }
      assert (Hpow' : 16 ^ Z.of_nat k = 16 ^ (Z.of_nat k - 1) * 16).
      { replace (Z.of_nat k) with (Z.succ (Z.of_nat k - 1)) at 1 by lia.
        rewrite Z.pow_succ_r by lia; lia. }
      exists (S k); split; [right | split; [lia |]].
      * replace (Z.of_nat (S k) - 1) with (Z.of_nat k) by lia; lia.
      * intros seen val Hval Hseen Hmax.
        assert (Hp : 0 < 16 ^ Z.of_nat k) by (apply Z.pow_pos_nonneg; lia).
        rewrite Hpow in *.
        set (p := 16 ^ Z.of_nat k) in *.
        assert (Hvp : 0 <= val * p) by (apply Z.mul_nonneg_nonneg; lia).
        rewrite IHk by lia.
        cbn [feed]; rewrite (hex_digit_value_digit_char _ Hd).
        rewrite lor_shiftl_digit by (assumption || lia).
        destruct (Z.leb_spec 0 (n mod 16)) as [_ | ?]; [| lia].
        destruct (Nat.eqb_spec (seen + k) 4) as [? | _]; [lia |].
        destruct (Z.ltb_spec 65535 ((val * p + n / 16) * 16 + n mod 16))
          as [? | _]; [lia |].
        f_equal; lia.
Qed.

(** The digits of a group are read as the group. *)
Lemma feed_hex (w : Z) :
  word w -> exists k, feed (hex w) 0 0 = Some (S k, w).
Proof.
  unfold word; intros Hw.
  destruct (feed_utoa_aux (S (Z.to_nat (Z.log2 w))) w EmptyString)
    as (k & Hlow & Hk & Hfeed); [lia | pose proof (Z.log2_nonneg w); lia |].
  assert (Hk4 : (k <= 4)%nat).
  { destruct Hlow as [-> | Hlow]; [lia |].
    destruct (Nat.le_gt_cases k 4) as [? | Hgt]; [assumption | exfalso].
    assert (16 ^ 4 <= 16 ^ (Z.of_nat k - 1))
      by (apply Z.pow_le_mono_r; lia).
    change (16 ^ 4) with 65536 in *; lia. }
  destruct k as [|k]; [lia |]; exists k.
  unfold hex, utoa; rewrite Hfeed by (simpl; lia).
  reflexivity.
Qed.

(** The digits of a decimal octet are hexadecimal digits too. *)
Lemma feed_dec (a : Z) :
  byte a -> exists k v, feed (dec a) 0 0 = Some (k, v).
Proof.
  intros Ha.
  pose (P := fun a => match feed (dec a) 0 0 with
                      | Some _ => true
                      | None => false
                      end).
  assert (H : P a = true)
    by (apply (zrange_forallb P 256 0); [vm_compute; reflexivity | exact Ha]).
  unfold P in H.
  destruct (feed (dec a) 0 0) as [[k v]|]; [eauto | discriminate].
Qed.

Lemma group_bytes_word (hi lo : Z) :
  byte hi -> byte lo -> group_bytes (Z.lor (Z.shiftl hi 8) lo) = [hi; lo].
Proof.
  intros Hhi Hlo.
  pose (P := fun hi => forallb (fun lo =>
               bytes_eqb (group_bytes (Z.lor (Z.shiftl hi 8) lo)) [hi; lo])
               (zrange 256 0)).
  assert (H : P hi = true)
    by (apply (zrange_forallb P 256 0); [vm_compute; reflexivity | exact Hhi]).
  unfold P in H; rewrite forallb_forall in H.
  specialize (H lo (proj2 (zrange_In 256 0 lo) Hlo)).
  unfold bytes_eqb, group_bytes in *; cbn [List.length combine forallb fst snd] in H.
  rewrite Nat.eqb_refl in H; cbn [andb] in H.
  apply andb_true_iff in H as [H1 H2].
  apply andb_true_iff in H2 as [H2 _].
  apply Z.eqb_eq in H1, H2; now rewrite H1, H2.
Qed.

Lemma hex_head (w : Z) :
  exists c s, hex w = String c s /\ (code c =? 58) = false.
Proof.
  pose proof (utoa_nonempty 16 w) as Hlen.
  destruct (utoa_free 16 ltac:(lia) w) as [_ Hfree].
  unfold hex; destruct (utoa 16 w) as [|c s]; [simpl in Hlen; lia |].
  exists c, s; split; [reflexivity |].
  simpl in Hfree; apply andb_true_iff in Hfree as [Hc _].
  now apply negb_true_iff.
Qed.

(** A text that starts with a group has no leading colon to skip. *)
Lemma inet_pton6_group_first (w : Z) (rest : string) :
  inet_pton6 (String.append (hex w) rest)
  = inet_pton6_loop (String.append (hex w) rest) [] None
      (String.append (hex w) rest) 0 0.
Proof.
  destruct (hex_head w) as (c & s & -> & Hc).
  unfold inet_pton6; cbn [String.append]; now rewrite Hc.
Qed.

(** A group and the colon after it: the group is stored. *)
Lemma inet_pton6_loop_group_colon (w : Z) (rest : string)
    (tmp : list Z) (colonp : option nat) (curtok : string) :
  word w -> (List.length tmp + 2 <= 16)%nat ->
  (1 <= String.length rest)%nat ->
  inet_pton6_loop (String.append (hex w) (String (chr 58) rest))
    tmp colonp curtok 0 0
  = inet_pton6_loop rest (tmp ++ group_bytes w) colonp rest 0 0.
Proof.
  intros Hw Hlen Hrest; destruct (feed_hex w Hw) as (k & Hfeed).
  rewrite (inet_pton6_loop_feed _ _ _ _ _ _ _ _ _ Hfeed).
  destruct rest as [|ch rest]; [simpl in Hrest; lia |].
  cbn [inet_pton6_loop].
  change (0 <=? hex_digit_value (chr 58)) with false.
  change (code (chr 58) =? 58) with true.
  cbv beta iota.
  change (S k =? 0)%nat with false; cbv iota.
  destruct (Nat.ltb_spec 16 (List.length tmp + 2)) as [H | H]; [lia |].
  reflexivity.
Qed.

(** The last group of the text. *)
Lemma inet_pton6_loop_group_end (w : Z) (tmp : list Z) (colonp : option nat)
    (curtok : string) :
  word w ->
  inet_pton6_loop (hex w) tmp colonp curtok 0 0
  = inet_pton6_finish tmp colonp 1 w.
Proof.
  intros Hw; destruct (feed_hex w Hw) as (k & Hfeed).
  rewrite <- (append_nil_r (hex w)).
  rewrite (inet_pton6_loop_feed _ _ _ _ _ _ _ _ _ Hfeed).
  reflexivity.
Qed.

(** The second colon of a double colon. *)
Lemma inet_pton6_loop_double_colon (rest : string) (tmp : list Z)
    (curtok : string) (val : Z) :
  inet_pton6_loop (String (chr 58) rest) tmp None curtok 0 val
  = inet_pton6_loop rest tmp (Some (List.length tmp)) rest 0 val.
Proof. reflexivity. Qed.

(** A dotted quad where a group may start ends the text. *)
Lemma inet_pton6_loop_dotted (a b c d : Z) (tmp : list Z)
    (colonp : option nat) (curtok : string) :
  byte a -> (List.length tmp + 4 <= 16)%nat ->
  inet_pton4 curtok = Some [a; b; c; d] ->
  inet_pton6_loop (inet_ntop4 [a; b; c; d]) tmp colonp curtok 0 0
  = inet_pton6_finish (tmp ++ [a; b; c; d]) colonp 0 0.
Proof.
  intros Ha Hlen Hquad.
  destruct (feed_dec a Ha) as (k & v & Hfeed).
  unfold inet_ntop4; cbn [nth].
  rewrite (inet_pton6_loop_feed _ _ _ _ _ _ _ _ _ Hfeed).
  cbn [String.append dot inet_pton6_loop].
  change (0 <=? hex_digit_value (chr 46)) with false.
  change (code (chr 46) =? 58) with false.
  change (code (chr 46) =? 46) with true.
  cbv beta iota; cbn [andb].
  destruct (Nat.leb_spec (List.length tmp + 4) 16) as [H | H]; [| lia].
  now rewrite Hquad.
Qed.

Lemma inet_pton6_loop_quad (a b c d : Z) (tmp : list Z) (colonp : option nat) :
  byte a -> byte b -> byte c -> byte d ->
  (List.length tmp + 4 <= 16)%nat ->
  inet_pton6_loop (inet_ntop4 [a; b; c; d]) tmp colonp
    (inet_ntop4 [a; b; c; d]) 0 0
  = inet_pton6_finish (tmp ++ [a; b; c; d]) colonp 0 0.
Proof.
  intros Ha Hb Hc Hd Hlen.
  apply inet_pton6_loop_dotted; auto using inet_pton4_complete.
Qed.

(** The run that [best_run] picks is a run of zero groups, two or more. *)
Lemma zero_run_mono (words : list Z) (i i' : Z) (r : run) :
  i <= i' -> zero_run words i r -> zero_run words i' r.
Proof. intros Hi [H | (H1 & H2 & H3 & H4)]; [now left | right]; repeat split; auto; lia. Qed.

Lemma zero_run_longer (words : list Z) (i : Z) (best cur : run) :
  zero_run words i best -> zero_run words i cur ->
  zero_run words i (longer best cur).
Proof. intros Hb Hc; unfold longer; now destruct (_ || _). Qed.

Lemma best_run_zero_run (rest : list Z) :
  forall (pre : list Z) (best cur : run),
    zero_run (pre ++ rest) (Z.of_nat (List.length pre)) best ->
    zero_run (pre ++ rest) (Z.of_nat (List.length pre)) cur ->
    (base cur = -1 \/ base cur + len cur = Z.of_nat (List.length pre)) ->
    let r := best_run rest (Z.of_nat (List.length pre)) best cur in
    zero_run (pre ++ rest) (Z.of_nat (List.length (pre ++ rest))) r /\
    (base r = -1 \/ 2 <= len r).
Proof.
  induction rest as [|w rest IH]; intros pre best cur Hb Hc Hcur.
  - cbn [best_run]; rewrite app_nil_r in *.
    set (b := if base cur =? -1 then best else longer best cur).
    assert (Hbz : zero_run pre (Z.of_nat (List.length pre)) b).
    { unfold b; destruct (base cur =? -1); auto using zero_run_longer. }
    destruct (Z.eqb_spec (base b) (-1)) as [E | E]; cbn [negb andb].
    + split; [assumption | now left].
    + destruct (Z.ltb_spec (len b) 2) as [L | L].
      * split; left; reflexivity.
      * split; [assumption | now right].
  - assert (Hpre : pre ++ w :: rest = (pre ++ [w]) ++ rest)
      by (now rewrite <- app_assoc).
    assert (Hi : Z.of_nat (List.length pre) + 1
                 = Z.of_nat (List.length (pre ++ [w])))
      by (rewrite length_app; simpl; lia).
    assert (Hnth : nth (List.length pre) (pre ++ w :: rest) 0 = w)
      by (rewrite app_nth2, Nat.sub_diag; [reflexivity | lia]).
    cbn [best_run]; rewrite Hi, Hpre in *.
    assert (Hb' : zero_run ((pre ++ [w]) ++ rest)
                    (Z.of_nat (List.length (pre ++ [w]))) best)
      by (apply (zero_run_mono _ (Z.of_nat (List.length pre))); [lia | easy]).
    assert (Hc' : zero_run ((pre ++ [w]) ++ rest)
                    (Z.of_nat (List.length (pre ++ [w]))) cur)
      by (apply (zero_run_mono _ (Z.of_nat (List.length pre))); [lia | easy]).
    destruct (Z.eqb_spec w 0) as [W | W];
      destruct (Z.eqb_spec (base cur) (-1)) as [C | C].
    + apply IH; [assumption | | right; cbn [base len]; lia].
      right; cbn [base len]; repeat split; try lia.
      intros j Hj; replace j with (Z.of_nat (List.length pre)) by lia.
      rewrite Nat2Z.id, Hnth; exact W.
    + destruct Hcur as [? | Hcur]; [contradiction |].
      destruct Hc as [? | (H1 & H2 & H3 & H4)]; [contradiction |].
      apply IH; [assumption | | right; cbn [base len]; lia].
      right; cbn [base len]; repeat split; try lia.
      intros j Hj.
      destruct (Z.eq_dec j (Z.of_nat (List.length pre))) as [-> | Hne].
      * rewrite Nat2Z.id, Hnth; exact W.
      * apply H4; lia.
    + apply IH; [assumption | assumption | now left].
    + apply IH; [now apply zero_run_longer | now left | now left].
Qed.

Lemma pair_of_bytes (hi lo : Z) :
  byte hi -> byte lo -> pair_of (Z.lor (Z.shiftl hi 8) lo) hi lo.
Proof.
  intros Hhi Hlo; pose proof (group_bytes_word hi lo Hhi Hlo) as Hg.
  split; [now apply lor_shiftl_word | split; [assumption |]].
  intros Hz; rewrite Hz in Hg; injection Hg; auto.
Qed.

Lemma hex_nonempty (w : Z) : (1 <= String.length (hex w))%nat.
Proof. apply utoa_nonempty. Qed.

Lemma append_nonempty (a b : string) :
  (1 <= String.length a)%nat -> (1 <= String.length (String.append a b))%nat.
Proof. rewrite length_append; lia. Qed.

(** The last group of the text, stored. *)
Lemma inet_pton6_group_last (w : Z) (tmp : list Z) (colonp : option nat)
    (curtok : string) :
  word w -> (List.length tmp + 2 <= 16)%nat ->
  inet_pton6_loop (hex w) tmp colonp curtok 0 0
  = inet_pton6_finish (tmp ++ group_bytes w) colonp 0 0.
Proof.
  intros Hw Hlen; rewrite inet_pton6_loop_group_end by assumption.
  unfold inet_pton6_finish.
  change (0 <? 1)%nat with true; change (0 <? 0)%nat with false.
  cbv beta iota zeta.
  destruct (Nat.ltb_spec 16 (List.length tmp + 2)) as [H | H]; [lia |].
  reflexivity.
Qed.

Lemma inet_pton6_double_colon_first (rest : string) :
  inet_pton6 (String (chr 58) (String (chr 58) rest))
  = inet_pton6_loop rest [] (Some 0%nat) rest 0 0.
Proof. reflexivity. Qed.

Opaque hex inet_ntop4.

(** Side condition: the rest of the text is not empty. *)
Ltac text_nonempty :=
  first [ apply inet_ntop4_nonempty
        | apply hex_nonempty
        | apply append_nonempty, hex_nonempty
        | cbn [String.length]; clear; lia ].

(** Nest the appends of a text to the right. *)
Ltac text_normal :=
  repeat (first [rewrite append_nil_r | rewrite append_assoc];
          cbn [String.append]).

(** One step of [inet_pton6] on a text made of groups, colons and a
    dotted quad. *)
Ltac read_text :=
  first
    [ rewrite inet_pton6_group_first
    | rewrite inet_pton6_double_colon_first
    | rewrite inet_pton6_loop_double_colon
    | rewrite inet_pton6_loop_group_colon
        by first [assumption | simpl; clear; lia | text_nonempty]
    | rewrite inet_pton6_loop_quad by first [assumption | simpl; clear; lia]
    | rewrite inet_pton6_group_last by first [assumption | simpl; clear; lia] ].

(** The bytes of the groups that [Hz] puts in the run are zero. *)
Ltac zero_groups Hz Z0 Z1 Z2 Z3 Z4 Z5 Z6 Z7 :=
  try (destruct (Z0 (Hz 0 ltac:(clear; lia))) as [-> ->]);
  try (destruct (Z1 (Hz 1 ltac:(clear; lia))) as [-> ->]);
  try (destruct (Z2 (Hz 2 ltac:(clear; lia))) as [-> ->]);
  try (destruct (Z3 (Hz 3 ltac:(clear; lia))) as [-> ->]);
  try (destruct (Z4 (Hz 4 ltac:(clear; lia))) as [-> ->]);
  try (destruct (Z5 (Hz 5 ltac:(clear; lia))) as [-> ->]);
  try (destruct (Z6 (Hz 6 ltac:(clear; lia))) as [-> ->]);
  try (destruct (Z7 (Hz 7 ltac:(clear; lia))) as [-> ->]).

(** The text printed for eight groups and any run of zero groups among
    them is read back as the sixteen bytes. *)
Lemma text_reads_back (b0 b1 b2 b3 b4 b5 b6 b7 b8 b9 b10 b11 b12 b13 b14 b15 : Z)
    (w0 w1 w2 w3 w4 w5 w6 w7 : Z) (best : run) :
  pair_of w0 b0 b1 -> pair_of w1 b2 b3 -> pair_of w2 b4 b5 ->
  pair_of w3 b6 b7 -> pair_of w4 b8 b9 -> pair_of w5 b10 b11 ->
  pair_of w6 b12 b13 -> pair_of w7 b14 b15 ->
  byte b12 -> byte b13 -> byte b14 -> byte b15 ->
  zero_run [w0; w1; w2; w3; w4; w5; w6; w7] 8 best ->
  base best = -1 \/ 2 <= len best ->
  inet_pton6
    (String.append
       (inet_ntop6_fmt [b0; b1; b2; b3; b4; b5; b6; b7;
                        b8; b9; b10; b11; b12; b13; b14; b15]
          w5 best 0 [w0; w1; w2; w3; w4; w5; w6; w7])
       (if negb (base best =? -1) && (base best + len best =? 8)
        then colon else EmptyString))
  = Some [b0; b1; b2; b3; b4; b5; b6; b7;
          b8; b9; b10; b11; b12; b13; b14; b15].
Proof.
  intros (W0 & G0 & Z0) (W1 & G1 & Z1) (W2 & G2 & Z2) (W3 & G3 & Z3)
         (W4 & G4 & Z4) (W5 & G5 & Z5) (W6 & G6 & Z6) (W7 & G7 & Z7)
         B12 B13 B14 B15 Hrun Hlen.
  destruct best as [B L]; unfold zero_run in Hrun; cbn [base len] in *.
  assert (Hcase : B = -1 \/
            (0 <= B /\ 2 <= L /\ B + L <= 8 /\
             forall j, B <= j < B + L ->
                       nth (Z.to_nat j) [w0; w1; w2; w3; w4; w5; w6; w7] 0 = 0)).
  { destruct Hrun as [-> | (H1 & H2 & H3 & H4)]; [now left |].
    destruct Hlen as [-> | Hlen]; [now left | right; auto]. }
  clear Hrun Hlen; destruct Hcase as [-> | (HB & HL & HBL & Hz)].
  - cbn. text_normal.
    repeat first
      [ read_text
      | progress (rewrite ?G0, ?G1, ?G2, ?G3, ?G4, ?G5, ?G6, ?G7;
                  cbn [app List.length]) ].
    reflexivity.
  - assert (HB' : B = 0 \/ B = 1 \/ B = 2 \/ B = 3 \/ B = 4 \/ B = 5 \/ B = 6)
      by (clear - HB HL HBL; lia).
    assert (HL' : L = 2 \/ L = 3 \/ L = 4 \/ L = 5 \/ L = 6 \/ L = 7 \/ L = 8)
      by (clear - HB HL HBL; lia).
    destruct HB' as [-> | [-> | [-> | [-> | [-> | [-> | ->]]]]]];
      destruct HL' as [-> | [-> | [-> | [-> | [-> | [-> | ->]]]]]];
      try (exfalso; clear - HBL; lia);
      zero_groups Hz Z0 Z1 Z2 Z3 Z4 Z5 Z6 Z7;
      clear Hz Z0 Z1 Z2 Z3 Z4 Z5 Z6 Z7;
      cbn;
      match goal with
      | |- context [w5 =? 65535] => destruct (w5 =? 65535)
      | _ => idtac
      end;
      text_normal;
      repeat first
        [ read_text
        | progress (rewrite ?G0, ?G1, ?G2, ?G3, ?G4, ?G5, ?G6, ?G7;
                    cbn [app List.length]) ];
      reflexivity.
Qed.

Transparent hex inet_ntop4.

(** [inet_pton6] reads the text of [inet_ntop6] back as the same sixteen
    bytes. *)
Theorem inet_pton6_inet_ntop6 (src : list Z) :
  List.length src = 16%nat -> Forall byte src ->
  inet_pton6 (inet_ntop6 src) = Some src.
Proof.
  intros Hlen Hsrc; explode_list src 16.
  repeat match goal with
         | H : Forall _ (_ :: _) |- _ => inversion H; subst; clear H
         end.
  unfold inet_ntop6; cbn [words_of nth].
  match goal with
  | |- context [best_run ?ws 0 ?b ?c] =>
      pose proof (best_run_zero_run ws [] b c (or_introl eq_refl)
                    (or_introl eq_refl) (or_introl eq_refl)) as [Hr Hl]
  end.
  apply text_reads_back; auto using pair_of_bytes.
Qed.

(** ** The operations of socketaddr *)

Lemma is_literal (family : Z) (text : string) (e : Z) :
  family = AF_INET \/ family = AF_INET6 ->
  is_ family text e
  = (match literal family text with Some _ => true | None => false end, e).
Proof.
  intros [-> | ->]; unfold is_, inet_pton, literal, bind, ret; simpl.
  - destruct (inet_pton4 (c_str text)); reflexivity.
  - destruct (inet_pton6 (c_str text)); reflexivity.
Qed.

(** The storage after a successful [set] of an IPv4 literal: family,
    port in network order, address, zeros. *)
Lemma set_ipv4 (this : socketaddr) (text : string) (port e : Z) (b : list Z) :
  literal AF_INET text = Some b ->
  set this text port e
  = ((0, {| sa := [2; 0; hton port mod 256; (hton port / 256) mod 256]
                   ++ b ++ repeat 0 120 |}), e).
Proof.
  intros H; unfold set, bind at 1.
  rewrite is_literal, H by now left.
  unfold literal in H; simpl in H.
  destruct (inet_pton4_sound _ _ H) as (Hl & _ & _).
  explode_list b 4.
  unfold bind, ret, set_addr, set_port, inet_pton; simpl.
  rewrite H; simpl.
  reflexivity.
Qed.

Lemma literal_exclusive (text : string) (b : list Z) :
  literal AF_INET text = Some b -> literal AF_INET6 text = None.
Proof. unfold literal; simpl; apply inet_pton4_not_pton6. Qed.

(** The same for an IPv6 literal; [sin6_flowinfo] and [sin6_scope_id]
    stay zero. *)
Lemma set_ipv6 (this : socketaddr) (text : string) (port e : Z) (b : list Z) :
  literal AF_INET6 text = Some b ->
  set this text port e
  = ((0, {| sa := [10; 0; hton port mod 256; (hton port / 256) mod 256;
                   0; 0; 0; 0] ++ b ++ repeat 0 104 |}), e).
Proof.
  intros H; unfold set, bind at 1.
  assert (H4 : literal AF_INET text = None).
  { destruct (literal AF_INET text) as [b4|] eqn:E4; [| reflexivity].
    apply literal_exclusive in E4; congruence. }
  rewrite is_literal, H4 by now left.
  unfold bind; cbv beta iota zeta.
  rewrite is_literal, H by now right.
  unfold literal in H; simpl in H.
  destruct (inet_pton6_sound _ _ H) as (Hl & _).
  explode_list b 16.
  unfold bind, ret, set_addr, set_port, inet_pton; simpl.
  rewrite H; simpl.
  reflexivity.
Qed.

(** Text that is a literal of neither family: [set] stops before it
    touches the object. *)
Lemma set_neither (this : socketaddr) (text : string) (port e : Z) :
  literal AF_INET text = None -> literal AF_INET6 text = None ->
  set this text port e = ((EAFNOSUPPORT, this), EAFNOSUPPORT).
Proof.
  intros H4 H6; unfold set, bind at 1.
  rewrite is_literal, H4 by now left.
  unfold bind; cbv beta iota zeta.
  rewrite is_literal, H6 by now right.
  reflexivity.
Qed.

Lemma wf_peek (this : socketaddr) (off n : nat) :
  wf this -> (off + n <= sizeof_sa)%nat ->
  List.length (peek (sa this) off n) = n /\ Forall byte (peek (sa this) off n).
Proof.
  intros [Hlen Hb] Hn; unfold peek; split.
  - rewrite length_firstn, length_skipn; lia.
  - apply Forall_firstn_skipn, Forall_firstn_skipn, Hb.
Qed.

(** The buffer of INET6_ADDRSTRLEN characters is never too small. *)
Lemma inet_ntop_ipv4 (src : list Z) (e : Z) :
  Forall byte src ->
  inet_ntop AF_INET src INET6_ADDRSTRLEN e = (Some (inet_ntop4 src), e).
Proof.
  intros Hb; destruct (inet_ntop4_free _ Hb) as (Hlen & _).
  unfold inet_ntop; change (AF_INET =? AF_INET) with true; cbv beta iota zeta.
  destruct (Nat.leb_spec INET6_ADDRSTRLEN (String.length (inet_ntop4 src)))
    as [Hle | Hlt]; [unfold INET6_ADDRSTRLEN in Hle; lia | reflexivity].
Qed.

Lemma inet_ntop_ipv6 (src : list Z) (e : Z) :
  List.length src = 16%nat -> Forall byte src ->
  inet_ntop AF_INET6 src INET6_ADDRSTRLEN e = (Some (inet_ntop6 src), e).
Proof.
  intros Hl Hb; destruct (inet_ntop6_text _ Hl Hb) as (Hlen & _).
  unfold inet_ntop; change (AF_INET6 =? AF_INET) with false;
    change (AF_INET6 =? AF_INET6) with true; cbv beta iota zeta.
  destruct (Nat.ltb_spec INET6_ADDRSTRLEN
              (String.length (inet_ntop6 src) + 1))
    as [Hlt | Hle]; [unfold INET6_ADDRSTRLEN in Hlt; lia | reflexivity].
Qed.

Lemma get_addr_buf_ipv4 (this : socketaddr) (buf : string) (e : Z) :
  wf this -> sa_family this = AF_INET ->
  get_addr_buf this buf e
  = ((0, inet_ntop4 (peek (sa this) off_sin_addr 4)), e).
Proof.
  intros Hwf Hfam; unfold get_addr_buf; rewrite Hfam.
  change (AF_INET =? AF_INET) with true; cbv beta iota zeta.
  destruct (wf_peek this off_sin_addr 4 Hwf) as [_ Hb];
    [unfold sizeof_sa, off_sin_addr; lia |].
  destruct (inet_ntop4_free _ Hb) as (_ & Hnul & _).
  unfold bind; rewrite (inet_ntop_ipv4 _ e Hb).
  unfold ret; now rewrite c_str_strcpy.
Qed.

Lemma get_addr_buf_ipv6 (this : socketaddr) (buf : string) (e : Z) :
  wf this -> sa_family this = AF_INET6 ->
  get_addr_buf this buf e
  = ((0, inet_ntop6 (peek (sa this) off_sin6_addr 16)), e).
Proof.
  intros Hwf Hfam; unfold get_addr_buf; rewrite Hfam.
  change (AF_INET6 =? AF_INET) with false;
    change (AF_INET6 =? AF_INET6) with true; cbv beta iota zeta.
  destruct (wf_peek this off_sin6_addr 16 Hwf) as [Hl Hb];
    [unfold sizeof_sa, off_sin6_addr; lia |].
  destruct (inet_ntop6_text _ Hl Hb) as (_ & Hnul).
  unfold bind; rewrite (inet_ntop_ipv6 _ e Hl Hb).
  unfold ret; now rewrite c_str_strcpy.
Qed.

Lemma get_addr_buf_unsupported (this : socketaddr) (buf : string) (e : Z) :
  sa_family this <> AF_INET -> sa_family this <> AF_INET6 ->
  get_addr_buf this buf e = ((EAFNOSUPPORT, buf), EAFNOSUPPORT).
Proof.
  intros H4 H6; unfold get_addr_buf.
  apply Z.eqb_neq in H4, H6; rewrite H4, H6; reflexivity.
Qed.

(** *** Every operation keeps the storage well formed *)

Lemma byte_mod_256 (x : Z) : byte (x mod 256).
Proof. unfold byte; apply Z.mod_pos_bound; lia. Qed.

#[local] Hint Resolve byte_mod_256 : bytes.

Lemma wf_set_ipv4 (p : Z) (b : list Z) :
  List.length b = 4%nat -> Forall byte b ->
  wf {| sa := [2; 0; hton p mod 256; (hton p / 256) mod 256]
              ++ b ++ repeat 0 120 |}.
Proof.
  intros Hl Hb; split; cbn [sa].
  - rewrite !length_app, repeat_length, Hl; reflexivity.
  - apply Forall_app; split; [| apply Forall_app; auto with bytes].
    repeat (constructor; [auto with bytes; unfold byte; lia |]).
    constructor.
Qed.

Lemma wf_set_ipv6 (p : Z) (b : list Z) :
  List.length b = 16%nat -> Forall byte b ->
  wf {| sa := [10; 0; hton p mod 256; (hton p / 256) mod 256; 0; 0; 0; 0]
              ++ b ++ repeat 0 104 |}.
Proof.
  intros Hl Hb; split; cbn [sa].
  - rewrite !length_app, repeat_length, Hl; reflexivity.
  - apply Forall_app; split; [| apply Forall_app; auto with bytes].
    repeat (constructor; [auto with bytes; unfold byte; lia |]).
    constructor.
Qed.

Lemma wf_poke (this : socketaddr) (off : nat) (bs : list Z) :
  wf this -> (off + List.length bs <= sizeof_sa)%nat -> Forall byte bs ->
  wf {| sa := poke (sa this) off bs |}.
Proof.
  intros [Hlen Hb] Hoff Hbs; split; cbn [sa]; unfold poke.
  - rewrite !length_app, length_firstn, length_skipn; lia.
  - destruct (Forall_firstn_skipn byte off (sa this) Hb) as [H1 _].
    destruct (Forall_firstn_skipn byte (off + List.length bs) (sa this) Hb)
      as [_ H2].
    repeat (apply Forall_app; split); assumption.
Qed.

Lemma wf_socketaddr_default : wf socketaddr_default.
Proof. split; [apply repeat_length | apply Forall_byte_repeat]. Qed.

Lemma wf_set_family (this : socketaddr) (fam : Z) : wf (set_family this fam).
Proof.
  unfold set_family, store_u16.
  apply (wf_poke socketaddr_default 0 _ wf_socketaddr_default);
    [simpl; unfold sizeof_sa; lia |].
  repeat (constructor; [unfold byte; apply Z.mod_pos_bound; lia |]).
  constructor.
Qed.

Lemma wf_set_addr (this : socketaddr) (ip : string) (e : Z) :
  wf this -> wf (snd (fst (set_addr this ip e))).
Proof.
  intros Hwf; unfold set_addr, bind, inet_pton.
  destruct (sa_family this =? AF_INET).
  - unfold ret; destruct (inet_pton4 (c_str ip)) as [b|] eqn:E;
      [| exact Hwf].
    destruct (inet_pton4_sound _ _ E) as (Hl & Hb & _).
    apply wf_poke; [exact Hwf | rewrite Hl; vm_compute; lia | exact Hb].
  - destruct (sa_family this =? AF_INET6); [| exact Hwf].
    unfold ret; destruct (inet_pton6 (c_str ip)) as [b|] eqn:E;
      [| exact Hwf].
    destruct (inet_pton6_sound _ _ E) as (Hl & Hb).
    apply wf_poke; [exact Hwf | rewrite Hl; vm_compute; lia | exact Hb].
Qed.

Lemma wf_set_port (this : socketaddr) (port e : Z) :
  wf this -> wf (snd (fst (set_port this port e))).
Proof.
  intros Hwf.
  assert (Hstore : wf {| sa := store_u16 (sa this) off_sin_port (hton port) |}).
  { apply wf_poke; [exact Hwf | vm_compute; lia |].
    repeat (constructor; [unfold byte; apply Z.mod_pos_bound; lia |]).
    constructor. }
  unfold set_port.
  destruct (sa_family this =? AF_INET); [exact Hstore |].
  destruct (sa_family this =? AF_INET6); [exact Hstore | exact Hwf].
Qed.

Lemma wf_set (this : socketaddr) (addr : string) (port e : Z) :
  wf this -> wf (snd (fst (set this addr port e))).
Proof.
  intros Hwf.
  destruct (literal AF_INET addr) as [b4|] eqn:E4.
  - rewrite (set_ipv4 this addr port e b4 E4).
    unfold literal in E4; simpl in E4.
    destruct (inet_pton4_sound _ _ E4) as (Hl & Hb & _).
    now apply wf_set_ipv4.
  - destruct (literal AF_INET6 addr) as [b6|] eqn:E6.
    + rewrite (set_ipv6 this addr port e b6 E6).
      unfold literal in E6; simpl in E6.
      destruct (inet_pton6_sound _ _ E6) as (Hl & Hb).
      now apply wf_set_ipv6.
    + rewrite (set_neither this addr port e E4 E6); exact Hwf.
Qed.

Lemma wf_set_sockaddr (this : socketaddr) (raw : list Z) :
  (sizeof_sin6 <= List.length raw)%nat -> Forall byte raw ->
  wf (set_sockaddr this raw).
Proof.
  intros Hlen Hraw; unfold set_sockaddr.
  assert (Hcopy : forall n, (n <= sizeof_sin6)%nat ->
            wf {| sa := memcpy (sa (set_family this AF_UNSPEC)) raw n |}).
  { intros n Hn; destruct (wf_set_family this AF_UNSPEC) as [Hl Hb].
    split; cbn [sa]; unfold memcpy.
    - rewrite length_app, length_firstn, length_skipn, Hl.
      unfold sizeof_sin6, sizeof_sa in *; lia.
    - apply Forall_app; split; [apply Forall_firstn_skipn, Hraw |].
      apply Forall_firstn_skipn, Hb. }
  destruct (load_u16 raw 0 =? AF_INET);
    [apply Hcopy; vm_compute; lia |].
  destruct (load_u16 raw 0 =? AF_INET6);
    [apply Hcopy; vm_compute; lia | apply wf_set_family].
Qed.

(** * The claims *)

(** ** C1: [set] of a literal, then the accessors *)

Lemma get_port_stored (A : socketaddr) (p e : Z) (fam : Z) (rest : list Z) :
  uint16 p -> fam = AF_INET \/ fam = AF_INET6 ->
  sa A = fam :: 0 :: hton p mod 256 :: (hton p / 256) mod 256 :: rest ->
  get_port A e = (p, e).
Proof.
  intros Hp Hfam HA.
  unfold get_port, get_port_ref, sa_family, load_u16, bind, ret.
  rewrite HA; cbn [nth off_sin_port].
  rewrite (ntoh_hton_stored p Hp).
  destruct Hfam as [-> | ->]; reflexivity.
Qed.

(** C1 (amended): let [L] be a string that [inet_pton] accepts as an IPv4
    literal (it reads [L.data()], so [L] up to its first NUL) and [P] a
    port.  Then [set(L, P)] returns 0 and leaves errno alone; afterwards
    the family is AF_INET, [get_addr()] is [L] up to its first NUL (so [L]
    itself when [L] holds no NUL), [get_port()] is [P] and the stream
    output is that text, a colon and [P] in decimal.  For a string
    accepted as an IPv6 literal the family is AF_INET6, [get_port()] is
    [P], and [get_addr()] is the text [inet_ntop] gives for the sixteen
    bytes [L] denotes, which need not be [L] but is an IPv6 literal of
    the same sixteen bytes; the stream output is that text in brackets, a
    colon and [P]. *)
Theorem set_literal_then_accessors
    (this : socketaddr) (L o : string) (P e : Z) (b : list Z) :
  uint16 P ->
  (literal AF_INET L = Some b ->
   exists A,
     set this L P e = ((0, A), e) /\
     get_family A = AF_INET /\
     get_addr A e = (c_str L, e) /\
     (nulfree L = true -> c_str L = L) /\
     get_port A e = (P, e) /\
     operator_shl o A e
     = (String.append o (String.append (c_str L)
          (String.append ":" (dec P))), e)) /\
  (literal AF_INET6 L = Some b ->
   exists A,
     set this L P e = ((0, A), e) /\
     get_family A = AF_INET6 /\
     get_addr A e = (inet_ntop6 b, e) /\
     literal AF_INET6 (inet_ntop6 b) = Some b /\
     get_port A e = (P, e) /\
     operator_shl o A e
     = (String.append o (String.append "[" (String.append (inet_ntop6 b)
          (String.append "]:" (dec P)))), e)).
Proof.
  intros HP; split; intros H.
  - pose proof H as H'; unfold literal in H'; simpl in H'.
    destruct (inet_pton4_sound _ _ H') as (Hl & Hb & Hrt).
    eexists; split; [apply set_ipv4; exact H |].
    pose proof (wf_set_ipv4 P b Hl Hb) as Hwf.
    set (A := {| sa := _ |}) in *.
    assert (Hfam : sa_family A = AF_INET) by reflexivity.
    assert (Hpeek : peek (sa A) off_sin_addr 4 = b).
    { explode_list b 4; reflexivity. }
    assert (Hga : get_addr A e = (c_str L, e)).
    { unfold get_addr, bind.
      rewrite (get_addr_buf_ipv4 A EmptyString e Hwf Hfam), Hpeek, Hrt.
      reflexivity. }
    assert (Hgp : get_port A e = (P, e)).
    { eapply get_port_stored; [exact HP | left; reflexivity | reflexivity]. }
    repeat split; auto using c_str_nulfree.
    unfold operator_shl, get_family; rewrite Hfam.
    change (AF_INET =? AF_INET) with true; cbv iota.
    unfold bind at 1; rewrite Hga.
    unfold bind at 1; rewrite Hgp.
    reflexivity.
  - pose proof H as H'; unfold literal in H'; simpl in H'.
    destruct (inet_pton6_sound _ _ H') as (Hl & Hb).
    eexists; split; [apply set_ipv6; exact H |].
    pose proof (wf_set_ipv6 P b Hl Hb) as Hwf.
    set (A := {| sa := _ |}) in *.
    assert (Hfam : sa_family A = AF_INET6) by reflexivity.
    assert (Hpeek : peek (sa A) off_sin6_addr 16 = b).
    { explode_list b 16; reflexivity. }
    assert (Hga : get_addr A e = (inet_ntop6 b, e)).
    { unfold get_addr, bind.
      rewrite (get_addr_buf_ipv6 A EmptyString e Hwf Hfam), Hpeek.
      reflexivity. }
    assert (Hgp : get_port A e = (P, e)).
    { eapply get_port_stored; [exact HP | right; reflexivity | reflexivity]. }
    assert (Hlit : literal AF_INET6 (inet_ntop6 b) = Some b).
    { unfold literal; simpl.
      rewrite c_str_nulfree by (now apply inet_ntop6_text).
      now apply inet_pton6_inet_ntop6. }
    repeat split; auto.
    unfold operator_shl, get_family; rewrite Hfam.
    change (AF_INET6 =? AF_INET) with false;
      change (AF_INET6 =? AF_INET6) with true; cbv iota.
    unfold bind at 1; rewrite Hga.
    unfold bind at 1; rewrite Hgp.
    reflexivity.
Qed.

Lemma set_literal_then_accessors_witness :
  (exists A,
     set socketaddr_default "127.0.0.1" 8080 0 = ((0, A), 0) /\
     get_family A = AF_INET /\
     get_addr A 0 = (c_str "127.0.0.1", 0) /\
     (nulfree "127.0.0.1" = true -> c_str "127.0.0.1" = "127.0.0.1"%string) /\
     get_port A 0 = (8080, 0) /\
     operator_shl EmptyString A 0
     = (String.append EmptyString (String.append (c_str "127.0.0.1")
          (String.append ":" (dec 8080))), 0)) /\
  (exists A,
     set socketaddr_default "::1" 443 0 = ((0, A), 0) /\
     get_family A = AF_INET6 /\
     get_addr A 0 = (inet_ntop6 [0;0;0;0;0;0;0;0;0;0;0;0;0;0;0;1], 0) /\
     literal AF_INET6 (inet_ntop6 [0;0;0;0;0;0;0;0;0;0;0;0;0;0;0;1])
     = Some [0;0;0;0;0;0;0;0;0;0;0;0;0;0;0;1] /\
     get_port A 0 = (443, 0) /\
     operator_shl EmptyString A 0
     = (String.append EmptyString (String.append "["
          (String.append (inet_ntop6 [0;0;0;0;0;0;0;0;0;0;0;0;0;0;0;1])
             (String.append "]:" (dec 443)))), 0)).
Proof.
  split.
  - apply (set_literal_then_accessors socketaddr_default "127.0.0.1"
             EmptyString 8080 0 [127; 0; 0; 1]).
    + unfold uint16; lia.
    + reflexivity.
  - apply (set_literal_then_accessors socketaddr_default "::1"
             EmptyString 443 0 [0;0;0;0;0;0;0;0;0;0;0;0;0;0;0;1]).
    + unfold uint16; lia.
    + reflexivity.
Defined.

(** C1 as stated fails twice.  An IPv6 literal that is not in the form
    [inet_ntop] prints is not what [get_addr()] returns, and text after a
    NUL is accepted by [set] and dropped by [get_addr()]. *)
Lemma set_literal_not_echoed :
  (literal AF_INET6 "0:0:0:0:0:0:0:1" = Some [0;0;0;0;0;0;0;0;0;0;0;0;0;0;0;1] /\
   fst (fst (set socketaddr_default "0:0:0:0:0:0:0:1" 443 0)) = 0 /\
   fst (get_addr (socketaddr_of "0:0:0:0:0:0:0:1" 443) 0) = "::1"%string /\
   fst (get_addr (socketaddr_of "0:0:0:0:0:0:0:1" 443) 0)
     <> "0:0:0:0:0:0:0:1"%string /\
   fst (operator_shl EmptyString (socketaddr_of "0:0:0:0:0:0:0:1" 443) 0)
     = "[::1]:443"%string) /\
  (literal AF_INET quad_nul_x = Some [1; 2; 3; 4] /\
   String.length quad_nul_x = 9%nat /\
   fst (fst (set socketaddr_default quad_nul_x 80 0)) = 0 /\
   fst (get_addr (socketaddr_of quad_nul_x 80) 0) = "1.2.3.4"%string /\
   fst (get_addr (socketaddr_of quad_nul_x 80) 0) <> quad_nul_x).
Proof.
  split.
  - repeat split; try reflexivity.
    vm_compute; discriminate.
  - repeat split; try reflexivity.
    vm_compute; discriminate.
Qed.

(** ** C2: comparison operators *)

Lemma wf_socketaddr_of_examples :
  wf socketaddr_default /\ wf (socketaddr_of "10.0.0.1" 53) /\
  wf (socketaddr_of "127.0.0.1" 8080) /\ wf (socketaddr_of "::1" 443).
Proof. repeat split; apply wf_check; vm_compute; reflexivity. Defined.

(** C2: [operator==] is an equivalence on socketaddr values (it is
    equality of the stored bytes) and [operator<] is a strict total order
    consistent with it: irreflexive, transitive, never true both ways, and
    for every pair exactly one of [a < b], [b < a], [a == b] holds. *)
Theorem operators_equivalence_and_strict_total_order (a b c : socketaddr) :
  wf a -> wf b -> wf c ->
  operator_eq a a = true /\
  (operator_eq a b = true -> operator_eq b a = true) /\
  (operator_eq a b = true -> operator_eq b c = true ->
   operator_eq a c = true) /\
  (operator_eq a b = true <-> a = b) /\
  operator_ne a b = negb (operator_eq a b) /\
  operator_lt a a = false /\
  (operator_lt a b = true -> operator_lt b c = true ->
   operator_lt a c = true) /\
  ~ (operator_lt a b = true /\ operator_lt b a = true) /\
  ((operator_lt a b = true /\ operator_lt b a = false /\
    operator_eq a b = false) \/
   (operator_lt a b = false /\ operator_lt b a = true /\
    operator_eq a b = false) \/
   (operator_lt a b = false /\ operator_lt b a = false /\
    operator_eq a b = true)).
Proof.
  intros Ha Hb Hc.
  pose proof (operator_eq_iff a b Ha Hb) as Eab.
  pose proof (operator_eq_iff b c Hb Hc) as Ebc.
  pose proof (operator_eq_iff a c Ha Hc) as Eac.
  pose proof (operator_eq_iff b a Hb Ha) as Eba.
  pose proof (operator_eq_iff a a Ha Ha) as Eaa.
  assert (Hopp : memcmp (sa b) (sa a) sizeof_sa
                 = - memcmp (sa a) (sa b) sizeof_sa) by apply memcmp_opp.
  repeat split.
  - now apply Eaa.
  - intros H; apply Eba; symmetry; now apply Eab.
  - intros H1 H2; apply Eac; transitivity b; [now apply Eab | now apply Ebc].
  - now apply Eab.
  - now apply Eab.
  - unfold operator_lt; rewrite memcmp_refl; reflexivity.
  - unfold operator_lt; rewrite !Z.ltb_lt.
    destruct Ha as [Ha _], Hb as [Hb _], Hc as [Hc _].
    now apply memcmp_lt_trans.
  - unfold operator_lt; rewrite !Z.ltb_lt; lia.
  - unfold operator_lt, operator_eq; rewrite Hopp.
    destruct (Z.lt_trichotomy (memcmp (sa a) (sa b) sizeof_sa) 0)
      as [H | [H | H]].
    + left; rewrite Z.ltb_lt, Z.ltb_ge, Z.eqb_neq; lia.
    + right; right; rewrite !Z.ltb_ge, Z.eqb_eq; lia.
    + right; left; rewrite Z.ltb_lt, Z.ltb_ge, Z.eqb_neq; lia.
Qed.

Lemma operators_on_three_addresses :
  let a := socketaddr_default in
  let b := socketaddr_of "10.0.0.1" 53 in
  let c := socketaddr_of "127.0.0.1" 8080 in
  operator_eq a a = true /\
  (operator_eq a b = true -> operator_eq b a = true) /\
  (operator_eq a b = true -> operator_eq b c = true ->
   operator_eq a c = true) /\
  (operator_eq a b = true <-> a = b) /\
  operator_ne a b = negb (operator_eq a b) /\
  operator_lt a a = false /\
  (operator_lt a b = true -> operator_lt b c = true ->
   operator_lt a c = true) /\
  ~ (operator_lt a b = true /\ operator_lt b a = true) /\
  ((operator_lt a b = true /\ operator_lt b a = false /\
    operator_eq a b = false) \/
   (operator_lt a b = false /\ operator_lt b a = true /\
    operator_eq a b = false) \/
   (operator_lt a b = false /\ operator_lt b a = false /\
    operator_eq a b = true)).
Proof.
  apply operators_equivalence_and_strict_total_order;
    apply wf_socketaddr_of_examples.
Defined.

(** ** C3: round trip through the native view *)

(** C3: for every address [A] that a successful [set(text, port)] built,
    a second address [B] loaded with [B.set(A.data())] holds the same
    bytes as [A], so [B == A]. *)
Theorem set_then_load_native_equal
    (this0 B A : socketaddr) (text : string) (port e0 e1 : Z) :
  set this0 text port e0 = ((0, A), e1) ->
  set_sockaddr B (data A) = A /\
  operator_eq (set_sockaddr B (data A)) A = true.
Proof.
  intros Hset.
  assert (Hload : set_sockaddr B (data A) = A).
  { destruct (literal AF_INET text) as [b4|] eqn:E4.
    - rewrite (set_ipv4 this0 text port e0 b4 E4) in Hset.
      injection Hset as <- _.
      unfold literal in E4; simpl in E4.
      destruct (inet_pton4_sound _ _ E4) as (Hl & _).
      explode_list b4 4; reflexivity.
    - destruct (literal AF_INET6 text) as [b6|] eqn:E6.
      + rewrite (set_ipv6 this0 text port e0 b6 E6) in Hset.
        injection Hset as <- _.
        unfold literal in E6; simpl in E6.
        destruct (inet_pton6_sound _ _ E6) as (Hl & _).
        explode_list b6 16; reflexivity.
      + rewrite (set_neither this0 text port e0 E4 E6) in Hset.
        discriminate. }
  split; [exact Hload |].
  rewrite Hload; unfold operator_eq.
  rewrite memcmp_refl; reflexivity.
Qed.

Lemma set_then_load_native_equal_witness :
  set_sockaddr (socketaddr_of "::1" 443) (data (socketaddr_of "10.0.0.1" 53))
  = socketaddr_of "10.0.0.1" 53 /\
  operator_eq
    (set_sockaddr (socketaddr_of "::1" 443)
       (data (socketaddr_of "10.0.0.1" 53)))
    (socketaddr_of "10.0.0.1" 53) = true.
Proof.
  apply (set_then_load_native_equal socketaddr_default
           (socketaddr_of "::1" 443) (socketaddr_of "10.0.0.1" 53)
           "10.0.0.1" 53 0 0).
  reflexivity.
Defined.

(** ** C4: the outcomes of [set_addr] *)



(** * The syntax of literals *)

(** ** Characters that a printed number does not have *)

Lemma charfree_append (c : Z) (a b : string) :
  charfree c (String.append a b) = charfree c a && charfree c b.
Proof.
  induction a as [|ch a IH]; simpl; [trivial |].
  now rewrite IH, andb_assoc.
Qed.

Lemma utoa_aux_charfree (b c : Z) (fuel : nat) :
  1 < b <= 16 -> no_digit c ->
  forall (n : Z) (acc : string),
    charfree c acc = true -> charfree c (utoa_aux fuel b n acc) = true.
Proof.
  intros Hb Hc; induction fuel as [|fuel IH]; intros n acc Hacc; simpl;
    [exact Hacc |].
  assert (Hd : 0 <= n mod b < 16)
    by (pose proof (Z.mod_pos_bound n b); lia).
  assert (H : charfree c (String (digit_char (n mod b)) acc) = true).
  { simpl; rewrite Hacc, (digit_char_code _ Hd), andb_true_r.
    unfold no_digit in Hc.
    destruct (n mod b <? 10) eqn:E;
      [apply Z.ltb_lt in E | apply Z.ltb_ge in E];
      apply negb_true_iff, Z.eqb_neq; lia. }
  destruct (n / b =? 0); [exact H | now apply IH].
Qed.

Lemma dec_charfree (c n : Z) : no_digit c -> charfree c (dec n) = true.
Proof. intros Hc; apply utoa_aux_charfree; [lia | exact Hc | reflexivity]. Qed.

Lemma hex_charfree (c n : Z) : no_digit c -> charfree c (hex n) = true.
Proof. intros Hc; apply utoa_aux_charfree; [lia | exact Hc | reflexivity]. Qed.

Lemma inet_ntop4_charfree (c : Z) (src : list Z) :
  no_digit c -> c <> 46 -> charfree c (inet_ntop4 src) = true.
Proof.
  intros Hc Hdot; unfold inet_ntop4.
  assert (Hd : charfree c dot = true).
  { unfold dot; cbn [charfree]; change (code (chr 46)) with 46.
    destruct (Z.eqb_spec 46 c); [lia | reflexivity]. }
  rewrite !charfree_append, !dec_charfree, Hd by exact Hc; reflexivity.
Qed.

(** ** Pieces of a text *)

Lemma split_on_nonempty (c : Z) (s : string) : split_on c s <> [].
Proof.
  destruct s as [|ch s]; cbn [split_on]; [discriminate |].
  destruct (code ch =? c); [discriminate |].
  destruct (split_on c s); discriminate.
Qed.

Lemma split_on_charfree (c : Z) (a : string) :
  charfree c a = true -> split_on c a = [a].
Proof.
  induction a as [|ch a IH]; cbn [charfree split_on]; [reflexivity |].
  intros H; apply andb_true_iff in H as [Hc Ha].
  apply negb_true_iff in Hc; rewrite Hc, (IH Ha); reflexivity.
Qed.

Lemma split_on_append (c : Z) (a rest : string) (ch : ascii) :
  charfree c a = true -> code ch = c ->
  split_on c (String.append a (String ch rest)) = a :: split_on c rest.
Proof.
  intros Ha Hch; induction a as [|x a IH]; cbn [String.append split_on].
  - now rewrite Hch, Z.eqb_refl.
  - cbn [charfree] in Ha; apply andb_true_iff in Ha as [Hx Ha].
    apply negb_true_iff in Hx; rewrite Hx, (IH Ha); reflexivity.
Qed.

(** ** Dotted-decimal text *)

Lemma decimal_octet_dec (v : Z) : byte v -> decimal_octet (dec v) = true.
Proof.
  intros Hv.
  apply (zrange_forallb (fun v => decimal_octet (dec v)) 256 0);
    [vm_compute; reflexivity | exact Hv].
Qed.

Lemma dotted_decimal_inet_ntop4 (a b c d : Z) :
  byte a -> byte b -> byte c -> byte d ->
  dotted_decimal (inet_ntop4 [a; b; c; d]) = true.
Proof.
  intros Ha Hb Hc Hd; unfold dotted_decimal, inet_ntop4, dot; cbn [nth].
  assert (Hfree : forall n, charfree 46 (dec n) = true)
    by (intros n; apply dec_charfree; unfold no_digit; lia).
  cbn [String.append].
  rewrite !split_on_append, split_on_charfree by (auto; reflexivity).
  now rewrite !decimal_octet_dec.
Qed.

(** What [inet_pton4] accepts is dotted-decimal text. *)
Lemma inet_pton4_dotted_decimal (s : string) (r : list Z) :
  inet_pton4 s = Some r -> dotted_decimal s = true.
Proof.
  intros H; destruct (inet_pton4_sound _ _ H) as (Hl & Hb & <-).
  explode_list r 4.
  inversion Hb as [|? ? B0 Hb1]; inversion Hb1 as [|? ? B1 Hb2];
    inversion Hb2 as [|? ? B2 Hb3]; inversion Hb3 as [|? ? B3 _]; subst.
  now apply dotted_decimal_inet_ntop4.
Qed.

(** ** Colon-hex text *)

Lemma is_xdigit_value (ch : ascii) :
  is_xdigit ch = (0 <=? hex_digit_value ch).
Proof.
  unfold is_xdigit, is_decimal, hex_digit_value; cbv zeta.
  destruct ((48 <=? code ch) && (code ch <=? 57)) eqn:E1; cbn [orb].
  - apply andb_true_iff in E1 as [H1 H2]; symmetry; apply Z.leb_le; lia.
  - destruct ((97 <=? code ch) && (code ch <=? 102)) eqn:E2; cbn [orb].
    + apply andb_true_iff in E2 as [H1 H2]; symmetry; apply Z.leb_le; lia.
    + destruct ((65 <=? code ch) && (code ch <=? 70)) eqn:E3.
      * apply andb_true_iff in E3 as [H1 H2]; symmetry; apply Z.leb_le; lia.
      * reflexivity.
Qed.

Lemma is_xdigit_not_colon (ch : ascii) :
  is_xdigit ch = true -> (code ch =? 58) = false.
Proof.
  unfold is_xdigit, is_decimal; intros H; apply Z.eqb_neq; intros E.
  rewrite E in H; discriminate H.
Qed.

Lemma all_xdigits_charfree (g : string) :
  all_chars is_xdigit g = true -> charfree 58 g = true.
Proof.
  induction g as [|ch g IH]; cbn [all_chars charfree]; [reflexivity |].
  intros H; apply andb_true_iff in H as [Hc Hg].
  now rewrite (is_xdigit_not_colon _ Hc), IH.
Qed.

Lemma hex_group_charfree (g : string) :
  hex_group g = true -> charfree 58 g = true.
Proof.
  unfold hex_group; intros H; apply andb_true_iff in H as [_ H].
  now apply all_xdigits_charfree.
Qed.

Lemma hex_group_starts_plain (g : string) :
  hex_group g = true -> starts_plain g.
Proof.
  unfold hex_group; intros H.
  apply andb_true_iff in H as [H Hx]; apply andb_true_iff in H as [Hl _].
  destruct g as [|ch g]; [discriminate |].
  cbn [all_chars] in Hx; apply andb_true_iff in Hx as [Hc _].
  exists ch, g; split; [reflexivity | now apply is_xdigit_not_colon].
Qed.

Lemma starts_plain_append (a b : string) :
  starts_plain a -> starts_plain (String.append a b).
Proof. intros (ch & s' & -> & H); exists ch, (String.append s' b); auto. Qed.

Lemma dotted_decimal_starts_plain (a b c d : Z) :
  starts_plain (inet_ntop4 [a; b; c; d]).
Proof.
  unfold inet_ntop4; cbn [nth]; apply starts_plain_append.
  pose proof (utoa_nonempty 10 a) as Hlen.
  pose proof (dec_charfree 58 a ltac:(unfold no_digit; lia)) as Hfree.
  unfold dec in *; destruct (utoa 10 a) as [|ch s]; [simpl in Hlen; lia |].
  cbn [charfree] in Hfree; apply andb_true_iff in Hfree as [Hc _].
  exists ch, s; split; [reflexivity | now apply negb_true_iff].
Qed.

Lemma groups_of_snoc (quad : bool) (gs : list string) (t : string) (w : nat) :
  Forall (fun g => hex_group g = true) gs ->
  (last_group t /\ w = 1%nat) \/ (quad = true /\ last_quad t /\ w = 2%nat) ->
  groups_of quad (gs ++ [t]) = Some (List.length gs + w)%nat.
Proof.
  intros Hgs Ht; induction Hgs as [|g gs Hg Hgs IH].
  - cbn [app groups_of List.length Nat.add].
    destruct Ht as [[Ht ->] | (-> & (Hn & Hq & _) & ->)].
    + unfold last_group in Ht; now rewrite Ht.
    + now rewrite Hn, Hq.
  - cbn [app groups_of]; rewrite Hg, IH.
    destruct (gs ++ [t]) eqn:E; [destruct gs; discriminate |].
    reflexivity.
Qed.

Lemma groups_of_groups (quad : bool) (gs : list string) :
  Forall (fun g => hex_group g = true) gs ->
  groups_of quad gs = Some (List.length gs).
Proof.
  induction 1 as [|g gs Hg Hgs IH]; [reflexivity |].
  cbn [groups_of List.length]; rewrite Hg, IH.
  destruct gs; reflexivity.
Qed.

Lemma split_on_colons (gs : list string) (t : string) :
  Forall (fun g => hex_group g = true) gs -> charfree 58 t = true ->
  split_on 58 (String.append (colons gs) t) = gs ++ [t].
Proof.
  intros Hgs Ht; induction Hgs as [|g gs Hg Hgs IH]; cbn [colons app].
  - now apply split_on_charfree.
  - rewrite append_assoc; cbn [String.append].
    rewrite split_on_append by (auto using hex_group_charfree).
    now rewrite IH.
Qed.

Lemma split_on_join (gs : list string) :
  Forall (fun g => hex_group g = true) gs -> gs <> [] ->
  split_on 58 (join_colon gs) = gs.
Proof.
  induction 1 as [|g gs Hg Hgs IH]; intros Hne; [contradiction |].
  cbn [join_colon]; destruct gs as [|g' gs].
  - now apply split_on_charfree, hex_group_charfree.
  - rewrite split_on_append by (auto using hex_group_charfree).
    rewrite IH by discriminate; reflexivity.
Qed.

Lemma colon_pieces_join (gs : list string) :
  Forall (fun g => hex_group g = true) gs ->
  colon_pieces (join_colon gs) = gs.
Proof.
  intros Hgs; destruct gs as [|g gs]; [reflexivity |].
  pose proof (split_on_join _ Hgs ltac:(discriminate)) as H.
  assert (Hs : starts_plain (join_colon (g :: gs))).
  { inversion Hgs as [|? ? Hg _]; subst; cbn [join_colon].
    destruct gs; [| apply starts_plain_append];
      now apply hex_group_starts_plain. }
  destruct Hs as (ch & s' & E & _); unfold colon_pieces; rewrite E in *.
  exact H.
Qed.

Lemma colon_pieces_colons (gs : list string) (t : string) :
  Forall (fun g => hex_group g = true) gs -> charfree 58 t = true ->
  starts_plain t ->
  colon_pieces (String.append (colons gs) t) = gs ++ [t].
Proof.
  intros Hgs Ht Hs; pose proof (split_on_colons gs t Hgs Ht) as H.
  assert (Hp : starts_plain (String.append (colons gs) t)).
  { destruct Hgs as [|g gs Hg _]; [exact Hs |].
    cbn [colons]; rewrite append_assoc.
    now apply starts_plain_append, hex_group_starts_plain. }
  destruct Hp as (ch & s' & E & _); unfold colon_pieces; rewrite E in *.
  exact H.
Qed.

(** *** The first double colon *)

Lemma cut_double_colon_eq (c1 c2 : ascii) (s : string) :
  cut_double_colon (String c1 (String c2 s))
  = if (code c1 =? 58) && (code c2 =? 58) then Some (EmptyString, s)
    else option_map (fun p => (String c1 (fst p), snd p))
           (cut_double_colon (String c2 s)).
Proof. reflexivity. Qed.

Lemma cut_double_colon_cons (x : ascii) (s : string) :
  (code x =? 58) = false ->
  cut_double_colon (String x s)
  = option_map (fun p => (String x (fst p), snd p)) (cut_double_colon s).
Proof.
  intros Hx; destruct s as [|y s]; [reflexivity |].
  now rewrite cut_double_colon_eq, Hx.
Qed.

Lemma cut_double_colon_plain (t : string) :
  charfree 58 t = true -> cut_double_colon t = None.
Proof.
  induction t as [|ch t IH]; [reflexivity |].
  cbn [charfree]; intros H; apply andb_true_iff in H as [Hc Ht].
  apply negb_true_iff in Hc.
  rewrite (cut_double_colon_cons ch t Hc), (IH Ht); reflexivity.
Qed.

Lemma cut_double_colon_skip (g rest : string) :
  charfree 58 g = true -> starts_plain rest ->
  cut_double_colon (String.append g (String ":" rest))
  = option_map
      (fun p => (String.append g (String ":" (fst p)), snd p))
      (cut_double_colon rest).
Proof.
  intros Hg (ch & r' & -> & Hch).
  induction g as [|x g IH]; cbn [String.append].
  - rewrite cut_double_colon_eq, Hch, andb_false_r; reflexivity.
  - cbn [charfree] in Hg; apply andb_true_iff in Hg as [Hx Hg].
    apply negb_true_iff in Hx.
    rewrite (cut_double_colon_cons x _ Hx), (IH Hg).
    destruct (cut_double_colon (String ch r')) as [[a b]|]; reflexivity.
Qed.

Lemma cut_double_colon_found (g rest : string) :
  charfree 58 g = true ->
  cut_double_colon (String.append g (String ":" (String ":" rest)))
  = Some (g, rest).
Proof.
  intros Hg; induction g as [|x g IH]; cbn [String.append].
  - reflexivity.
  - cbn [charfree] in Hg; apply andb_true_iff in Hg as [Hx Hg].
    apply negb_true_iff in Hx.
    rewrite (cut_double_colon_cons x _ Hx), (IH Hg); reflexivity.
Qed.

(** No double colon in groups, each with its colon, and a last item. *)
Lemma cut_double_colon_colons (gs : list string) (t : string) :
  Forall (fun g => hex_group g = true) gs -> charfree 58 t = true ->
  starts_plain t ->
  cut_double_colon (String.append (colons gs) t) = None.
Proof.
  intros Hgs Ht Hs; induction Hgs as [|g gs Hg Hgs IH]; cbn [colons].
  - now apply cut_double_colon_plain.
  - rewrite append_assoc; cbn [String.append].
    rewrite cut_double_colon_skip, IH; [reflexivity | |].
    + now apply hex_group_charfree.
    + destruct Hgs as [|g' gs' Hg' _]; [exact Hs |].
      cbn [colons]; rewrite append_assoc.
      now apply starts_plain_append, hex_group_starts_plain.
Qed.

(** The double colon after groups with colons between them. *)
Lemma cut_double_colon_join (gs : list string) (rest : string) :
  Forall (fun g => hex_group g = true) gs ->
  cut_double_colon
    (String.append (join_colon gs) (String ":" (String ":" rest)))
  = Some (join_colon gs, rest).
Proof.
  induction 1 as [|g gs Hg Hgs IH]; [reflexivity |].
  cbn [join_colon]; destruct gs as [|g' gs].
  - now apply cut_double_colon_found, hex_group_charfree.
  - rewrite append_assoc; cbn [String.append].
    rewrite cut_double_colon_skip, IH; [reflexivity | |].
    + now apply hex_group_charfree.
    + inversion Hgs as [|? ? Hg' _]; subst; cbn [join_colon].
      destruct gs; [| rewrite append_assoc];
        repeat apply starts_plain_append; now apply hex_group_starts_plain.
Qed.

Lemma hex_group_last (t : string) :
  hex_group t = true -> charfree 58 t = true /\ starts_plain t.
Proof.
  intros H; split;
    [now apply hex_group_charfree | now apply hex_group_starts_plain].
Qed.

(** A text in parts is colon-hex text. *)
Lemma colon_hex_form_recognised (s : string) :
  colon_hex_form s -> colon_hex s = true.
Proof.
  intros (pre & comp & t & w & Hpre & Ht & -> & Hn); unfold colon_hex.
  destruct comp as [post|]; cbn [base_text].
  - destruct Hn as [Hpost Hn].
    rewrite append_assoc; cbn [String.append].
    rewrite (cut_double_colon_join pre _ Hpre).
    rewrite (colon_pieces_join pre Hpre), (groups_of_groups false pre Hpre).
    destruct Ht as [[Hg ->] | [[Hq ->] | (-> & -> & E)]].
    + destruct (hex_group_last t Hg) as [Hf Hs].
      rewrite (colon_pieces_colons post t Hpost Hf Hs).
      rewrite (groups_of_snoc true post t 1 Hpost) by (left; auto).
      apply Nat.leb_le; lia.
    + pose proof Hq as (_ & _ & Hf & Hs).
      rewrite (colon_pieces_colons post t Hpost Hf Hs).
      rewrite (groups_of_snoc true post t 2 Hpost) by (right; auto).
      apply Nat.leb_le; lia.
    + injection E as ->; cbn [colons String.append colon_pieces groups_of].
      apply Nat.leb_le; lia.
  - destruct Hn as [Hn Hw].
    assert (Hlast : charfree 58 t = true /\ starts_plain t /\
                    groups_of true (pre ++ [t])
                    = Some (List.length pre + w)%nat).
    { destruct Ht as [[Hg ->] | [[Hq ->] | (_ & -> & _)]];
        [| | contradiction].
      - destruct (hex_group_last t Hg) as [Hf Hs].
        split; [exact Hf | split; [exact Hs |]].
        apply groups_of_snoc; [exact Hpre | left; auto].
      - pose proof Hq as (_ & _ & Hf & Hs).
        split; [exact Hf | split; [exact Hs |]].
        apply groups_of_snoc; [exact Hpre | right; auto]. }
    destruct Hlast as (Hf & Hs & Hg).
    rewrite (cut_double_colon_colons pre t Hpre Hf Hs).
    rewrite (split_on_colons pre t Hpre Hf), Hg.
    now apply Nat.eqb_eq.
Qed.

(** ** What [inet_pton6] accepts is colon-hex text *)

Lemma colons_app (a b : list string) :
  colons (a ++ b) = String.append (colons a) (colons b).
Proof.
  induction a as [|g a IH]; cbn [app colons]; [reflexivity |].
  rewrite IH, append_assoc; reflexivity.
Qed.

(** Groups with their colons and one colon more end in a double colon. *)
Lemma colons_join (pre : list string) :
  pre <> [] ->
  String.append (colons pre) (String ":" EmptyString)
  = String.append (join_colon pre) (String ":" (String ":" EmptyString)).
Proof.
  induction pre as [|g pre IH]; intros Hne; [contradiction |].
  cbn [colons join_colon]; destruct pre as [|g' pre].
  - cbn [colons]; rewrite append_assoc; reflexivity.
  - rewrite !append_assoc; cbn [String.append]; f_equal; f_equal.
    apply IH; discriminate.
Qed.

Lemma all_chars_append (p : ascii -> bool) (a b : string) :
  all_chars p (String.append a b) = all_chars p a && all_chars p b.
Proof.
  induction a as [|ch a IH]; cbn [String.append all_chars]; [reflexivity |].
  now rewrite IH, andb_assoc.
Qed.

Lemma colon_char (ch : ascii) : (code ch =? 58) = true -> ch = ":"%char.
Proof.
  intros H; apply Z.eqb_eq in H; rewrite <- (chr_code ch), H; reflexivity.
Qed.

Lemma inet_pton6_loop_form (src : string) :
  forall tmp colonp curtok seen val r pre comp cur,
    inet_pton6_loop src tmp colonp curtok seen val = Some r ->
    loop_inv src tmp colonp curtok seen pre comp cur ->
    colon_hex_form
      (String.append (base_text pre comp) (String.append cur src)).
Proof.
  induction src as [|ch src IH];
    intros tmp colonp curtok seen val r pre comp cur H
           (Hpre & Hcomp & Htok & Hlen & Hx & H4 & Htmp & H16 & Hstart & Hpend).
  - (* the end of the text *)
    cbn [inet_pton6_loop] in H; unfold inet_pton6_finish in H.
    rewrite append_nil_r.
    destruct seen as [|seen].
    + (* no group is open *)
      change (0 <? 0)%nat with false in H; cbv iota in H.
      destruct cur; [| discriminate].
      destruct comp as [post|].
      * destruct Hcomp as [Hpost Hcp].
        destruct colonp as [k|]; [| contradiction].
        destruct (Nat.eqb_spec (List.length tmp) 16) as [E | E];
          [discriminate |].
        destruct post as [|g post];
          [| exfalso; apply (Hpend eq_refl); [discriminate | reflexivity]].
        exists pre, (Some []), EmptyString, 0%nat.
        split; [exact Hpre | split; [right; right; auto |]].
        split; [reflexivity | split; [constructor |]].
        cbn [List.length] in *; lia.
      * subst colonp.
        destruct (Nat.eqb_spec (List.length tmp) 16) as [E | E];
          [| discriminate].
        exfalso; apply (Hpend eq_refl); [| reflexivity].
        intros ->; cbn [List.length] in Htmp; lia.
    + (* the last group *)
      change (0 <? S seen)%nat with true in H; cbv iota in H.
      destruct (Nat.ltb_spec 16 (List.length tmp + 2)) as [E | E];
        [discriminate |].
      assert (Hg : hex_group cur = true).
      { unfold hex_group; rewrite Hlen, Hx.
        destruct (Nat.leb_spec 1 (S seen)); [| lia].
        destruct (Nat.leb_spec (S seen) 4); [reflexivity | lia]. }
      assert (Hl : List.length (tmp ++ group_bytes val)
                   = (List.length tmp + 2)%nat)
        by (rewrite length_app; reflexivity).
      rewrite Hl in H.
      exists pre, comp, cur, 1%nat.
      split; [exact Hpre | split; [left; split; [exact Hg | reflexivity] |]].
      split; [reflexivity |].
      destruct comp as [post|].
      * destruct Hcomp as [Hpost Hcp].
        destruct colonp as [k|]; [| contradiction].
        destruct (Nat.eqb_spec (List.length tmp + 2) 16) as [E' | E'];
          [discriminate |].
        split; [exact Hpost | lia].
      * subst colonp.
        destruct (Nat.eqb_spec (List.length tmp + 2) 16) as [E' | E'];
          [| discriminate].
        split; lia.
  - cbn [inet_pton6_loop] in H.
    destruct (0 <=? hex_digit_value ch) eqn:Edigit.
    + (* a digit of a group *)
      destruct (Nat.eqb_spec seen 4) as [E4 | E4]; [discriminate |].
      destruct (65535 <? Z.lor (Z.shiftl val 4) (hex_digit_value ch));
        [discriminate |].
      replace (String.append cur (String ch src))
        with (String.append (String.append cur (String ch EmptyString)) src)
        by (rewrite append_assoc; reflexivity).
      apply (IH _ _ _ _ _ _ pre comp _ H).
      unfold loop_inv.
      split; [exact Hpre | split; [exact Hcomp |]].
      split; [rewrite Htok, append_assoc; reflexivity |].
      split; [rewrite length_append, Hlen; simpl; lia |].
      split; [rewrite all_chars_append, Hx; cbn [all_chars];
              now rewrite is_xdigit_value, Edigit |].
      split; [lia | split; [exact Htmp | split; [exact H16 |]]].
      split; intros; discriminate.
    + destruct (code ch =? 58) eqn:Ecolon.
      * pose proof (colon_char ch Ecolon) as ->.
        destruct (Nat.eqb_spec seen 0) as [E0 | E0].
        -- (* the double colon *)
           subst seen; destruct cur; [| discriminate].
           destruct colonp as [k|]; [discriminate |].
           destruct comp as [post|]; [destruct Hcomp; contradiction |].
           assert (Hne : pre <> []).
           { intros ->.
             specialize (Hstart eq_refl eq_refl eq_refl ":"%char src eq_refl).
             discriminate Hstart. }
           cbn [base_text String.append].
           replace (String.append (colons pre) (String ":" src))
             with (String.append (base_text pre (Some []))
                     (String.append EmptyString src)).
           2:{ cbn [base_text colons String.append].
               pose proof (colons_join pre Hne) as Hj.
               apply (f_equal (fun s => String.append s src)) in Hj.
               rewrite !append_assoc in Hj; cbn [String.append] in Hj.
               rewrite append_assoc; cbn [String.append].
               symmetry; exact Hj. }
           apply (IH _ _ _ _ _ _ pre (Some []) _ H).
           unfold loop_inv.
           split; [exact Hpre | split; [split; [constructor | discriminate] |]].
           split; [reflexivity | split; [reflexivity |]].
           split; [reflexivity | split; [lia |]].
           split; [cbn [List.length] in *; lia | split; [exact H16 |]].
           split; [intros; discriminate | intros _ Hp; now contradiction Hp].
        -- (* the colon after a group *)
           destruct src as [|ch' src']; [discriminate |].
           destruct (Nat.ltb_spec 16 (List.length tmp + 2)) as [E | E];
             [discriminate |].
           assert (Hg : hex_group cur = true).
           { unfold hex_group; rewrite Hlen, Hx.
             destruct (Nat.leb_spec 1 seen); [| lia].
             destruct (Nat.leb_spec seen 4); [reflexivity | lia]. }
           set (pre' := match comp with None => pre ++ [cur] | Some _ => pre end).
           set (comp' := match comp with
                         | None => None
                         | Some post => Some (post ++ [cur])
                         end).
           replace (String.append (base_text pre comp)
                      (String.append cur (String ":" (String ch' src'))))
             with (String.append (base_text pre' comp')
                     (String.append EmptyString (String ch' src'))).
           2:{ unfold pre', comp'; destruct comp as [post|];
                 cbn [base_text String.append];
                 rewrite colons_app; cbn [colons];
                 rewrite !append_assoc; cbn [String.append];
                 rewrite ?append_assoc; reflexivity. }
           apply (IH _ _ _ _ _ _ pre' comp' _ H).
           unfold loop_inv, pre', comp'.
           assert (Hl : List.length (tmp ++ group_bytes val)
                        = (List.length tmp + 2)%nat)
             by (rewrite length_app; reflexivity).
           destruct comp as [post|].
           ++ destruct Hcomp as [Hpost Hcp].
              split; [exact Hpre |].
              split; [split; [apply Forall_app; auto | exact Hcp] |].
              split; [reflexivity | split; [reflexivity |]].
              split; [reflexivity | split; [lia |]].
              split; [rewrite Hl, Htmp, length_app; simpl; lia |].
              split; [lia |].
              split; [intros; discriminate | intros; discriminate].
           ++ split; [apply Forall_app; auto |].
              split; [exact Hcomp |].
              split; [reflexivity | split; [reflexivity |]].
              split; [reflexivity | split; [lia |]].
              split; [rewrite Hl, Htmp, length_app; simpl; lia |].
              split; [lia |].
              split; [| intros; discriminate].
              intros Hnil; destruct pre; discriminate.
      * (* a dotted-decimal address ends the text *)
        destruct ((code ch =? 46) && (List.length tmp + 4 <=? 16)%nat)
          eqn:Edot; [| discriminate].
        apply andb_true_iff in Edot as [Edot E4].
        apply Nat.leb_le in E4.
        destruct (inet_pton4 curtok) as [quad|] eqn:Equad; [| discriminate].
        destruct (inet_pton4_sound _ _ Equad) as (Hlq & Hbq & Hq).
        unfold inet_pton6_finish in H.
        change (0 <? 0)%nat with false in H; cbv iota in H.
        rewrite length_app, Hlq in H.
        rewrite <- Htok.
        assert (Hlast : last_quad curtok).
        { explode_list quad 4.
          apply Forall_cons_iff in Hbq as [B0 Hbq].
          apply Forall_cons_iff in Hbq as [B1 Hbq].
          apply Forall_cons_iff in Hbq as [B2 Hbq].
          apply Forall_cons_iff in Hbq as [B3 _].
          split; [| split; [| split]].
          - unfold hex_group; rewrite Htok, all_chars_append.
            cbn [all_chars].
            assert (Hnx : is_xdigit ch = false)
              by (rewrite is_xdigit_value; exact Edigit).
            rewrite Hnx, andb_false_r, andb_false_r; reflexivity.
          - rewrite <- Hq; now apply dotted_decimal_inet_ntop4.
          - rewrite <- Hq; apply inet_ntop4_charfree;
              unfold no_digit; lia.
          - rewrite <- Hq; apply dotted_decimal_starts_plain. }
        exists pre, comp, curtok, 2%nat.
        split; [exact Hpre | split; [right; left; auto |]].
        split; [reflexivity |].
        destruct comp as [post|].
        -- destruct Hcomp as [Hpost Hcp].
           destruct colonp as [k|]; [| contradiction].
           destruct (Nat.eqb_spec (List.length tmp + 4) 16) as [E' | E'];
             [discriminate |].
           split; [exact Hpost | lia].
        -- subst colonp.
           destruct (Nat.eqb_spec (List.length tmp + 4) 16) as [E' | E'];
             [| discriminate].
           split; lia.
Qed.

(** What [inet_pton6] accepts is colon-hex text. *)
Lemma inet_pton6_colon_hex (s : string) (r : list Z) :
  inet_pton6 s = Some r -> colon_hex s = true.
Proof.
  intros H; apply colon_hex_form_recognised.
  unfold inet_pton6 in H.
  destruct s as [|ch s1]; [discriminate |].
  destruct (code ch =? 58) eqn:Ecolon.
  - pose proof (colon_char ch Ecolon) as ->.
    destruct s1 as [|ch1 s2]; [discriminate |].
    destruct (code ch1 =? 58) eqn:Ecolon1; [| discriminate].
    pose proof (colon_char ch1 Ecolon1) as ->.
    cbn [inet_pton6_loop] in H.
    change (0 <=? hex_digit_value ":") with false in H.
    change (code ":" =? 58) with true in H.
    cbv iota in H; change (0 =? 0)%nat with true in H; cbv iota in H.
    apply (inet_pton6_loop_form _ _ _ _ _ _ _ [] (Some []) EmptyString H).
    unfold loop_inv.
    split; [constructor | split; [split; [constructor | discriminate] |]].
    split; [reflexivity | split; [reflexivity |]].
    split; [reflexivity | split; [lia |]].
    split; [reflexivity | split; [simpl; lia |]].
    split; [intros; discriminate | intros _ Hp; now contradiction Hp].
  - apply (inet_pton6_loop_form _ _ _ _ _ _ _ [] None EmptyString H).
    unfold loop_inv.
    split; [constructor | split; [reflexivity |]].
    split; [reflexivity | split; [reflexivity |]].
    split; [reflexivity | split; [lia |]].
    split; [reflexivity | split; [simpl; lia |]].
    split; [| intros _ Hp; now contradiction Hp].
    intros _ _ _ ch' s' E; injection E as <- <-; exact Ecolon.
Qed.

(** ** Dotted-decimal text is what [inet_ntop4] prints *)

Lemma is_decimal_digit (ch : ascii) :
  is_decimal ch = true -> exists d, 0 <= d < 0 + Z.of_nat 10 /\ ch = chr (48 + d).
Proof.
  unfold is_decimal; intros H; apply andb_true_iff in H as [H1 H2].
  apply Z.leb_le in H1, H2; exists (code ch - 48); split; [lia |].
  replace (48 + (code ch - 48)) with (code ch) by lia.
  symmetry; apply chr_code.
Qed.

(** An octet by its syntax is the text of a byte. *)
Lemma decimal_octet_form (t : string) :
  decimal_octet t = true -> byte (decimal_value t 0) /\ dec (decimal_value t 0) = t.
Proof.
  intros H.
  pose (ok := fun t : string =>
          implb (decimal_octet t)
            ((0 <=? decimal_value t 0) && (decimal_value t 0 <? 256)
             && String.eqb (dec (decimal_value t 0)) t)).
  assert (Hok : ok t = true).
  { assert (Hd : all_chars is_decimal t = true /\
                 (String.length t <=? 3)%nat = true).
    { unfold decimal_octet in H; destruct t as [|ch t]; [discriminate |].
      apply andb_true_iff in H as [H _]; apply andb_true_iff in H as [H _].
      now apply andb_true_iff in H. }
    destruct Hd as [Hd Hl]; clear H.
    destruct t as [|c1 [|c2 [|c3 [|c4 t]]]]; [reflexivity | | | | discriminate];
      cbn [all_chars] in Hd;
      repeat match type of Hd with
             | (_ && _) = true =>
                 let H1 := fresh "D" in
                 apply andb_true_iff in Hd as [H1 Hd];
                 apply is_decimal_digit in H1 as (? & ? & ->)
             end.
    - apply (zrange_forallb
               (fun d1 => ok (String (chr (48 + d1)) EmptyString)) 10 0);
        [vm_compute; reflexivity | assumption].
    - apply (zrange_forallb
               (fun d2 => ok (String (chr (48 + x)) (String (chr (48 + d2))
                                EmptyString))) 10 0); [| assumption].
      apply (zrange_forallb
               (fun d1 => forallb (fun d2 =>
                  ok (String (chr (48 + d1)) (String (chr (48 + d2))
                        EmptyString))) (zrange 10 0)) 10 0);
        [vm_compute; reflexivity | assumption].
    - apply (zrange_forallb
               (fun d3 => ok (String (chr (48 + x)) (String (chr (48 + x0))
                               (String (chr (48 + d3)) EmptyString)))) 10 0);
        [| assumption].
      apply (zrange_forallb
               (fun d2 => forallb (fun d3 =>
                  ok (String (chr (48 + x)) (String (chr (48 + d2))
                       (String (chr (48 + d3)) EmptyString))))
                  (zrange 10 0)) 10 0); [| assumption].
      apply (zrange_forallb
               (fun d1 => forallb (fun d2 => forallb (fun d3 =>
                  ok (String (chr (48 + d1)) (String (chr (48 + d2))
                       (String (chr (48 + d3)) EmptyString))))
                  (zrange 10 0)) (zrange 10 0)) 10 0);
        [vm_compute; reflexivity | assumption]. }
  unfold ok in Hok; rewrite H in Hok; cbn [implb] in Hok.
  apply andb_true_iff in Hok as [Hok He]; apply andb_true_iff in Hok as [H0 H1].
  apply Z.leb_le in H0; apply Z.ltb_lt in H1; apply String.eqb_eq in He.
  split; [unfold byte; lia | exact He].
Qed.

(** A text is its pieces with the separator between them. *)
Lemma split_on_inv (c : Z) (s : string) :
  forall p ps, split_on c s = p :: ps ->
    charfree c p = true /\
    match ps with
    | [] => s = p
    | _ :: _ =>
        exists ch rest, code ch = c /\
          s = String.append p (String ch rest) /\ split_on c rest = ps
    end.
Proof.
  induction s as [|ch s IH]; intros p ps H; cbn [split_on] in H.
  - injection H as <- <-; split; reflexivity.
  - destruct (Z.eqb_spec (code ch) c) as [E | E].
    + injection H as <- <-; split; [reflexivity |].
      pose proof (split_on_nonempty c s) as Hne.
      destruct (split_on c s) as [|q qs] eqn:Es; [contradiction |].
      exists ch, s; repeat split; assumption.
    + destruct (split_on c s) as [|q qs] eqn:Es;
        [now destruct (split_on_nonempty c s) |].
      injection H as <- <-.
      destruct (IH q qs eq_refl) as [Hq Hs].
      split.
      * cbn [charfree]; rewrite Hq.
        destruct (Z.eqb_spec (code ch) c); [contradiction | reflexivity].
      * destruct qs as [|q' qs].
        -- now rewrite Hs.
        -- destruct Hs as (ch' & rest & Hc & -> & Hr).
           exists ch', rest; repeat split; assumption.
Qed.

Lemma dot_char (ch : ascii) : code ch = 46 -> ch = chr 46.
Proof. intros H; rewrite <- (chr_code ch), H; reflexivity. Qed.

(** Dotted-decimal text is the text of four bytes. *)
Lemma dotted_decimal_form (s : string) :
  dotted_decimal s = true ->
  exists a b c d,
    byte a /\ byte b /\ byte c /\ byte d /\ s = inet_ntop4 [a; b; c; d].
Proof.
  unfold dotted_decimal; intros H.
  destruct (split_on 46 s) as [|ta [|tb [|tc [|td [|]]]]] eqn:E;
    try discriminate.
  apply andb_true_iff in H as [H Hd]; apply andb_true_iff in H as [H Hc].
  apply andb_true_iff in H as [Ha Hb].
  apply decimal_octet_form in Ha as [Ba Ea], Hb as [Bb Eb],
                              Hc as [Bc Ec], Hd as [Bd Ed].
  destruct (split_on_inv _ _ _ _ E) as (_ & ch1 & r1 & C1 & -> & E1).
  destruct (split_on_inv _ _ _ _ E1) as (_ & ch2 & r2 & C2 & -> & E2).
  destruct (split_on_inv _ _ _ _ E2) as (_ & ch3 & r3 & C3 & -> & E3).
  destruct (split_on_inv _ _ _ _ E3) as (_ & ->).
  apply dot_char in C1, C2, C3; subst ch1 ch2 ch3.
  exists (decimal_value ta 0), (decimal_value tb 0),
         (decimal_value tc 0), (decimal_value td 0).
  repeat (split; [assumption |]).
  unfold inet_ntop4, dot; cbn [nth String.append].
  now rewrite Ea, Eb, Ec, Ed.
Qed.

(** [inet_pton4] accepts exactly dotted-decimal text. *)
Lemma dotted_decimal_inet_pton4 (s : string) :
  dotted_decimal s = true <-> exists r, inet_pton4 s = Some r.
Proof.
  split.
  - intros H; apply dotted_decimal_form in H
      as (a & b & c & d & Ha & Hb & Hc & Hd & ->).
    exists [a; b; c; d]; now apply inet_pton4_complete.
  - intros [r H]; now apply inet_pton4_dotted_decimal in H.
Qed.

(** ** Colon-hex text is accepted by [inet_pton6] *)

Lemma hex_digit_value_bound (ch : ascii) : hex_digit_value ch < 16.
Proof.
  unfold hex_digit_value; cbv zeta.
  destruct ((48 <=? code ch) && (code ch <=? 57)) eqn:E1.
  - apply andb_true_iff in E1 as [H1 H2]; lia.
  - destruct ((97 <=? code ch) && (code ch <=? 102)) eqn:E2.
    + apply andb_true_iff in E2 as [H1 H2]; lia.
    + destruct ((65 <=? code ch) && (code ch <=? 70)) eqn:E3; [| lia].
      apply andb_true_iff in E3 as [H1 H2]; lia.
Qed.

(** Hexadecimal digits, four at most, are read as one value. *)
Lemma feed_xdigits (g : string) :
  forall (seen : nat) (val : Z),
    all_chars is_xdigit g = true -> (seen + String.length g <= 4)%nat ->
    0 <= val < 16 ^ Z.of_nat seen ->
    exists v, feed g seen val = Some ((seen + String.length g)%nat, v) /\
              0 <= v < 16 ^ Z.of_nat (seen + String.length g).
Proof.
  induction g as [|ch g IH]; intros seen val Hx Hlen Hval.
  - exists val; cbn [feed String.length]; rewrite Nat.add_0_r; auto.
  - cbn [all_chars] in Hx; apply andb_true_iff in Hx as [Hch Hx].
    cbn [String.length] in Hlen |- *.
    rewrite is_xdigit_value in Hch; cbn [feed]; rewrite Hch.
    apply Z.leb_le in Hch; pose proof (hex_digit_value_bound ch) as Hd.
    destruct (Nat.eqb_spec seen 4) as [E | E]; [lia |].
    rewrite lor_shiftl_digit by lia.
    assert (Hp : 16 ^ Z.of_nat (S seen) = 16 * 16 ^ Z.of_nat seen)
      by (rewrite Nat2Z.inj_succ, Z.pow_succ_r by lia; reflexivity).
    assert (Hq : 16 ^ Z.of_nat (S seen) <= 16 ^ 4)
      by (apply Z.pow_le_mono_r; lia).
    change (16 ^ 4) with 65536 in Hq.
    destruct (Z.ltb_spec 65535 (val * 16 + hex_digit_value ch)) as [F | F];
      [lia |].
    destruct (IH (S seen) (val * 16 + hex_digit_value ch) Hx) as (v & Hv & Hb);
      [lia | lia |].
    exists v; rewrite Hv; replace (S seen + String.length g)%nat
      with (seen + S (String.length g))%nat in * by lia; auto.
Qed.

(** A group is read as a word. *)
Lemma inet_pton6_loop_group (g : string) :
  hex_group g = true ->
  exists (k : nat) (v : Z), word v /\
    forall (rest : string) (tmp : list Z) (colonp : option nat)
           (curtok : string),
      inet_pton6_loop (String.append g rest) tmp colonp curtok 0 0
      = inet_pton6_loop rest tmp colonp curtok (S k) v.
Proof.
  unfold hex_group; intros H; apply andb_true_iff in H as [H Hx].
  apply andb_true_iff in H as [H1 H4].
  apply Nat.leb_le in H1, H4.
  destruct (feed_xdigits g 0 0 Hx) as (v & Hv & Hb);
    [simpl; lia | simpl; lia |].
  cbn [Nat.add] in Hv, Hb.
  assert (Hq : 16 ^ Z.of_nat (String.length g) <= 16 ^ 4)
    by (apply Z.pow_le_mono_r; lia).
  change (16 ^ 4) with 65536 in Hq.
  destruct (String.length g) as [|k] eqn:El; [lia |].
  exists k, v; split; [unfold word; lia |].
  intros rest tmp colonp curtok.
  now apply inet_pton6_loop_feed.
Qed.

(** The colon after a group stores the group. *)
Lemma inet_pton6_loop_colon (rest : string) (tmp : list Z)
    (colonp : option nat) (curtok : string) (k : nat) (v : Z) :
  rest <> EmptyString -> (List.length tmp + 2 <= 16)%nat ->
  inet_pton6_loop (String ":" rest) tmp colonp curtok (S k) v
  = inet_pton6_loop rest (tmp ++ group_bytes v) colonp rest 0 0.
Proof.
  intros Hrest Hlen; destruct rest as [|ch rest]; [contradiction |].
  cbn [inet_pton6_loop].
  change (0 <=? hex_digit_value ":") with false.
  change (code ":" =? 58) with true.
  cbv beta iota.
  change (S k =? 0)%nat with false; cbv iota.
  destruct (Nat.ltb_spec 16 (List.length tmp + 2)) as [H | H]; [lia |].
  reflexivity.
Qed.

(** Groups, each with its colon, are stored one after the other. *)
Lemma inet_pton6_loop_colons (gs : list string) :
  Forall is_group gs ->
  forall (rest : string) (tmp : list Z) (colonp : option nat),
    rest <> EmptyString ->
    (List.length tmp + 2 * List.length gs <= 16)%nat ->
    exists bs, List.length bs = (2 * List.length gs)%nat /\
      inet_pton6_loop (String.append (colons gs) rest) tmp colonp
        (String.append (colons gs) rest) 0 0
      = inet_pton6_loop rest (tmp ++ bs) colonp rest 0 0.
Proof.
  induction 1 as [|g gs Hg Hgs IH]; intros rest tmp colonp Hrest Hlen.
  - exists []; rewrite app_nil_r; split; reflexivity.
  - cbn [List.length] in Hlen.
    destruct (inet_pton6_loop_group g Hg) as (k & v & Hv & Hread).
    assert (Hne : String.append (colons gs) rest <> EmptyString).
    { destruct (colons gs); cbn [String.append]; [exact Hrest | discriminate]. }
    destruct (IH rest (tmp ++ group_bytes v) colonp Hrest) as (bs & Hbs & Hgo).
    { rewrite length_app; cbn [group_bytes List.length]; lia. }
    exists (group_bytes v ++ bs); split.
    { rewrite length_app, Hbs; cbn [group_bytes List.length]; lia. }
    cbn [colons]; rewrite append_assoc; cbn [String.append].
    rewrite Hread, inet_pton6_loop_colon by (auto; lia).
    rewrite Hgo, app_assoc; reflexivity.
Qed.

(** The last item of the text, and what [inet_pton6] returns. *)
Lemma inet_pton6_loop_last (t : string) (w : nat) (tmp : list Z)
    (colonp : option nat) :
  (last_group t /\ w = 1%nat) \/ (last_quad t /\ w = 2%nat) ->
  match colonp with
  | None => (List.length tmp + 2 * w = 16)%nat
  | Some _ => (List.length tmp + 2 * w < 16)%nat
  end ->
  exists r, inet_pton6_loop t tmp colonp t 0 0 = Some r.
Proof.
  intros [[Hg ->] | [(_ & Hq & _) ->]] Hlen.
  - destruct (inet_pton6_loop_group t Hg) as (k & v & Hv & Hread).
    pose proof (Hread EmptyString tmp colonp t) as Hr.
    rewrite append_nil_r in Hr; rewrite Hr.
    cbn [inet_pton6_loop]; unfold inet_pton6_finish.
    change (0 <? S k)%nat with true; cbv iota.
    assert (Hl : List.length (tmp ++ group_bytes v)
                 = (List.length tmp + 2)%nat)
      by (rewrite length_app; reflexivity).
    destruct colonp as [c|].
    + destruct (Nat.ltb_spec 16 (List.length tmp + 2)) as [H | H]; [lia |].
      rewrite Hl.
      destruct (Nat.eqb_spec (List.length tmp + 2) 16) as [E | E]; [lia |].
      eexists; reflexivity.
    + destruct (Nat.ltb_spec 16 (List.length tmp + 2)) as [H | H]; [lia |].
      rewrite Hl.
      destruct (Nat.eqb_spec (List.length tmp + 2) 16) as [E | E]; [| lia].
      eexists; reflexivity.
  - apply dotted_decimal_form in Hq as (a & b & c & d & Ha & Hb & Hc & Hd & ->).
    rewrite inet_pton6_loop_quad by (auto; destruct colonp; lia).
    unfold inet_pton6_finish.
    change (0 <? 0)%nat with false; cbv iota.
    assert (Hl : List.length (tmp ++ [a; b; c; d])
                 = (List.length tmp + 4)%nat)
      by (rewrite length_app; reflexivity).
    rewrite Hl.
    destruct colonp as [k|].
    + destruct (Nat.eqb_spec (List.length tmp + 4) 16) as [E | E]; [lia |].
      eexists; reflexivity.
    + destruct (Nat.eqb_spec (List.length tmp + 4) 16) as [E | E]; [| lia].
      eexists; reflexivity.
Qed.

Lemma last_nonempty (t : string) (w : nat) :
  (last_group t /\ w = 1%nat) \/ (last_quad t /\ w = 2%nat) ->
  t <> EmptyString.
Proof.
  intros [[Hg _] | [(_ & _ & _ & ch & s & -> & _) _]] E; [| discriminate].
  subst t; discriminate.
Qed.

(** What follows a double colon. *)
Lemma inet_pton6_loop_tail (post : list string) (t : string) (w : nat)
    (tmp : list Z) (k : nat) :
  Forall is_group post ->
  (last_group t /\ w = 1%nat) \/ (last_quad t /\ w = 2%nat) \/
  (t = EmptyString /\ w = 0%nat /\ post = []) ->
  (List.length tmp + 2 * List.length post + 2 * w < 16)%nat ->
  exists r,
    inet_pton6_loop (String.append (colons post) t) tmp (Some k)
      (String.append (colons post) t) 0 0 = Some r.
Proof.
  intros Hpost Ht Hlen.
  destruct Ht as [Ht | [Ht | (-> & -> & ->)]].
  - destruct (inet_pton6_loop_colons post Hpost t tmp (Some k))
      as (bs & Hbs & ->);
      [apply (last_nonempty t w); auto | lia |].
    apply (inet_pton6_loop_last t w); [auto |].
    rewrite length_app, Hbs; lia.
  - destruct (inet_pton6_loop_colons post Hpost t tmp (Some k))
      as (bs & Hbs & ->);
      [apply (last_nonempty t w); auto | lia |].
    apply (inet_pton6_loop_last t w); [auto |].
    rewrite length_app, Hbs; lia.
  - cbn [colons String.append inet_pton6_loop]; unfold inet_pton6_finish.
    change (0 <? 0)%nat with false; cbv iota.
    destruct (Nat.eqb_spec (List.length tmp) 16) as [E | E];
      [cbn [List.length] in Hlen; lia |].
    eexists; reflexivity.
Qed.

Lemma inet_pton6_plain (s : string) :
  starts_plain s -> inet_pton6 s = inet_pton6_loop s [] None s 0 0.
Proof.
  intros (ch & s' & -> & Hc); unfold inet_pton6; now rewrite Hc.
Qed.

Lemma colons_starts_plain (g : string) (gs : list string) (rest : string) :
  is_group g -> starts_plain (String.append (colons (g :: gs)) rest).
Proof.
  intros Hg; cbn [colons]; rewrite append_assoc.
  now apply starts_plain_append, hex_group_starts_plain.
Qed.

(** A text in parts is accepted. *)
Lemma colon_hex_form_accepted (s : string) :
  colon_hex_form s -> exists r, inet_pton6 s = Some r.
Proof.
  intros (pre & comp & t & w & Hpre & Ht & -> & Hn).
  destruct comp as [post|]; cbn [base_text].
  - destruct Hn as [Hpost Hn].
    assert (Ht' : (last_group t /\ w = 1%nat) \/ (last_quad t /\ w = 2%nat) \/
                  (t = EmptyString /\ w = 0%nat /\ post = [])).
    { destruct Ht as [Ht | [Ht | (Ht & Hw & E)]]; [auto | auto |].
      right; right; injection E as ->; auto. }
    clear Ht; rename Ht' into Ht.
    destruct pre as [|g pre].
    + cbn [join_colon String.append].
      change (inet_pton6 (String ":" (String ":"
                (String.append (colons post) t))))
        with (inet_pton6_loop (String.append (colons post) t) []
                (Some 0%nat) (String.append (colons post) t) 0 0).
      apply (inet_pton6_loop_tail post t w); [exact Hpost | exact Ht |].
      cbn [List.length] in *; lia.
    + assert (E : String.append
                    (String.append (join_colon (g :: pre))
                       (String ":" (String ":" (colons post)))) t
                  = String.append (colons (g :: pre))
                      (String ":" (String.append (colons post) t))).
      { rewrite append_assoc; cbn [String.append].
        change (String ":" (String ":" (String.append (colons post) t)))
          with (String.append (String ":" (String ":" EmptyString))
                  (String.append (colons post) t)).
        rewrite <- append_assoc, <- colons_join, append_assoc by discriminate.
        reflexivity. }
      rewrite E, inet_pton6_plain
        by (apply colons_starts_plain; now inversion Hpre).
      destruct (inet_pton6_loop_colons (g :: pre) Hpre
                  (String ":" (String.append (colons post) t)) [] None)
        as (bs & Hbs & ->); [discriminate | cbn [List.length] in *; lia |].
      cbn [app].
      change (inet_pton6_loop (String ":" (String.append (colons post) t))
                bs None (String ":" (String.append (colons post) t)) 0 0)
        with (inet_pton6_loop (String.append (colons post) t) bs
                (Some (List.length bs)) (String.append (colons post) t) 0 0).
      apply (inet_pton6_loop_tail post t w); [exact Hpost | exact Ht |].
      rewrite Hbs; cbn [List.length] in *; lia.
  - destruct Hn as [Hn Hw].
    assert (Hlast : (last_group t /\ w = 1%nat) \/ (last_quad t /\ w = 2%nat)).
    { destruct Ht as [Ht | [Ht | (_ & -> & _)]]; [auto | auto | contradiction]. }
    destruct pre as [|g pre].
    { cbn [List.length] in Hn; destruct Hlast as [[_ ->] | [_ ->]]; lia. }
    rewrite inet_pton6_plain
      by (apply colons_starts_plain; now inversion Hpre).
    destruct (inet_pton6_loop_colons (g :: pre) Hpre t [] None)
      as (bs & Hbs & ->);
      [apply (last_nonempty t w); exact Hlast
      | cbn [List.length] in *; destruct Hlast as [[_ ->] | [_ ->]]; lia |].
    cbn [app]; apply (inet_pton6_loop_last t w); [exact Hlast |].
    rewrite Hbs; lia.
Qed.

(** ** Colon-hex text in its parts *)

Lemma groups_of_cons (quad : bool) (p q : string) (ps : list string) :
  groups_of quad (p :: q :: ps)
  = if hex_group p then option_map S (groups_of quad (q :: ps)) else None.
Proof. reflexivity. Qed.

Lemma dotted_decimal_last_quad (t : string) :
  hex_group t = false -> dotted_decimal t = true -> last_quad t.
Proof.
  intros Hg Hq; split; [exact Hg | split; [exact Hq |]].
  apply dotted_decimal_form in Hq as (a & b & c & d & _ & _ & _ & _ & ->).
  split; [| apply dotted_decimal_starts_plain].
  apply inet_ntop4_charfree; [unfold no_digit |]; lia.
Qed.

(** Pieces that stand for groups are groups and a last item. *)
Lemma groups_of_inv (quad : bool) (ps : list string) :
  forall n, groups_of quad ps = Some n ->
    ps = [] \/
    exists gs t w,
      ps = gs ++ [t] /\ Forall is_group gs /\
      ((last_group t /\ w = 1%nat) \/
       (quad = true /\ last_quad t /\ w = 2%nat)) /\
      n = (List.length gs + w)%nat.
Proof.
  induction ps as [|p ps IH]; intros n H; [now left | right].
  destruct ps as [|q ps].
  - cbn [groups_of] in H; exists [], p.
    destruct (hex_group p) eqn:Hg.
    + injection H as <-; exists 1%nat; repeat split; auto.
    + destruct quad; cbn [andb] in H; [| discriminate].
      destruct (dotted_decimal p) eqn:Hq; [| discriminate].
      injection H as <-; exists 2%nat; repeat split; auto.
      right; repeat split; auto; now apply dotted_decimal_last_quad.
  - rewrite groups_of_cons in H.
    destruct (hex_group p) eqn:Hg; [| discriminate].
    destruct (groups_of quad (q :: ps)) as [m|] eqn:E; [| discriminate].
    injection H as <-.
    destruct (IH m eq_refl) as [F | (gs & t & w & Hps & Hgs & Ht & ->)];
      [discriminate |].
    exists (p :: gs), t, w; rewrite Hps; repeat split; auto.
Qed.

Lemma join_colon_snoc (gs : list string) (t : string) :
  join_colon (gs ++ [t]) = String.append (colons gs) t.
Proof.
  induction gs as [|g gs IH]; [reflexivity |].
  cbn [app join_colon colons]; rewrite append_assoc.
  cbn [String.append]; rewrite <- IH.
  destruct (gs ++ [t]) as [|x l] eqn:E; [now destruct gs | reflexivity].
Qed.

(** A text is its pieces with colons between them. *)
Lemma join_colon_split_on (ps : list string) :
  forall s, split_on 58 s = ps -> join_colon ps = s.
Proof.
  induction ps as [|p ps IH]; intros s H;
    [now destruct (split_on_nonempty 58 s) |].
  destruct (split_on_inv _ _ _ _ H) as [_ Hs]; destruct ps as [|q qs].
  - now rewrite Hs.
  - destruct Hs as (ch & rest & Hc & -> & Hr).
    apply Z.eqb_eq, colon_char in Hc; subst ch.
    cbn [join_colon] in IH |- *; now rewrite (IH rest Hr).
Qed.

Lemma pieces_inv (quad : bool) (a : string) (n : nat) :
  groups_of quad (split_on 58 a) = Some n ->
  exists gs t w,
    Forall is_group gs /\
    ((last_group t /\ w = 1%nat) \/ (quad = true /\ last_quad t /\ w = 2%nat)) /\
    a = String.append (colons gs) t /\ n = (List.length gs + w)%nat.
Proof.
  intros H; apply groups_of_inv in H
    as [F | (gs & t & w & Hps & Hgs & Ht & ->)];
    [now destruct (split_on_nonempty 58 a) |].
  exists gs, t, w; repeat split; auto.
  rewrite <- join_colon_snoc; symmetry; now apply join_colon_split_on.
Qed.

Lemma cut_double_colon_inv (s : string) :
  forall a b, cut_double_colon s = Some (a, b) ->
    s = String.append a (String ":" (String ":" b)).
Proof.
  induction s as [|c1 s IH]; intros a b H; [discriminate |].
  destruct s as [|c2 s]; [discriminate |].
  rewrite cut_double_colon_eq in H.
  destruct ((code c1 =? 58) && (code c2 =? 58)) eqn:E.
  - injection H as <- <-; apply andb_true_iff in E as [E1 E2].
    apply colon_char in E1, E2; subst; reflexivity.
  - destruct (cut_double_colon (String c2 s)) as [[a' b']|]; [| discriminate].
    injection H as <- <-; cbn [String.append]; f_equal; now apply IH.
Qed.

(** Colon-hex text has the parts of its form. *)
Lemma colon_hex_parts (s : string) : colon_hex s = true -> colon_hex_form s.
Proof.
  unfold colon_hex; intros H.
  destruct (cut_double_colon s) as [[a b]|] eqn:Ecut.
  - apply cut_double_colon_inv in Ecut; subst s.
    destruct (groups_of false (colon_pieces a)) as [m|] eqn:Ea;
      [| discriminate].
    destruct (groups_of true (colon_pieces b)) as [n|] eqn:Eb;
      [| discriminate].
    apply Nat.leb_le in H.
    assert (Hpre : exists pre, Forall is_group pre /\ a = join_colon pre /\
                               m = List.length pre).
    { destruct a as [|ch a]; [exists []; repeat split; auto;
                              now injection Ea as <- |].
      cbn [colon_pieces] in Ea; apply pieces_inv in Ea
        as (gs & t & w & Hgs & [[Ht ->] | [F _]] & -> & ->); [| discriminate].
      exists (gs ++ [t]); split; [| split].
      - apply Forall_app; split; [exact Hgs | now constructor].
      - now rewrite join_colon_snoc.
      - rewrite length_app; reflexivity. }
    destruct Hpre as (pre & Hpre & -> & ->).
    destruct b as [|ch b].
    + injection Eb as <-.
      exists pre, (Some []), EmptyString, 0%nat.
      split; [exact Hpre | split; [right; right; auto |]].
      split; [cbn [base_text colons]; now rewrite append_nil_r |].
      split; [constructor | cbn [List.length]; lia].
    + cbn [colon_pieces] in Eb; apply pieces_inv in Eb
        as (post & t & w & Hpost & Ht & -> & ->).
      exists pre, (Some post), t, w.
      split; [exact Hpre | split].
      { destruct Ht as [Ht | (_ & Ht)]; [left | right; left]; exact Ht. }
      split; [| split; [exact Hpost | lia]].
      cbn [base_text]; rewrite append_assoc; reflexivity.
  - destruct (groups_of true (split_on 58 s)) as [n|] eqn:E; [| discriminate].
    apply Nat.eqb_eq in H; subst n.
    apply pieces_inv in E as (pre & t & w & Hpre & Ht & -> & Hn).
    exists pre, None, t, w.
    split; [exact Hpre | split].
    { destruct Ht as [Ht | (_ & Ht)]; [left | right; left]; exact Ht. }
    split; [reflexivity | split; [lia |]].
    destruct Ht as [[_ ->] | (_ & _ & ->)]; discriminate.
Qed.

(** [inet_pton6] accepts exactly colon-hex text. *)
Lemma colon_hex_inet_pton6 (s : string) :
  colon_hex s = true <-> exists r, inet_pton6 s = Some r.
Proof.
  split.
  - intros H; now apply colon_hex_form_accepted, colon_hex_parts.
  - intros [r H]; now apply inet_pton6_colon_hex in H.
Qed.

(** ** Literals by syntax and by [inet_pton]

    What [inet_pton] accepts of a family is the text with the syntax of
    that family, no more and no less. *)
Lemma literal_syntax (text : string) :
  (dotted_decimal (c_str text) = true
   <-> exists b, literal AF_INET text = Some b) /\
  (colon_hex (c_str text) = true
   <-> exists b, literal AF_INET6 text = Some b).
Proof.
  unfold literal; split; simpl.
  - apply dotted_decimal_inet_pton4.
  - apply colon_hex_inet_pton6.
Qed.

(** Text without the syntax of a family is no literal of it. *)
Lemma literal_none (text : string) :
  (dotted_decimal (c_str text) = false -> literal AF_INET text = None) /\
  (colon_hex (c_str text) = false -> literal AF_INET6 text = None).
Proof.
  destruct (literal_syntax text) as [H4 H6]; split; intros H.
  - destruct (literal AF_INET text) as [b|] eqn:E; [| reflexivity].
    assert (dotted_decimal (c_str text) = true) by (apply H4; eauto).
    congruence.
  - destruct (literal AF_INET6 text) as [b|] eqn:E; [| reflexivity].
    assert (colon_hex (c_str text) = true) by (apply H6; eauto).
    congruence.
Qed.

(** ** C5: text that is no literal *)

(** C5 as the specification has it, for every string that is no literal,
    does not hold: the string of nine characters [1.2.3.4], NUL, [x] is
    neither dotted-decimal nor colon-hex text, yet [is_ipv4] returns true
    for it and [set] returns 0 and stores 1.2.3.4, because [inet_pton] is
    given [data()] and reads up to the first NUL. *)
Lemma set_accepts_text_after_nul :
  String.length quad_nul_x = 9%nat /\
  nulfree quad_nul_x = false /\
  dotted_decimal quad_nul_x = false /\
  colon_hex quad_nul_x = false /\
  is_ipv4 quad_nul_x 0 = (true, 0) /\
  set socketaddr_default quad_nul_x 80 0
  = ((0, socketaddr_of "1.2.3.4" 80), 0) /\
  EAFNOSUPPORT <> 0.
Proof. repeat split; try reflexivity; discriminate. Qed.

(** C5 (amended): for a string [S] whose text before its first NUL, which
    is what [inet_pton] reads of [S.data()] and is [S] itself when [S]
    holds no NUL, is neither dotted-decimal nor colon-hex text, and every
    port [P], [set(S, P)] fails with EAFNOSUPPORT, sets [errno] to it and
    leaves the object as it was, and both [is_ipv4(S)] and [is_ipv6(S)]
    return false and leave [errno] alone. *)
Theorem set_rejects_non_literal (this : socketaddr) (S : string) (P e : Z) :
  dotted_decimal (c_str S) = false -> colon_hex (c_str S) = false ->
  set this S P e = ((EAFNOSUPPORT, this), EAFNOSUPPORT) /\
  is_ipv4 S e = (false, e) /\
  is_ipv6 S e = (false, e) /\
  (nulfree S = true -> c_str S = S).
Proof.
  intros H4 H6; destruct (literal_none S) as [L4 L6].
  specialize (L4 H4); specialize (L6 H6).
  split; [now apply set_neither |].
  unfold is_ipv4, is_ipv6; rewrite !is_literal, L4, L6 by auto.
  repeat split; apply c_str_nulfree.
Qed.

Lemma set_rejects_non_literal_witness :
  set (socketaddr_of "10.0.0.1" 53) "not-an-ip" 80 0
  = ((EAFNOSUPPORT, socketaddr_of "10.0.0.1" 53), EAFNOSUPPORT) /\
  is_ipv4 "not-an-ip" 0 = (false, 0) /\
  is_ipv6 "not-an-ip" 0 = (false, 0) /\
  (nulfree "not-an-ip" = true -> c_str "not-an-ip" = "not-an-ip"%string).
Proof.
  apply (set_rejects_non_literal (socketaddr_of "10.0.0.1" 53)
           "not-an-ip" 80 0); reflexivity.
Defined.

(** ** C6: the default-constructed address *)

(** C6: a default-constructed socketaddr has family AF_UNSPEC and
    all-zero storage, and on it [get_addr(buf)] and [get_port(port)] both
    return EAFNOSUPPORT, leaving their argument as it was. *)
Theorem default_constructed_is_unspecified (buf : string) (port e : Z) :
  get_family socketaddr_default = AF_UNSPEC /\
  List.length (sa socketaddr_default) = sizeof_sa /\
  Forall (fun b => b = 0) (sa socketaddr_default) /\
  fst (get_addr_buf socketaddr_default buf e) = (EAFNOSUPPORT, buf) /\
  fst (get_port_ref socketaddr_default port e) = (EAFNOSUPPORT, port).
Proof.
  assert (Hfam : sa_family socketaddr_default = AF_UNSPEC) by reflexivity.
  split; [exact Hfam |].
  split; [apply repeat_length |].
  split; [| split].
  - unfold socketaddr_default, memset0; cbn [sa].
    apply Forall_forall; intros b Hin; now apply repeat_spec in Hin.
  - rewrite get_addr_buf_unsupported;
      [reflexivity | rewrite Hfam; discriminate | rewrite Hfam; discriminate].
  - unfold get_port_ref; rewrite Hfam; reflexivity.
Qed.

(** ** C7: loading a native structure *)

(** C7: the overload of [set] that takes a pointer to a native
    [sockaddr], applied to a structure whose family field
    is neither AF_INET nor AF_INET6 leaves the default (AF_UNSPEC,
    all-zero) state; for AF_INET the storage becomes the first
    [sizeof(sockaddr_in)] bytes of the structure followed by zeros, for
    AF_INET6 its first [sizeof(sockaddr_in6)] bytes followed by zeros. *)
Theorem set_sockaddr_by_family (this : socketaddr) (raw : list Z) :
  (load_u16 raw 0 <> AF_INET -> load_u16 raw 0 <> AF_INET6 ->
   set_sockaddr this raw = socketaddr_default /\
   get_family (set_sockaddr this raw) = AF_UNSPEC) /\
  (load_u16 raw 0 = AF_INET -> (sizeof_sin <= List.length raw)%nat ->
   sa (set_sockaddr this raw)
   = firstn sizeof_sin raw ++ repeat 0 (sizeof_sa - sizeof_sin) /\
   List.length (sa (set_sockaddr this raw)) = sizeof_sa /\
   get_family (set_sockaddr this raw) = AF_INET) /\
  (load_u16 raw 0 = AF_INET6 -> (sizeof_sin6 <= List.length raw)%nat ->
   sa (set_sockaddr this raw)
   = firstn sizeof_sin6 raw ++ repeat 0 (sizeof_sa - sizeof_sin6) /\
   List.length (sa (set_sockaddr this raw)) = sizeof_sa /\
   get_family (set_sockaddr this raw) = AF_INET6).
Proof.
  assert (Hzero : set_family this AF_UNSPEC = socketaddr_default)
    by reflexivity.
  split; [| split].
  - intros H4 H6; unfold set_sockaddr.
    apply Z.eqb_neq in H4, H6; rewrite H4, H6, Hzero.
    split; reflexivity.
  - intros H4 Hlen; unfold set_sockaddr.
    rewrite H4, Hzero; change (AF_INET =? AF_INET) with true; cbv iota.
    assert (Hsa : memcpy (sa socketaddr_default) raw sizeof_sin
                  = firstn sizeof_sin raw ++ repeat 0 (sizeof_sa - sizeof_sin))
      by reflexivity.
    cbn [sa]; rewrite Hsa; repeat split.
    + rewrite length_app, length_firstn, repeat_length.
      unfold sizeof_sa, sizeof_sin in *; lia.
    + unfold get_family, sa_family, load_u16 in *; cbn [sa].
      unfold sizeof_sin in *.
      do 2 (destruct raw as [|? raw]; [simpl in Hlen; lia |]).
      exact H4.
  - intros H6 Hlen; unfold set_sockaddr.
    rewrite H6, Hzero; change (AF_INET6 =? AF_INET) with false;
      change (AF_INET6 =? AF_INET6) with true; cbv iota.
    assert (Hsa : memcpy (sa socketaddr_default) raw sizeof_sin6
                  = firstn sizeof_sin6 raw
                    ++ repeat 0 (sizeof_sa - sizeof_sin6))
      by reflexivity.
    cbn [sa]; rewrite Hsa; repeat split.
    + rewrite length_app, length_firstn, repeat_length.
      unfold sizeof_sa, sizeof_sin6 in *; lia.
    + unfold get_family, sa_family, load_u16 in *; cbn [sa].
      unfold sizeof_sin6 in *.
      do 2 (destruct raw as [|? raw]; [simpl in Hlen; lia |]).
      exact H6.
Qed.

Lemma set_sockaddr_by_family_witness :
  (set_sockaddr (socketaddr_of "::1" 443) (repeat 0 16) = socketaddr_default /\
   get_family (set_sockaddr (socketaddr_of "::1" 443) (repeat 0 16))
   = AF_UNSPEC) /\
  (sa (set_sockaddr socketaddr_default (sa (socketaddr_of "10.0.0.1" 53)))
   = firstn sizeof_sin (sa (socketaddr_of "10.0.0.1" 53))
     ++ repeat 0 (sizeof_sa - sizeof_sin) /\
   List.length
     (sa (set_sockaddr socketaddr_default (sa (socketaddr_of "10.0.0.1" 53))))
   = sizeof_sa /\
   get_family
     (set_sockaddr socketaddr_default (sa (socketaddr_of "10.0.0.1" 53)))
   = AF_INET).
Proof.
  split.
  - apply (set_sockaddr_by_family (socketaddr_of "::1" 443) (repeat 0 16));
      vm_compute; discriminate.
  - apply (set_sockaddr_by_family socketaddr_default
             (sa (socketaddr_of "10.0.0.1" 53))).
    + reflexivity.
    + vm_compute; lia.
Defined.

(** ** C8: errno *)

(** C8 as stated fails: a failing call stores its error code in errno. *)
Lemma failing_calls_overwrite_errno :
  set_addr socketaddr_default "127.0.0.1" 0
  = ((EAFNOSUPPORT, socketaddr_default), EAFNOSUPPORT) /\
  set_port socketaddr_default 80 0
  = ((EAFNOSUPPORT, socketaddr_default), EAFNOSUPPORT) /\
  set socketaddr_default "not-an-ip" 80 0
  = ((EAFNOSUPPORT, socketaddr_default), EAFNOSUPPORT) /\
  get_addr_buf socketaddr_default EmptyString 0
  = ((EAFNOSUPPORT, EmptyString), EAFNOSUPPORT) /\
  EAFNOSUPPORT <> 0.
Proof. repeat split; try reflexivity; discriminate. Qed.

(** C8 (amended): each fallible operation returns its outcome as its
    return value.  [set_addr], [set_port], [set] and [get_addr(buf)]
    leave errno as it was when they return 0 and store the returned error
    code in errno when they fail; [get_port(port)] never changes errno. *)
Theorem errno_written_exactly_on_failure
    (this : socketaddr) (ip addr buf : string) (port p e : Z) :
  wf this ->
  snd (set_addr this ip e)
  = (if fst (fst (set_addr this ip e)) =? 0 then e
     else fst (fst (set_addr this ip e))) /\
  snd (set_port this port e)
  = (if fst (fst (set_port this port e)) =? 0 then e
     else fst (fst (set_port this port e))) /\
  snd (set this addr port e)
  = (if fst (fst (set this addr port e)) =? 0 then e
     else fst (fst (set this addr port e))) /\
  snd (get_addr_buf this buf e)
  = (if fst (fst (get_addr_buf this buf e)) =? 0 then e
     else fst (fst (get_addr_buf this buf e))) /\
  snd (get_port_ref this p e) = e.
Proof.
  intros Hwf.
  split; [| split; [| split; [| split]]].
  - unfold set_addr, bind, inet_pton.
    destruct (sa_family this =? AF_INET).
    + unfold ret; destruct (inet_pton4 (c_str ip)); reflexivity.
    + destruct (sa_family this =? AF_INET6); [| reflexivity].
      unfold ret; destruct (inet_pton6 (c_str ip)); reflexivity.
  - unfold set_port.
    destruct (sa_family this =? AF_INET); [reflexivity |].
    destruct (sa_family this =? AF_INET6); reflexivity.
  - destruct (literal AF_INET addr) as [b4|] eqn:E4.
    + rewrite (set_ipv4 this addr port e b4 E4); reflexivity.
    + destruct (literal AF_INET6 addr) as [b6|] eqn:E6.
      * rewrite (set_ipv6 this addr port e b6 E6); reflexivity.
      * rewrite (set_neither this addr port e E4 E6); reflexivity.
  - destruct (Z.eq_dec (sa_family this) AF_INET) as [E4 | N4].
    + rewrite (get_addr_buf_ipv4 this buf e Hwf E4); reflexivity.
    + destruct (Z.eq_dec (sa_family this) AF_INET6) as [E6 | N6].
      * rewrite (get_addr_buf_ipv6 this buf e Hwf E6); reflexivity.
      * rewrite (get_addr_buf_unsupported this buf e N4 N6); reflexivity.
  - unfold get_port_ref.
    destruct (sa_family this =? AF_INET); [reflexivity |].
    destruct (sa_family this =? AF_INET6); reflexivity.
Qed.

Lemma errno_written_exactly_on_failure_witness :
  let this := socketaddr_of "10.0.0.1" 53 in
  snd (set_addr this "10.0.0.256" 7) = EINVAL /\
  snd (set_port this 80 7) = 7 /\
  snd (set this "::1" 443 7) = 7 /\
  snd (get_addr_buf this EmptyString 7) = 7 /\
  snd (get_port_ref this 0 7) = 7.
Proof.
  exact (errno_written_exactly_on_failure (socketaddr_of "10.0.0.1" 53)
           "10.0.0.256" "::1" EmptyString 80 0 7
           (proj1 (proj2 wf_socketaddr_of_examples))).
Defined.

(** ** C9: the value-returning accessors *)

Lemma get_port_unsupported (this : socketaddr) (e : Z) :
  sa_family this <> AF_INET -> sa_family this <> AF_INET6 ->
  get_port this e = (0, e).
Proof.
  intros H4 H6; unfold get_port, get_port_ref, bind.
  apply Z.eqb_neq in H4, H6; rewrite H4, H6; reflexivity.
Qed.

(** On a stored address [get_addr()] returns a non-empty text and leaves
    errno alone. *)
Lemma get_addr_stored (this : socketaddr) (e : Z) :
  wf this -> sa_family this = AF_INET \/ sa_family this = AF_INET6 ->
  snd (get_addr this e) = e /\ fst (get_addr this e) <> EmptyString.
Proof.
  intros Hwf [E4 | E6]; unfold get_addr, bind.
  - rewrite (get_addr_buf_ipv4 this EmptyString e Hwf E4); split;
      [reflexivity |].
    cbn [fst snd ret]; intros Hempty.
    pose proof (inet_ntop4_nonempty (peek (sa this) off_sin_addr 4)) as H.
    rewrite Hempty in H; simpl in H; lia.
  - rewrite (get_addr_buf_ipv6 this EmptyString e Hwf E6); split;
      [reflexivity |].
    cbn [fst snd ret]; intros Hempty.
    destruct (wf_peek this off_sin6_addr 16 Hwf) as [Hl _];
      [unfold sizeof_sa, off_sin6_addr; lia |].
    pose proof (inet_ntop6_nonempty _ Hl) as H.
    rewrite Hempty in H; simpl in H; lia.
Qed.

(** C9 as stated fails for [get_addr()]: the failure leaves EAFNOSUPPORT
    in errno and the empty string, which a stored address does not
    produce. *)
Lemma get_addr_failure_is_visible :
  get_addr socketaddr_default 0 = (EmptyString, EAFNOSUPPORT) /\
  get_addr (socketaddr_of "0.0.0.0" 0) 0 = ("0.0.0.0"%string, 0) /\
  get_port socketaddr_default 0 = (0, 0) /\
  get_port (socketaddr_of "0.0.0.0" 0) 0 = (0, 0) /\
  EAFNOSUPPORT <> 0.
Proof. repeat split; try reflexivity; discriminate. Qed.

(** C9 (amended): when the family is neither AF_INET nor AF_INET6 the
    value-returning accessors drop the error code: [get_addr()] returns
    the empty string and [get_port()] returns 0.  [get_port()] leaves no
    trace: errno is unchanged and 0 is also what an address with port 0
    returns.  [get_addr()] leaves EAFNOSUPPORT in errno, whereas on an
    IPv4 or IPv6 address it leaves errno unchanged and returns a non-empty
    text. *)
Theorem value_accessors_on_unsupported_family (this : socketaddr) (e : Z) :
  sa_family this <> AF_INET -> sa_family this <> AF_INET6 ->
  get_addr this e = (EmptyString, EAFNOSUPPORT) /\
  get_port this e = (0, e) /\
  (get_family (socketaddr_of "0.0.0.0" 0) = AF_INET /\
   get_port (socketaddr_of "0.0.0.0" 0) e = (0, e)) /\
  (forall stored : socketaddr,
     wf stored ->
     sa_family stored = AF_INET \/ sa_family stored = AF_INET6 ->
     snd (get_addr stored e) = e /\
     fst (get_addr stored e) <> EmptyString).
Proof.
  intros H4 H6.
  split; [| split; [| split]].
  - unfold get_addr, bind.
    rewrite (get_addr_buf_unsupported this EmptyString e H4 H6); reflexivity.
  - now apply get_port_unsupported.
  - split; reflexivity.
  - intros stored; apply get_addr_stored.
Qed.

Lemma value_accessors_on_unsupported_family_witness :
  get_addr socketaddr_default 0 = (EmptyString, EAFNOSUPPORT) /\
  get_port socketaddr_default 0 = (0, 0) /\
  (get_family (socketaddr_of "0.0.0.0" 0) = AF_INET /\
   get_port (socketaddr_of "0.0.0.0" 0) 0 = (0, 0)) /\
  (forall stored : socketaddr,
     wf stored ->
     sa_family stored = AF_INET \/ sa_family stored = AF_INET6 ->
     snd (get_addr stored 0) = 0 /\
     fst (get_addr stored 0) <> EmptyString).
Proof.
  apply (value_accessors_on_unsupported_family socketaddr_default 0);
    vm_compute; discriminate.
Defined.

(** ** C10: [set] on text that is no literal *)



(** * Further properties of the specification *)

(** X1: [is_ipv4(ip)] is true exactly when [ip], up to its first NUL, is the
    dotted-decimal text of four bytes (no leading zeros), and it leaves
    errno alone. *)
Theorem is_ipv4_dotted_quads (ip : string) (e : Z) :
  (fst (is_ipv4 ip e) = true <->
   exists a b c d,
     byte a /\ byte b /\ byte c /\ byte d /\
     c_str ip = inet_ntop4 [a; b; c; d]) /\
  snd (is_ipv4 ip e) = e.
Proof.
  unfold is_ipv4; rewrite is_literal by now left.
  unfold literal; simpl; split; [split |]; try reflexivity.
  - destruct (inet_pton4 (c_str ip)) as [r|] eqn:E; [| discriminate].
    intros _; destruct (inet_pton4_sound _ _ E) as (Hl & Hb & Hrt).
    explode_list r 4.
    inversion Hb as [|? ? Ha Hb1]; inversion Hb1 as [|? ? Hb' Hb2];
      inversion Hb2 as [|? ? Hc Hb3]; inversion Hb3 as [|? ? Hd _]; subst.
    eauto 10.
  - intros (a & b & c & d & Ha & Hb & Hc & Hd & ->).
    now rewrite inet_pton4_complete.
Qed.

(** X2: [set_family(fam)] zeroes the storage and stores the family tag. *)
Theorem set_family_resets (this : socketaddr) (fam : Z) :
  uint16 fam ->
  sa (set_family this fam)
  = [fam mod 256; fam / 256] ++ repeat 0 (sizeof_sa - 2) /\
  get_family (set_family this fam) = fam /\
  wf (set_family this fam).
Proof.
  unfold uint16; intros Hfam.
  assert (Hhi : (fam / 256) mod 256 = fam / 256)
    by (apply Z.mod_small; Z.to_euclidean_division_equations; lia).
  assert (Hsa : sa (set_family this fam)
                = [fam mod 256; fam / 256] ++ repeat 0 (sizeof_sa - 2)).
  { unfold set_family, store_u16; cbn [sa]; rewrite Hhi; reflexivity. }
  split; [exact Hsa | split].
  - unfold get_family, sa_family, load_u16; rewrite Hsa; cbn [app nth].
    Z.to_euclidean_division_equations; lia.
  - split; rewrite Hsa.
    + reflexivity.
    + apply Forall_app; split; [| apply Forall_byte_repeat].
      repeat (constructor; [unfold byte; Z.to_euclidean_division_equations; lia |]).
      constructor.
Qed.

Lemma set_family_resets_witness :
  sa (set_family (socketaddr_of "::1" 443) AF_INET)
  = [AF_INET mod 256; AF_INET / 256] ++ repeat 0 (sizeof_sa - 2) /\
  get_family (set_family (socketaddr_of "::1" 443) AF_INET) = AF_INET /\
  wf (set_family (socketaddr_of "::1" 443) AF_INET).
Proof.
  apply (set_family_resets (socketaddr_of "::1" 443) AF_INET).
  unfold uint16, AF_INET; lia.
Defined.

(** X3: [set_port(port)] stores the port in network byte order in bytes 2 and
    3, changes no other byte, and [get_port()] reads it back; without an
    IPv4 or IPv6 family it fails with EAFNOSUPPORT and changes nothing. *)
Theorem set_port_network_order (this : socketaddr) (port e : Z) :
  wf this -> uint16 port ->
  (sa_family this = AF_INET \/ sa_family this = AF_INET6 ->
   exists this',
     set_port this port e = ((0, this'), e) /\
     nth 2 (sa this') 0 = port / 256 /\
     nth 3 (sa this') 0 = port mod 256 /\
     (forall i, i <> 2%nat -> i <> 3%nat ->
                nth i (sa this') 0 = nth i (sa this) 0) /\
     get_port this' e = (port, e)) /\
  (sa_family this <> AF_INET -> sa_family this <> AF_INET6 ->
   set_port this port e = ((EAFNOSUPPORT, this), EAFNOSUPPORT)).
Proof.
  intros [Hlen Hbytes] Hport; split.
  - intros Hfam.
    assert (Hset : set_port this port e
                   = ((0, {| sa := store_u16 (sa this) off_sin_port
                                     (hton port) |}), e)).
    { unfold set_port; destruct Hfam as [-> | ->]; reflexivity. }
    eexists; split; [exact Hset |].
    destruct this as [m]; cbn [sa] in *.
    unfold sizeof_sa in Hlen.
    destruct m as [|b0 [|b1 [|b2 [|b3 m]]]]; try discriminate.
    assert (Hb01 : (b0 = AF_INET \/ b0 = AF_INET6) /\ b1 = 0).
    { inversion Hbytes as [|? ? Hr0 Hbytes1];
        inversion Hbytes1 as [|? ? Hr1 _].
      unfold sa_family, load_u16, byte, AF_INET, AF_INET6 in *.
      cbn [sa nth] in Hfam; lia. }
    destruct Hb01 as [Hb0 ->].
    unfold store_u16, poke, off_sin_port;
      cbn [firstn skipn app List.length Nat.add].
    unfold uint16 in Hport.
    assert (Hhi : hton port mod 256 = port / 256)
      by (unfold hton; Z.to_euclidean_division_equations; lia).
    assert (Hlo : (hton port / 256) mod 256 = port mod 256)
      by (unfold hton; Z.to_euclidean_division_equations; lia).
    split; [exact Hhi | split; [exact Hlo | split]].
    + intros [|[|[|[|i]]]] H2 H3; try reflexivity; contradiction.
    + apply (get_port_stored _ port e b0 m);
        [exact Hport | exact Hb0 | reflexivity].
  - intros H4 H6; unfold set_port.
    apply Z.eqb_neq in H4, H6; rewrite H4, H6; reflexivity.
Qed.

Lemma set_port_network_order_witness :
  exists this',
    set_port (socketaddr_of "10.0.0.1" 53) 8080 0 = ((0, this'), 0) /\
    nth 2 (sa this') 0 = 8080 / 256 /\
    nth 3 (sa this') 0 = 8080 mod 256 /\
    (forall i, i <> 2%nat -> i <> 3%nat ->
               nth i (sa this') 0 = nth i (sa (socketaddr_of "10.0.0.1" 53)) 0) /\
    get_port this' 0 = (8080, 0).
Proof.
  apply (set_port_network_order (socketaddr_of "10.0.0.1" 53) 8080 0).
  - apply wf_socketaddr_of_examples.
  - unfold uint16; lia.
  - left; reflexivity.
Defined.

(** X4: on an address whose family is neither AF_INET nor AF_INET6 the stream
    operator writes the fixed text and touches neither errno nor the
    address. *)
Theorem operator_shl_unknown_family (o : string) (addr : socketaddr) (e : Z) :
  sa_family addr <> AF_INET -> sa_family addr <> AF_INET6 ->
  operator_shl o addr e
  = (String.append o "error: unknown address family", e).
Proof.
  intros H4 H6; unfold operator_shl, get_family.
  apply Z.eqb_neq in H4, H6; rewrite H4, H6; reflexivity.
Qed.

Lemma operator_shl_unknown_family_witness :
  operator_shl "peer " socketaddr_default 0
  = ("peer error: unknown address family"%string, 0).
Proof.
  apply (operator_shl_unknown_family "peer " socketaddr_default 0);
    vm_compute; discriminate.
Defined.

(** X5: the text and the port read from an address built by [set] build
    the same address again: when [set(L, P)] has succeeded on [this],
    [set(this.get_addr(), this.get_port())] succeeds on any other object
    and leaves in it the very bytes of [this], so that [==] holds. *)
Theorem set_of_get_addr_get_port
    (this that : socketaddr) (L : string) (P e : Z) (b : list Z) :
  uint16 P ->
  literal AF_INET L = Some b \/ literal AF_INET6 L = Some b ->
  exists A B,
    set this L P e = ((0, A), e) /\
    set that (fst (get_addr A e)) (fst (get_port A e)) e = ((0, B), e) /\
    sa B = sa A /\
    operator_eq B A = true.
Proof.
  intros HP [H | H].
  - pose proof H as H'; unfold literal in H'; simpl in H'.
    destruct (inet_pton4_sound _ _ H') as (Hl & Hb & Hrt).
    pose proof (wf_set_ipv4 P b Hl Hb) as Hwf.
    set (A := {| sa := _ |}) in *.
    exists A, A; split; [apply set_ipv4; exact H |].
    assert (Hpeek : peek (sa A) off_sin_addr 4 = b)
      by (explode_list b 4; reflexivity).
    assert (Hga : get_addr A e = (c_str L, e)).
    { unfold get_addr, bind.
      rewrite (get_addr_buf_ipv4 A EmptyString e Hwf eq_refl), Hpeek, Hrt.
      reflexivity. }
    assert (Hgp : get_port A e = (P, e)).
    { eapply get_port_stored; [exact HP | left; reflexivity | reflexivity]. }
    rewrite Hga, Hgp; cbn [fst]; split; [| split; [reflexivity |]].
    + apply set_ipv4; unfold literal; simpl.
      now rewrite (c_str_nulfree _ (nulfree_c_str L)).
    + unfold operator_eq; now rewrite memcmp_refl.
  - pose proof H as H'; unfold literal in H'; simpl in H'.
    destruct (inet_pton6_sound _ _ H') as (Hl & Hb).
    pose proof (wf_set_ipv6 P b Hl Hb) as Hwf.
    set (A := {| sa := _ |}) in *.
    exists A, A; split; [apply set_ipv6; exact H |].
    assert (Hpeek : peek (sa A) off_sin6_addr 16 = b)
      by (explode_list b 16; reflexivity).
    assert (Hga : get_addr A e = (inet_ntop6 b, e)).
    { unfold get_addr, bind.
      rewrite (get_addr_buf_ipv6 A EmptyString e Hwf eq_refl), Hpeek.
      reflexivity. }
    assert (Hgp : get_port A e = (P, e)).
    { eapply get_port_stored; [exact HP | right; reflexivity | reflexivity]. }
    rewrite Hga, Hgp; cbn [fst]; split; [| split; [reflexivity |]].
    + apply set_ipv6; unfold literal; simpl.
      rewrite c_str_nulfree by (now apply inet_ntop6_text).
      now apply inet_pton6_inet_ntop6.
    + unfold operator_eq; now rewrite memcmp_refl.
Qed.

Lemma set_of_get_addr_get_port_witness :
  exists A B,
    set socketaddr_default "0:0:0:0:0:0:0:1" 443 0 = ((0, A), 0) /\
    set (socketaddr_of "10.0.0.1" 53) (fst (get_addr A 0))
      (fst (get_port A 0)) 0 = ((0, B), 0) /\
    sa B = sa A /\
    operator_eq B A = true.
Proof.
  apply (set_of_get_addr_get_port socketaddr_default
           (socketaddr_of "10.0.0.1" 53) "0:0:0:0:0:0:0:1" 443 0
           [0;0;0;0;0;0;0;0;0;0;0;0;0;0;0;1]).
  - unfold uint16; lia.
  - right; reflexivity.
Defined.


(** * Further properties of the code *)

(** ** Order of the stored bytes *)

Lemma hton_bytes (p : Z) :
  uint16 p ->
  hton p mod 256 = p / 256 /\ (hton p / 256) mod 256 = p mod 256.
Proof.
  unfold uint16, hton; intros Hp.
  split; Z.to_euclidean_division_equations; lia.
Qed.

Lemma memcmp_cons (x : Z) (a b : list Z) (n : nat) :
  memcmp (x :: a) (x :: b) (S n) = memcmp a b n.
Proof. cbn [memcmp]; now rewrite Z.eqb_refl. Qed.

(** Two blocks of the same length, then the rest. *)
Lemma memcmp_app (a b c d : list Z) (m : nat) :
  List.length a = List.length b ->
  memcmp (a ++ c) (b ++ d) (List.length a + m)
  = if memcmp a b (List.length a) =? 0 then memcmp c d m
    else memcmp a b (List.length a).
Proof.
  revert b; induction a as [|x a IH]; intros [|y b] Hl; try discriminate.
  - reflexivity.
  - injection Hl as Hl; cbn [List.length Nat.add app memcmp].
    destruct (Z.eqb_spec x y) as [-> | Hne]; [now apply IH |].
    destruct (Z.eqb_spec (x - y) 0); [lia | reflexivity].
Qed.

Lemma be_value_acc (b : list Z) :
  forall acc,
    be_value b acc = acc * 256 ^ Z.of_nat (List.length b) + be_value b 0.
Proof.
  induction b as [|x b IH]; intros acc; cbn [be_value List.length].
  - simpl; lia.
  - rewrite (IH (acc * 256 + x)), (IH (0 * 256 + x)).
    rewrite Nat2Z.inj_succ, Z.pow_succ_r by lia; lia.
Qed.

Lemma be_value_bound (b : list Z) :
  Forall byte b -> 0 <= be_value b 0 < 256 ^ Z.of_nat (List.length b).
Proof.
  induction 1 as [|x b Hx Hb IH]; cbn [be_value List.length].
  - simpl; lia.
  - rewrite be_value_acc, Nat2Z.inj_succ, Z.pow_succ_r by lia.
    unfold byte in Hx; nia.
Qed.

(** [memcmp] orders byte strings of one length as the numbers they are,
    most significant byte first. *)
Lemma memcmp_be_value (a : list Z) :
  forall b,
    List.length a = List.length b -> Forall byte a -> Forall byte b ->
    (memcmp a b (List.length a) < 0 <-> be_value a 0 < be_value b 0) /\
    (memcmp a b (List.length a) = 0 <-> be_value a 0 = be_value b 0).
Proof.
  induction a as [|x a IH]; intros [|y b] Hl Ha Hb; try discriminate.
  - simpl; lia.
  - injection Hl as Hl.
    inversion Ha as [|? ? Hx Ha']; inversion Hb as [|? ? Hy Hb']; subst.
    cbn [List.length memcmp be_value].
    rewrite (be_value_acc a (0 * 256 + x)), (be_value_acc b (0 * 256 + y)).
    pose proof (be_value_bound a Ha') as Bx.
    pose proof (be_value_bound b Hb') as By.
    rewrite <- Hl in *.
    set (p := 256 ^ Z.of_nat (List.length a)) in *.
    destruct (Z.eqb_spec x y) as [-> | Hne].
    + destruct (IH b Hl Ha' Hb') as [IH1 IH2].
      split; [rewrite IH1 | rewrite IH2]; lia.
    + unfold byte in Hx, Hy; split; split; intros H; nia.
Qed.

(** The two bytes of a port in the storage order the port as a number. *)
Lemma port_bytes_lt (P Q : Z) :
  uint16 P -> uint16 Q -> P < Q ->
  P / 256 < Q / 256 \/ (P / 256 = Q / 256 /\ P mod 256 < Q mod 256).
Proof.
  unfold uint16; intros HP HQ Hlt.
  Z.to_euclidean_division_equations; lia.
Qed.

Lemma memcmp_port (f hp lp hq lq : Z) (r1 r2 : list Z) (n : nat) :
  hp < hq \/ (hp = hq /\ lp < lq) ->
  memcmp (f :: 0 :: hp :: lp :: r1) (f :: 0 :: hq :: lq :: r2)
    (S (S (S (S n)))) < 0.
Proof.
  intros H; rewrite !memcmp_cons; cbn [memcmp].
  destruct (Z.eqb_spec hp hq) as [E | E]; [| lia].
  destruct (Z.eqb_spec lp lq) as [E' | E']; lia.
Qed.

Lemma operator_lt_asym (a b : socketaddr) :
  operator_lt a b = true -> operator_lt b a = false.
Proof.
  unfold operator_lt; rewrite (memcmp_opp (sa a) (sa b)).
  intros H; apply Z.ltb_lt in H; apply Z.ltb_ge; lia.
Qed.

(** X6: addresses built by [set] sort by family first and by port next.
    Every IPv4 address is below every IPv6 address whatever the two ports
    [R] and [S] are; and with ports [P < Q], an IPv4 address with port
    [P] is below every IPv4 address with port [Q] whatever the two
    addresses are, and an IPv6 address with port [P] is below every IPv6
    address with port [Q]. *)
Theorem operator_lt_family_then_port
    (t1 t2 t3 t4 : socketaddr) (L M N O : string) (P Q R S e : Z)
    (b c d g : list Z) :
  uint16 P -> uint16 Q -> P < Q ->
  literal AF_INET L = Some b -> literal AF_INET M = Some c ->
  literal AF_INET6 N = Some d -> literal AF_INET6 O = Some g ->
  let A4 := snd (fst (set t1 L P e)) in
  let B4 := snd (fst (set t2 M Q e)) in
  let A6 := snd (fst (set t3 N P e)) in
  let B6 := snd (fst (set t4 O Q e)) in
  let C4 := snd (fst (set t1 L R e)) in
  let C6 := snd (fst (set t3 N S e)) in
  operator_lt C4 C6 = true /\ operator_lt C6 C4 = false /\
  operator_lt A4 B4 = true /\ operator_lt B4 A4 = false /\
  operator_lt B4 A6 = true /\ operator_lt A6 B4 = false /\
  operator_lt A6 B6 = true /\ operator_lt B6 A6 = false.
Proof.
  intros HP HQ Hlt HL HM HN HO A4 B4 A6 B6 C4 C6; subst A4 B4 A6 B6 C4 C6.
  destruct (hton_bytes P HP) as [HhP HlP].
  destruct (hton_bytes Q HQ) as [HhQ HlQ].
  pose proof (port_bytes_lt P Q HP HQ Hlt) as Hb.
  rewrite !(set_ipv4 _ _ _ _ _ HL), (set_ipv4 _ _ _ _ _ HM),
    !(set_ipv6 _ _ _ _ _ HN), (set_ipv6 _ _ _ _ _ HO); cbn [fst snd].
  rewrite HhP, HlP, HhQ, HlQ.
  assert (H1 : forall x y, operator_lt x y = true ->
                 operator_lt x y = true /\ operator_lt y x = false)
    by (intros x y H; split; [exact H | now apply operator_lt_asym]).
  assert (Hfam : forall x y,
            operator_lt {| sa := 2 :: x |} {| sa := 10 :: y |} = true)
    by reflexivity.
  split; [apply Hfam | split; [apply operator_lt_asym, Hfam |]].
  split; [| split; [| split; [| split]]];
    try (apply H1); try (apply operator_lt_asym).
  - unfold operator_lt, sizeof_sa; cbn [sa app].
    apply Z.ltb_lt, memcmp_port, Hb.
  - unfold operator_lt, sizeof_sa; cbn [sa app].
    apply Z.ltb_lt, memcmp_port, Hb.
  - apply Hfam.
  - apply Hfam.
  - unfold operator_lt, sizeof_sa; cbn [sa app].
    apply Z.ltb_lt, memcmp_port, Hb.
Qed.

Lemma operator_lt_family_then_port_witness :
  let A4 := snd (fst (set socketaddr_default "10.0.0.9" 53 0)) in
  let B4 := snd (fst (set socketaddr_default "10.0.0.1" 80 0)) in
  let A6 := snd (fst (set socketaddr_default "::2" 53 0)) in
  let B6 := snd (fst (set socketaddr_default "::1" 80 0)) in
  let C4 := snd (fst (set socketaddr_default "10.0.0.9" 65535 0)) in
  let C6 := snd (fst (set socketaddr_default "::2" 0 0)) in
  operator_lt C4 C6 = true /\ operator_lt C6 C4 = false /\
  operator_lt A4 B4 = true /\ operator_lt B4 A4 = false /\
  operator_lt B4 A6 = true /\ operator_lt A6 B4 = false /\
  operator_lt A6 B6 = true /\ operator_lt B6 A6 = false.
Proof.
  apply (operator_lt_family_then_port
           socketaddr_default socketaddr_default socketaddr_default
           socketaddr_default "10.0.0.9" "10.0.0.1" "::2" "::1" 53 80
           65535 0 0
           [10; 0; 0; 9] [10; 0; 0; 1]
           [0;0;0;0;0;0;0;0;0;0;0;0;0;0;0;2]
           [0;0;0;0;0;0;0;0;0;0;0;0;0;0;0;1]);
    first [reflexivity | unfold uint16; lia].
Defined.

(** X7: two addresses built by [set] with literals of one family and the
    same port are ordered as their addresses read as numbers, most
    significant byte first: [a < b] exactly when the address of [a] is
    the smaller number, and [a == b] exactly when the numbers are the
    same. *)
Theorem operator_lt_same_port_by_address
    (this that : socketaddr) (L M : string) (P e e' f : Z) (b c : list Z) :
  f = AF_INET \/ f = AF_INET6 ->
  literal f L = Some b -> literal f M = Some c ->
  let A := snd (fst (set this L P e)) in
  let B := snd (fst (set that M P e')) in
  (operator_lt A B = true <-> be_value b 0 < be_value c 0) /\
  (operator_eq A B = true <-> be_value b 0 = be_value c 0).
Proof.
  intros Hf HL HM A B; subst A B.
  assert (Hcmp : forall n pre,
            List.length b = n -> List.length c = n ->
            Forall byte b -> Forall byte c ->
            forall k z,
              memcmp (pre ++ b ++ z) (pre ++ c ++ z)
                (List.length pre + (n + k))
              = if memcmp b c n =? 0 then 0 else memcmp b c n).
  { intros n pre Hb Hc Fb Fc k z.
    rewrite (memcmp_app pre pre) by reflexivity.
    rewrite memcmp_refl; cbn [Z.eqb].
    rewrite <- Hb, (memcmp_app b c) by congruence.
    now rewrite memcmp_refl. }
  destruct Hf as [-> | ->].
  - pose proof HL as HL'; pose proof HM as HM'.
    unfold literal in HL', HM'; simpl in HL', HM'.
    destruct (inet_pton4_sound _ _ HL') as (Hlb & Hbb & _).
    destruct (inet_pton4_sound _ _ HM') as (Hlc & Hbc & _).
    rewrite (set_ipv4 _ _ _ _ _ HL), (set_ipv4 _ _ _ _ _ HM); cbn [fst snd].
    unfold operator_lt, operator_eq; cbn [sa].
    pose proof (Hcmp 4%nat [2; 0; hton P mod 256; (hton P / 256) mod 256]
                  Hlb Hlc Hbb Hbc 120%nat (repeat 0 120)) as Hc'.
    change (List.length _ + (4 + 120))%nat with sizeof_sa in Hc'.
    rewrite Hc'; clear Hc'.
    destruct (memcmp_be_value b c ltac:(congruence) Hbb Hbc) as [H1 H2].
    rewrite Hlb in H1, H2; rewrite <- H1, <- H2.
    destruct (Z.eqb_spec (memcmp b c 4) 0) as [E | E].
    + rewrite E; split; split; intros; try reflexivity; try lia; discriminate.
    + rewrite Z.ltb_lt, Z.eqb_eq; split; reflexivity.
  - pose proof HL as HL'; pose proof HM as HM'.
    unfold literal in HL', HM'; simpl in HL', HM'.
    destruct (inet_pton6_sound _ _ HL') as (Hlb & Hbb).
    destruct (inet_pton6_sound _ _ HM') as (Hlc & Hbc).
    rewrite (set_ipv6 _ _ _ _ _ HL), (set_ipv6 _ _ _ _ _ HM); cbn [fst snd].
    unfold operator_lt, operator_eq; cbn [sa].
    pose proof (Hcmp 16%nat
                  [10; 0; hton P mod 256; (hton P / 256) mod 256; 0; 0; 0; 0]
                  Hlb Hlc Hbb Hbc 104%nat (repeat 0 104)) as Hc'.
    change (List.length _ + (16 + 104))%nat with sizeof_sa in Hc'.
    rewrite Hc'; clear Hc'.
    destruct (memcmp_be_value b c ltac:(congruence) Hbb Hbc) as [H1 H2].
    rewrite Hlb in H1, H2; rewrite <- H1, <- H2.
    destruct (Z.eqb_spec (memcmp b c 16) 0) as [E | E].
    + rewrite E; split; split; intros; try reflexivity; try lia; discriminate.
    + rewrite Z.ltb_lt, Z.eqb_eq; split; reflexivity.
Qed.

Lemma operator_lt_same_port_by_address_witness :
  let A := snd (fst (set socketaddr_default "10.0.0.9" 53 0)) in
  let B := snd (fst (set socketaddr_default "10.0.1.0" 53 0)) in
  (operator_lt A B = true
   <-> be_value [10; 0; 0; 9] 0 < be_value [10; 0; 1; 0] 0) /\
  (operator_eq A B = true
   <-> be_value [10; 0; 0; 9] 0 = be_value [10; 0; 1; 0] 0).
Proof.
  apply (operator_lt_same_port_by_address socketaddr_default
           socketaddr_default "10.0.0.9" "10.0.1.0" 53 0 0 AF_INET
           [10; 0; 0; 9] [10; 0; 1; 0]);
    [left; reflexivity | reflexivity | reflexivity].
Defined.

(** ** set, the constructors and assignment *)

Lemma c_str_idem (s : string) : c_str (c_str s) = c_str s.
Proof. apply c_str_nulfree, nulfree_c_str. Qed.

(** X8: [set(addr, port)] returns 0 or EAFNOSUPPORT and never EINVAL; it
    returns 0 exactly when [is_ipv4(addr)] or [is_ipv6(addr)] holds; only
    the characters of [addr] before its first NUL count; when it returns 0
    nothing of the old value is left (any other object ends as the same
    bytes), and when it fails the object is as it was. *)
Theorem set_returns_and_overwrites
    (this that : socketaddr) (addr : string) (port e e' : Z) :
  (fst (fst (set this addr port e)) = 0 \/
   fst (fst (set this addr port e)) = EAFNOSUPPORT) /\
  fst (fst (set this addr port e)) <> EINVAL /\
  (fst (fst (set this addr port e)) = 0 <->
   fst (is_ipv4 addr e) = true \/ fst (is_ipv6 addr e) = true) /\
  set this addr port e = set this (c_str addr) port e /\
  (fst (fst (set this addr port e)) = 0 ->
   set that addr port e' = ((0, snd (fst (set this addr port e))), e')) /\
  (fst (fst (set this addr port e)) = EAFNOSUPPORT ->
   snd (fst (set this addr port e)) = this).
Proof.
  assert (Hc : forall f, literal f (c_str addr) = literal f addr)
    by (intros f; unfold literal; now rewrite c_str_idem).
  unfold is_ipv4, is_ipv6; rewrite !is_literal by auto.
  destruct (literal AF_INET addr) as [b4|] eqn:E4.
  - rewrite (set_ipv4 this addr port e b4 E4),
      (set_ipv4 that addr port e' b4 E4),
      (set_ipv4 this (c_str addr) port e b4) by (now rewrite Hc).
    cbn [fst snd]; unfold EAFNOSUPPORT, EINVAL.
    repeat split; auto; try discriminate.
  - destruct (literal AF_INET6 addr) as [b6|] eqn:E6.
    + rewrite (set_ipv6 this addr port e b6 E6),
        (set_ipv6 that addr port e' b6 E6),
        (set_ipv6 this (c_str addr) port e b6) by (now rewrite Hc).
      cbn [fst snd]; unfold EAFNOSUPPORT, EINVAL.
      repeat split; auto; try discriminate.
    + rewrite (set_neither this addr port e E4 E6),
        (set_neither this (c_str addr) port e) by (now rewrite Hc).
      cbn [fst snd]; unfold EAFNOSUPPORT, EINVAL.
      repeat split; auto; try discriminate.
      intros [H | H]; discriminate.
Qed.


(** Copying [sizeof(sa)] bytes replaces the whole storage. *)
Lemma memcpy_whole (this other : socketaddr) :
  List.length (sa other) = sizeof_sa -> List.length (sa this) = sizeof_sa ->
  {| sa := memcpy (sa this) (sa other) sizeof_sa |} = other.
Proof.
  intros Ho Ht; destruct other as [m]; cbn [sa] in *; f_equal.
  unfold memcpy; rewrite <- Ho at 1; rewrite firstn_all.
  rewrite skipn_all2 by lia; apply app_nil_r.
Qed.

(** X10: the copy constructor and [operator=], applied to another object,
    copy all [sizeof(sa)] bytes: the destination becomes [other] whatever
    it held, so afterwards [==] holds, [!=] does not and neither object
    is [<] the other. *)
Theorem copy_and_assign_reproduce (this other : socketaddr) :
  List.length (sa other) = sizeof_sa ->
  List.length (sa this) = sizeof_sa ->
  socketaddr_copy this other = other /\
  operator_assign this other = other /\
  operator_eq (operator_assign this other) other = true /\
  operator_ne (operator_assign this other) other = false /\
  operator_lt (operator_assign this other) other = false /\
  operator_lt other (operator_assign this other) = false.
Proof.
  intros Ho Ht.
  unfold socketaddr_copy, operator_assign.
  rewrite !(memcpy_whole this other Ho Ht).
  unfold operator_eq, operator_ne, operator_lt; rewrite memcmp_refl.
  repeat split; reflexivity.
Qed.

Lemma copy_and_assign_reproduce_witness :
  let this := socketaddr_of "::1" 443 in
  let other := socketaddr_of "10.0.0.1" 53 in
  socketaddr_copy this other = other /\
  operator_assign this other = other /\
  operator_eq (operator_assign this other) other = true /\
  operator_ne (operator_assign this other) other = false /\
  operator_lt (operator_assign this other) other = false /\
  operator_lt other (operator_assign this other) = false.
Proof.
  apply (copy_and_assign_reproduce (socketaddr_of "::1" 443)
           (socketaddr_of "10.0.0.1" 53)); reflexivity.
Defined.

(** ** The probes *)

(** X11: [is(family, ip)] with a family other than AF_INET and AF_INET6 is
    false for every text and leaves EAFNOSUPPORT in errno ([inet_pton]
    returns -1); with AF_INET or AF_INET6 it leaves errno alone.  It reads
    [ip.data()], so only the characters before the first NUL count.  No
    text makes both [is_ipv4] and [is_ipv6] true. *)
Theorem is_by_family (family : Z) (ip : string) (e : Z) :
  (family <> AF_INET -> family <> AF_INET6 ->
   is_ family ip e = (false, EAFNOSUPPORT)) /\
  (family = AF_INET \/ family = AF_INET6 -> snd (is_ family ip e) = e) /\
  is_ family ip e = is_ family (c_str ip) e /\
  (fst (is_ipv4 ip e) = true -> fst (is_ipv6 ip e) = false).
Proof.
  split; [| split; [| split]].
  - intros H4 H6; unfold is_, inet_pton, bind.
    apply Z.eqb_neq in H4, H6; rewrite H4, H6; reflexivity.
  - intros H; rewrite is_literal by exact H; reflexivity.
  - unfold is_; now rewrite c_str_idem.
  - unfold is_ipv4, is_ipv6; rewrite !is_literal by auto.
    destruct (literal AF_INET ip) as [b|] eqn:E; [| discriminate].
    now rewrite (literal_exclusive _ _ E).
Qed.

(** ** Reading an address back *)

Lemma poke_peek (m : list Z) (off n : nat) :
  (off + n <= List.length m)%nat -> poke m off (peek m off n) = m.
Proof.
  intros H; unfold poke, peek.
  rewrite length_firstn, length_skipn, Nat.min_l by lia.
  rewrite <- (firstn_skipn off m) at 4.
  f_equal.
  rewrite <- (firstn_skipn n (skipn off m)) at 2.
  f_equal; rewrite skipn_skipn; f_equal; lia.
Qed.

Lemma get_addr_ipv4 (this : socketaddr) (e : Z) :
  wf this -> sa_family this = AF_INET ->
  get_addr this e = (inet_ntop4 (peek (sa this) off_sin_addr 4), e).
Proof.
  intros Hwf Hfam; unfold get_addr, bind.
  now rewrite (get_addr_buf_ipv4 this EmptyString e Hwf Hfam).
Qed.

Lemma get_addr_ipv6 (this : socketaddr) (e : Z) :
  wf this -> sa_family this = AF_INET6 ->
  get_addr this e = (inet_ntop6 (peek (sa this) off_sin6_addr 16), e).
Proof.
  intros Hwf Hfam; unfold get_addr, bind.
  now rewrite (get_addr_buf_ipv6 this EmptyString e Hwf Hfam).
Qed.

(** The text of the stored address is a literal of the stored bytes. *)
Lemma literal_get_addr (this : socketaddr) (e : Z) :
  wf this ->
  (sa_family this = AF_INET ->
   literal AF_INET (fst (get_addr this e))
   = Some (peek (sa this) off_sin_addr 4)) /\
  (sa_family this = AF_INET6 ->
   literal AF_INET6 (fst (get_addr this e))
   = Some (peek (sa this) off_sin6_addr 16)).
Proof.
  intros Hwf; split; intros Hfam.
  - rewrite (get_addr_ipv4 this e Hwf Hfam); cbn [fst].
    destruct (wf_peek this off_sin_addr 4 Hwf) as [Hl Hb];
      [unfold sizeof_sa, off_sin_addr; lia |].
    destruct (inet_ntop4_free _ Hb) as (_ & Hnul & _).
    unfold literal; simpl; rewrite (c_str_nulfree _ Hnul).
    set (p := peek (sa this) off_sin_addr 4) in *.
    explode_list p 4.
    inversion Hb as [|? ? B0 Hb1]; inversion Hb1 as [|? ? B1 Hb2];
      inversion Hb2 as [|? ? B2 Hb3]; inversion Hb3 as [|? ? B3 _]; subst.
    now apply inet_pton4_complete.
  - rewrite (get_addr_ipv6 this e Hwf Hfam); cbn [fst].
    destruct (wf_peek this off_sin6_addr 16 Hwf) as [Hl Hb];
      [unfold sizeof_sa, off_sin6_addr; lia |].
    destruct (inet_ntop6_text _ Hl Hb) as (_ & Hnul).
    unfold literal; simpl; rewrite (c_str_nulfree _ Hnul).
    now apply inet_pton6_inet_ntop6.
Qed.

(** X12: on any address whose family is AF_INET or AF_INET6, however it
    was filled, the text [get_addr()] returns is a literal of that family
    ([is(get_family(), get_addr())] is true and errno is untouched), and
    [set_addr(get_addr())] returns 0 and leaves every byte as it was. *)
Theorem get_addr_is_literal_of_family (this : socketaddr) (e : Z) :
  wf this -> sa_family this = AF_INET \/ sa_family this = AF_INET6 ->
  is_ (get_family this) (fst (get_addr this e)) e = (true, e) /\
  set_addr this (fst (get_addr this e)) e = ((0, this), e).
Proof.
  intros Hwf Hfam; destruct (literal_get_addr this e Hwf) as [H4 H6].
  pose proof Hwf as [Hlen _].
  assert (Hthis4 : {| sa := poke (sa this) off_sin_addr
                              (peek (sa this) off_sin_addr 4) |} = this).
  { rewrite poke_peek by (rewrite Hlen; vm_compute; lia).
    now destruct this. }
  assert (Hthis6 : {| sa := poke (sa this) off_sin6_addr
                              (peek (sa this) off_sin6_addr 16) |} = this).
  { rewrite poke_peek by (rewrite Hlen; vm_compute; lia).
    now destruct this. }
  unfold get_family; destruct Hfam as [Hfam | Hfam]; rewrite Hfam.
  - specialize (H4 Hfam); split.
    + rewrite is_literal, H4 by now left.
      reflexivity.
    + unfold set_addr; rewrite Hfam.
      change (AF_INET =? AF_INET) with true; cbv beta iota zeta.
      unfold literal in H4; simpl in H4.
      unfold bind, inet_pton; change (AF_INET =? AF_INET) with true.
      cbv beta iota zeta; unfold ret; rewrite H4; cbn [fst snd].
      change (1 =? 0) with false; cbv iota; now rewrite Hthis4.
  - specialize (H6 Hfam); split.
    + rewrite is_literal, H6 by now right.
      reflexivity.
    + unfold set_addr; rewrite Hfam.
      change (AF_INET6 =? AF_INET) with false;
        change (AF_INET6 =? AF_INET6) with true; cbv beta iota zeta.
      unfold literal in H6; simpl in H6.
      unfold bind, inet_pton; change (AF_INET6 =? AF_INET) with false;
        change (AF_INET6 =? AF_INET6) with true.
      cbv beta iota zeta; unfold ret; rewrite H6; cbn [fst snd].
      change (1 =? 0) with false; cbv iota; now rewrite Hthis6.
Qed.

(** X13: on an address whose family is AF_INET or AF_INET6,
    [get_addr(buf)] returns 0, leaves errno alone and replaces [buf] by
    the text of the address whatever [buf] held: nothing of the old
    content is left, the text holds no NUL, is not empty and has at most
    15 characters for IPv4 and 45 for IPv6. *)
Theorem get_addr_buf_overwrites
    (this : socketaddr) (buf buf' : string) (e : Z) :
  wf this -> sa_family this = AF_INET \/ sa_family this = AF_INET6 ->
  get_addr_buf this buf e = get_addr_buf this buf' e /\
  get_addr_buf this buf e = ((0, fst (get_addr this e)), e) /\
  nulfree (fst (get_addr this e)) = true /\
  (1 <= String.length (fst (get_addr this e)))%nat /\
  (String.length (fst (get_addr this e))
   <= if (sa_family this =? AF_INET)%Z then 15 else 45)%nat.
Proof.
  intros Hwf [Hfam | Hfam].
  - rewrite (get_addr_ipv4 this e Hwf Hfam),
      !(get_addr_buf_ipv4 this _ e Hwf Hfam), Hfam; cbn [fst].
    destruct (wf_peek this off_sin_addr 4 Hwf) as [_ Hb];
      [unfold sizeof_sa, off_sin_addr; lia |].
    destruct (inet_ntop4_free _ Hb) as (Hlen & Hnul & _).
    pose proof (inet_ntop4_nonempty (peek (sa this) off_sin_addr 4)).
    change (AF_INET =? AF_INET) with true; cbv iota.
    repeat split; auto.
  - rewrite (get_addr_ipv6 this e Hwf Hfam),
      !(get_addr_buf_ipv6 this _ e Hwf Hfam), Hfam; cbn [fst].
    destruct (wf_peek this off_sin6_addr 16 Hwf) as [Hl Hb];
      [unfold sizeof_sa, off_sin6_addr; lia |].
    destruct (inet_ntop6_text _ Hl Hb) as (Hlen & Hnul).
    pose proof (inet_ntop6_nonempty _ Hl).
    change (AF_INET6 =? AF_INET) with false; cbv iota.
    repeat split; auto.
Qed.

Lemma get_addr_is_literal_of_family_witness :
  let this := socketaddr_of "::1" 443 in
  is_ (get_family this) (fst (get_addr this 0)) 0 = (true, 0) /\
  set_addr this (fst (get_addr this 0)) 0 = ((0, this), 0).
Proof.
  apply (get_addr_is_literal_of_family (socketaddr_of "::1" 443) 0).
  - apply wf_socketaddr_of_examples.
  - right; reflexivity.
Defined.

Lemma get_addr_buf_overwrites_witness :
  let this := socketaddr_of "10.0.0.1" 53 in
  let buf := "a text of more than fifteen characters"%string in
  get_addr_buf this buf 0 = get_addr_buf this EmptyString 0 /\
  get_addr_buf this buf 0 = ((0, fst (get_addr this 0)), 0) /\
  nulfree (fst (get_addr this 0)) = true /\
  (1 <= String.length (fst (get_addr this 0%Z)))%nat /\
  (String.length (fst (get_addr this 0%Z))
   <= if (sa_family this =? AF_INET)%Z then 15 else 45)%nat.
Proof.
  apply (get_addr_buf_overwrites (socketaddr_of "10.0.0.1" 53)
           "a text of more than fifteen characters" EmptyString 0).
  - apply wf_socketaddr_of_examples.
  - left; reflexivity.
Defined.

(** ** Loading a native structure *)

Lemma Forall_byte_nth (m : list Z) (i : nat) :
  Forall byte m -> byte (nth i m 0).
Proof.
  intros H; destruct (nth_in_or_default i m 0) as [Hin | ->];
    [| unfold byte; lia].
  rewrite Forall_forall in H; now apply H.
Qed.

Lemma ntoh_load (m : list Z) (off : nat) :
  Forall byte m ->
  ntoh (load_u16 m off) = 256 * nth off m 0 + nth (S off) m 0.
Proof.
  intros H; pose proof (Forall_byte_nth m off H) as H0.
  pose proof (Forall_byte_nth m (S off) H) as H1.
  unfold ntoh, load_u16, byte in *.
  Z.to_euclidean_division_equations; lia.
Qed.

(** The port of an address of either family. *)
Lemma get_port_family (this : socketaddr) (e : Z) :
  wf this -> sa_family this = AF_INET \/ sa_family this = AF_INET6 ->
  get_port this e = (256 * nth 2 (sa this) 0 + nth 3 (sa this) 0, e).
Proof.
  intros [_ Hb] Hfam; unfold get_port, get_port_ref, bind, ret.
  rewrite <- (ntoh_load (sa this) 2 Hb).
  destruct Hfam as [-> | ->]; reflexivity.
Qed.

Lemma operator_shl_ipv4 (o : string) (this : socketaddr) (e : Z) :
  wf this -> sa_family this = AF_INET ->
  operator_shl o this e
  = (String.append o (String.append (fst (get_addr this e))
       (String.append ":" (dec (fst (get_port this e))))), e).
Proof.
  intros Hwf Hfam; unfold operator_shl, get_family; rewrite Hfam.
  change (AF_INET =? AF_INET) with true; cbv iota.
  unfold bind at 1; rewrite (get_addr_ipv4 this e Hwf Hfam).
  unfold bind at 1; rewrite (get_port_family this e Hwf (or_introl Hfam)).
  reflexivity.
Qed.

Lemma operator_shl_ipv6 (o : string) (this : socketaddr) (e : Z) :
  wf this -> sa_family this = AF_INET6 ->
  operator_shl o this e
  = (String.append o (String.append "[" (String.append (fst (get_addr this e))
       (String.append "]:" (dec (fst (get_port this e)))))), e).
Proof.
  intros Hwf Hfam; unfold operator_shl, get_family; rewrite Hfam.
  change (AF_INET6 =? AF_INET) with false;
    change (AF_INET6 =? AF_INET6) with true; cbv iota.
  unfold bind at 1; rewrite (get_addr_ipv6 this e Hwf Hfam).
  unfold bind at 1; rewrite (get_port_family this e Hwf (or_intror Hfam)).
  reflexivity.
Qed.

(** The storage after a native structure of [n] bytes was copied. *)
Lemma set_sockaddr_copied (this : socketaddr) (raw : list Z) (f : Z) (n : nat) :
  (f = AF_INET /\ n = sizeof_sin) \/ (f = AF_INET6 /\ n = sizeof_sin6) ->
  Forall byte raw -> (n <= List.length raw)%nat -> load_u16 raw 0 = f ->
  sa (set_sockaddr this raw) = firstn n raw ++ repeat 0 (sizeof_sa - n) /\
  wf (set_sockaddr this raw) /\
  sa_family (set_sockaddr this raw) = f.
Proof.
  intros Hf Hb Hlen Hfam.
  assert (Hsa : sa (set_sockaddr this raw)
                = firstn n raw ++ repeat 0 (sizeof_sa - n)).
  { unfold set_sockaddr; rewrite Hfam.
    destruct Hf as [[-> ->] | [-> ->]]; reflexivity. }
  split; [exact Hsa | split].
  - split; rewrite Hsa.
    + rewrite length_app, length_firstn, repeat_length.
      destruct Hf as [[_ ->] | [_ ->]]; unfold sizeof_sa, sizeof_sin,
        sizeof_sin6 in *; lia.
    + apply Forall_app; split;
        [apply Forall_firstn_skipn, Hb | apply Forall_byte_repeat].
  - unfold sa_family; rewrite Hsa, <- Hfam.
    destruct Hf as [[_ ->] | [_ ->]];
      unfold sizeof_sin, sizeof_sin6 in Hlen; open_list raw 2; reflexivity.
Qed.

Lemma firstn_app_repeat_nth (raw : list Z) (n k i : nat) :
  (i < n)%nat -> (n <= List.length raw)%nat ->
  nth i (firstn n raw ++ repeat 0 k) 0 = nth i raw 0.
Proof.
  intros Hi Hn; rewrite app_nth1 by (rewrite length_firstn; lia).
  rewrite <- (firstn_skipn n raw) at 2.
  rewrite app_nth1 by (rewrite length_firstn; lia); reflexivity.
Qed.

Lemma peek_firstn_app (raw z : list Z) (n off k : nat) :
  (off + k <= n)%nat -> (n <= List.length raw)%nat ->
  peek (firstn n raw ++ z) off k = peek raw off k.
Proof.
  intros Hk Hn; unfold peek.
  rewrite skipn_app, firstn_app, length_skipn, length_firstn.
  replace (k - (Nat.min n (List.length raw) - off))%nat with 0%nat by lia.
  cbn [firstn]; rewrite app_nil_r, skipn_firstn_comm, firstn_firstn.
  f_equal; lia.
Qed.

(** What the accessors read after a native IPv4 structure was loaded. *)
Lemma set_sockaddr_reads_ipv4 (this : socketaddr) (raw : list Z) (o : string)
    (e : Z) :
  Forall byte raw -> load_u16 raw 0 = AF_INET ->
  (sizeof_sin <= List.length raw)%nat ->
  wf (set_sockaddr this raw) /\
  sa_family (set_sockaddr this raw) = AF_INET /\
  get_port (set_sockaddr this raw) e
  = (256 * nth 2 raw 0 + nth 3 raw 0, e) /\
  get_addr (set_sockaddr this raw) e
  = (inet_ntop4 (peek raw off_sin_addr 4), e) /\
  operator_shl o (set_sockaddr this raw) e
  = (String.append o (String.append (inet_ntop4 (peek raw off_sin_addr 4))
       (String.append ":" (dec (256 * nth 2 raw 0 + nth 3 raw 0)))), e).
Proof.
  intros Hb Hfam Hlen.
  destruct (set_sockaddr_copied this raw AF_INET sizeof_sin
              ltac:(left; split; reflexivity) Hb Hlen Hfam)
    as (Hsa & Hwf & HfA).
  assert (Hport : get_port (set_sockaddr this raw) e
                  = (256 * nth 2 raw 0 + nth 3 raw 0, e)).
  { rewrite (get_port_family _ e Hwf (or_introl HfA)), Hsa.
    rewrite !firstn_app_repeat_nth
      by (unfold sizeof_sin in *; lia); reflexivity. }
  assert (Haddr : get_addr (set_sockaddr this raw) e
                  = (inet_ntop4 (peek raw off_sin_addr 4), e)).
  { rewrite (get_addr_ipv4 _ e Hwf HfA), Hsa.
    rewrite peek_firstn_app by (vm_compute; lia || exact Hlen).
    reflexivity. }
  repeat split; auto; try apply Hwf.
  rewrite (operator_shl_ipv4 o _ e Hwf HfA), Haddr, Hport; reflexivity.
Qed.

Lemma set_sockaddr_reads_ipv6 (this : socketaddr) (raw : list Z) (o : string)
    (e : Z) :
  Forall byte raw -> load_u16 raw 0 = AF_INET6 ->
  (sizeof_sin6 <= List.length raw)%nat ->
  wf (set_sockaddr this raw) /\
  sa_family (set_sockaddr this raw) = AF_INET6 /\
  get_port (set_sockaddr this raw) e
  = (256 * nth 2 raw 0 + nth 3 raw 0, e) /\
  get_addr (set_sockaddr this raw) e
  = (inet_ntop6 (peek raw off_sin6_addr 16), e) /\
  operator_shl o (set_sockaddr this raw) e
  = (String.append o (String.append "["
       (String.append (inet_ntop6 (peek raw off_sin6_addr 16))
          (String.append "]:"
             (dec (256 * nth 2 raw 0 + nth 3 raw 0))))), e).
Proof.
  intros Hb Hfam Hlen.
  destruct (set_sockaddr_copied this raw AF_INET6 sizeof_sin6
              ltac:(right; split; reflexivity) Hb Hlen Hfam)
    as (Hsa & Hwf & HfA).
  assert (Hport : get_port (set_sockaddr this raw) e
                  = (256 * nth 2 raw 0 + nth 3 raw 0, e)).
  { rewrite (get_port_family _ e Hwf (or_intror HfA)), Hsa.
    rewrite !firstn_app_repeat_nth
      by (unfold sizeof_sin6 in *; lia); reflexivity. }
  assert (Haddr : get_addr (set_sockaddr this raw) e
                  = (inet_ntop6 (peek raw off_sin6_addr 16), e)).
  { rewrite (get_addr_ipv6 _ e Hwf HfA), Hsa.
    rewrite peek_firstn_app by (vm_compute; lia || exact Hlen).
    reflexivity. }
  repeat split; auto; try apply Hwf.
  rewrite (operator_shl_ipv6 o _ e Hwf HfA), Haddr, Hport; reflexivity.
Qed.

(** X14: after the [set] that takes a pointer to a native structure has
    loaded a [sockaddr_in], the family is AF_INET, [get_port()] is the two
    bytes of [sin_port] read most significant first, [get_addr()] is the
    dotted text of the four bytes of [sin_addr] and the stream output is
    the two joined by a colon; after a [sockaddr_in6] the family is
    AF_INET6, the port is read the same way, [get_addr()] is the text of
    the sixteen bytes of [sin6_addr] and the stream output has it in
    brackets.  Both overloads of [get_family] give the family. *)
Theorem set_sockaddr_then_accessors
    (this : socketaddr) (raw : list Z) (o : string) (fam e : Z) :
  Forall byte raw ->
  (load_u16 raw 0 = AF_INET -> (sizeof_sin <= List.length raw)%nat ->
   let A := set_sockaddr this raw in
   get_family A = AF_INET /\ get_family_ref A fam = AF_INET /\
   get_port A e = (256 * nth 2 raw 0 + nth 3 raw 0, e) /\
   get_addr A e = (inet_ntop4 (peek raw off_sin_addr 4), e) /\
   operator_shl o A e
   = (String.append o (String.append (inet_ntop4 (peek raw off_sin_addr 4))
        (String.append ":" (dec (256 * nth 2 raw 0 + nth 3 raw 0)))), e)) /\
  (load_u16 raw 0 = AF_INET6 -> (sizeof_sin6 <= List.length raw)%nat ->
   let A := set_sockaddr this raw in
   get_family A = AF_INET6 /\ get_family_ref A fam = AF_INET6 /\
   get_port A e = (256 * nth 2 raw 0 + nth 3 raw 0, e) /\
   get_addr A e = (inet_ntop6 (peek raw off_sin6_addr 16), e) /\
   operator_shl o A e
   = (String.append o (String.append "["
        (String.append (inet_ntop6 (peek raw off_sin6_addr 16))
           (String.append "]:"
              (dec (256 * nth 2 raw 0 + nth 3 raw 0))))), e)).
Proof.
  intros Hb; split; intros Hfam Hlen A; subst A.
  - destruct (set_sockaddr_reads_ipv4 this raw o e Hb Hfam Hlen)
      as (_ & HfA & Hport & Haddr & Hshl).
    unfold get_family, get_family_ref; auto.
  - destruct (set_sockaddr_reads_ipv6 this raw o e Hb Hfam Hlen)
      as (_ & HfA & Hport & Haddr & Hshl).
    unfold get_family, get_family_ref; auto.
Qed.

Lemma firstn_nth (raw raw' : list Z) (n i : nat) :
  firstn n raw = firstn n raw' -> (i < n)%nat ->
  (n <= List.length raw)%nat -> (n <= List.length raw')%nat ->
  nth i raw 0 = nth i raw' 0.
Proof.
  intros H Hi Hl Hl'.
  rewrite <- (firstn_app_repeat_nth raw n 0 i Hi Hl).
  rewrite <- (firstn_app_repeat_nth raw' n 0 i Hi Hl').
  now rewrite H.
Qed.

(** X15: the [set] that takes a pointer to a native structure copies all
    [sizeof(sockaddr_in)] bytes, [sin_zero] included, and the comparison
    reads them: two native IPv4 structures with the same family, port and
    address that differ in [sin_zero] load as addresses with the same
    family, [get_addr()], [get_port()] and stream output that are
    nevertheless not [==]. *)
Theorem native_padding_breaks_equality
    (this that : socketaddr) (raw raw' : list Z) (o : string) (e : Z) :
  Forall byte raw -> Forall byte raw' ->
  (sizeof_sin <= List.length raw)%nat ->
  (sizeof_sin <= List.length raw')%nat ->
  load_u16 raw 0 = AF_INET ->
  firstn 8 raw = firstn 8 raw' ->
  firstn sizeof_sin raw <> firstn sizeof_sin raw' ->
  let A := set_sockaddr this raw in
  let B := set_sockaddr that raw' in
  get_family A = get_family B /\
  get_addr A e = get_addr B e /\
  get_port A e = get_port B e /\
  operator_shl o A e = operator_shl o B e /\
  operator_eq A B = false /\ operator_ne A B = true.
Proof.
  intros Hb Hb' Hl Hl' Hfam H8 Hne A B; subst A B.
  unfold sizeof_sin in Hl, Hl'.
  assert (Hnth : forall i, (i < 8)%nat -> nth i raw 0 = nth i raw' 0)
    by (intros i Hi; apply (firstn_nth raw raw' 8); auto; lia).
  assert (Hfam' : load_u16 raw' 0 = AF_INET)
    by (unfold load_u16 in *; rewrite <- !Hnth by lia; exact Hfam).
  assert (Hpeek : peek raw off_sin_addr 4 = peek raw' off_sin_addr 4).
  { rewrite <- (peek_firstn_app raw [] 8 off_sin_addr 4),
      <- (peek_firstn_app raw' [] 8 off_sin_addr 4)
      by (unfold off_sin_addr; lia).
    now rewrite H8. }
  destruct (set_sockaddr_reads_ipv4 this raw o e Hb Hfam Hl)
    as (Hwf & HfA & Hport & Haddr & Hshl).
  destruct (set_sockaddr_reads_ipv4 that raw' o e Hb' Hfam' Hl')
    as (Hwf' & HfB & Hport' & Haddr' & Hshl').
  assert (Heq : operator_eq (set_sockaddr this raw) (set_sockaddr that raw')
                = false).
  { destruct (operator_eq _ _) eqn:E; [exfalso | reflexivity].
    apply (operator_eq_iff _ _ Hwf Hwf') in E.
    apply (f_equal sa) in E.
    destruct (set_sockaddr_copied this raw AF_INET sizeof_sin
                ltac:(left; split; reflexivity) Hb Hl Hfam) as (Hsa & _).
    destruct (set_sockaddr_copied that raw' AF_INET sizeof_sin
                ltac:(left; split; reflexivity) Hb' Hl' Hfam') as (Hsa' & _).
    rewrite Hsa, Hsa' in E; apply app_inv_tail in E; contradiction. }
  unfold get_family, operator_ne; fold (operator_eq (set_sockaddr this raw)
                                          (set_sockaddr that raw')).
  rewrite HfA, HfB, Hport, Hport', Haddr, Haddr', Hshl, Hshl', Heq.
  rewrite Hpeek, (Hnth 2%nat), (Hnth 3%nat) by lia.
  repeat split; reflexivity.
Qed.

Lemma Forall_byte_check (m : list Z) :
  forallb (fun b => (0 <=? b) && (b <? 256)) m = true -> Forall byte m.
Proof.
  intros H; apply Forall_forall; intros b Hin.
  rewrite forallb_forall in H; specialize (H b Hin); unfold byte; lia.
Qed.

Lemma set_sockaddr_then_accessors_witness :
  let raw := [2; 0; 0; 53; 10; 0; 0; 1; 0; 0; 0; 0; 0; 0; 0; 0] in
  (load_u16 raw 0 = AF_INET -> (sizeof_sin <= List.length raw)%nat ->
   let A := set_sockaddr (socketaddr_of "::1" 443) raw in
   get_family A = AF_INET /\ get_family_ref A 0 = AF_INET /\
   get_port A 0 = (256 * nth 2 raw 0 + nth 3 raw 0, 0) /\
   get_addr A 0 = (inet_ntop4 (peek raw off_sin_addr 4), 0) /\
   operator_shl EmptyString A 0
   = (String.append EmptyString
        (String.append (inet_ntop4 (peek raw off_sin_addr 4))
           (String.append ":" (dec (256 * nth 2 raw 0 + nth 3 raw 0)))), 0)) /\
  (load_u16 raw 0 = AF_INET6 -> (sizeof_sin6 <= List.length raw)%nat ->
   let A := set_sockaddr (socketaddr_of "::1" 443) raw in
   get_family A = AF_INET6 /\ get_family_ref A 0 = AF_INET6 /\
   get_port A 0 = (256 * nth 2 raw 0 + nth 3 raw 0, 0) /\
   get_addr A 0 = (inet_ntop6 (peek raw off_sin6_addr 16), 0) /\
   operator_shl EmptyString A 0
   = (String.append EmptyString (String.append "["
        (String.append (inet_ntop6 (peek raw off_sin6_addr 16))
           (String.append "]:"
              (dec (256 * nth 2 raw 0 + nth 3 raw 0))))), 0)).
Proof.
  apply (set_sockaddr_then_accessors (socketaddr_of "::1" 443)
           [2; 0; 0; 53; 10; 0; 0; 1; 0; 0; 0; 0; 0; 0; 0; 0]
           EmptyString 0 0).
  apply Forall_byte_check; reflexivity.
Defined.

Lemma native_padding_breaks_equality_witness :
  let raw := [2; 0; 0; 53; 10; 0; 0; 1; 0; 0; 0; 0; 0; 0; 0; 0] in
  let raw' := [2; 0; 0; 53; 10; 0; 0; 1; 7; 0; 0; 0; 0; 0; 0; 0] in
  let A := set_sockaddr socketaddr_default raw in
  let B := set_sockaddr socketaddr_default raw' in
  get_family A = get_family B /\
  get_addr A 0 = get_addr B 0 /\
  get_port A 0 = get_port B 0 /\
  operator_shl EmptyString A 0 = operator_shl EmptyString B 0 /\
  operator_eq A B = false /\ operator_ne A B = true.
Proof.
  apply (native_padding_breaks_equality socketaddr_default socketaddr_default
           [2; 0; 0; 53; 10; 0; 0; 1; 0; 0; 0; 0; 0; 0; 0; 0]
           [2; 0; 0; 53; 10; 0; 0; 1; 7; 0; 0; 0; 0; 0; 0; 0]
           EmptyString 0).
  - apply Forall_byte_check; reflexivity.
  - apply Forall_byte_check; reflexivity.
  - unfold sizeof_sin; simpl; lia.
  - unfold sizeof_sin; simpl; lia.
  - reflexivity.
  - reflexivity.
  - unfold sizeof_sin; simpl; discriminate.
Defined.

(** ** set_addr and set_port *)

Lemma set_addr_stores (this : socketaddr) (ip : string) (e f : Z) (b : list Z) :
  f = AF_INET \/ f = AF_INET6 -> sa_family this = f ->
  literal f ip = Some b ->
  set_addr this ip e
  = ((0, {| sa := poke (sa this)
                    (if f =? AF_INET then off_sin_addr else off_sin6_addr)
                    b |}), e).
Proof.
  intros Hf Hfam Hlit; unfold set_addr; rewrite Hfam.
  unfold literal in Hlit; unfold bind, inet_pton, ret.
  destruct Hf as [-> | ->]; simpl in Hlit |- *; rewrite Hlit; reflexivity.
Qed.

Lemma set_port_stores (this : socketaddr) (port e : Z) :
  sa_family this = AF_INET \/ sa_family this = AF_INET6 ->
  set_port this port e
  = ((0, {| sa := store_u16 (sa this) off_sin_port (hton port) |}), e).
Proof. intros [H | H]; unfold set_port; rewrite H; reflexivity. Qed.

(** X16: on an address of family AF_INET or AF_INET6, [set_addr] with a
    literal of that family and [set_port] do not interfere: both succeed
    in either order and leave the same bytes, [set_addr] leaves
    [get_port()] as it was, [set_port] leaves [get_addr()] as it was, and
    the family stays. *)
Theorem set_addr_set_port_commute
    (this : socketaddr) (ip : string) (port e f : Z) (b : list Z) :
  wf this -> f = AF_INET \/ f = AF_INET6 -> sa_family this = f ->
  literal f ip = Some b ->
  exists A B C,
    set_addr this ip e = ((0, A), e) /\ set_port A port e = ((0, C), e) /\
    set_port this port e = ((0, B), e) /\ set_addr B ip e = ((0, C), e) /\
    get_port A e = get_port this e /\
    get_addr B e = get_addr this e /\
    get_family C = f.
Proof.
  intros Hwf Hf Hfam Hlit.
  pose proof (set_addr_stores this ip e f b Hf Hfam Hlit) as HA.
  assert (Hfam' : sa_family this = AF_INET \/ sa_family this = AF_INET6)
    by (rewrite Hfam; exact Hf).
  pose proof (set_port_stores this port e Hfam') as HB.
  set (off := if f =? AF_INET then off_sin_addr else off_sin6_addr) in *.
  set (A := {| sa := poke (sa this) off b |}) in *.
  set (B := {| sa := store_u16 (sa this) off_sin_port (hton port) |}) in *.
  assert (Hb : List.length b = (if (f =? AF_INET)%Z then 4 else 16)%nat /\
               Forall byte b).
  { unfold literal in Hlit; destruct Hf as [-> | ->]; simpl in Hlit |- *.
    - destruct (inet_pton4_sound _ _ Hlit) as (? & ? & _); auto.
    - destruct (inet_pton6_sound _ _ Hlit); auto. }
  destruct Hb as [Hlb Hbb].
  assert (HwfA : wf A).
  { apply wf_poke; [exact Hwf | | exact Hbb].
    rewrite Hlb; unfold off; destruct Hf as [-> | ->]; vm_compute; lia. }
  assert (HwfB : wf B).
  { pose proof (wf_set_port this port e Hwf) as H.
    now rewrite HB in H. }
  pose proof Hwf as [Hlen Hbytes].
  assert (Hlayout :
            sa_family A = f /\ sa_family B = f /\
            store_u16 (sa A) off_sin_port (hton port) = poke (sa B) off b /\
            nth 2 (sa A) 0 = nth 2 (sa this) 0 /\
            nth 3 (sa A) 0 = nth 3 (sa this) 0 /\
            peek (sa B) off_sin_addr 4 = peek (sa this) off_sin_addr 4 /\
            peek (sa B) off_sin6_addr 16 = peek (sa this) off_sin6_addr 16).
  { unfold A, B, sa_family in *; cbn [sa] in *.
    destruct this as [m]; cbn [sa] in *; clear Hwf HwfA HwfB HA HB Hbytes.
    unfold sizeof_sa in Hlen; open_list m 24.
    unfold off; destruct Hf as [-> | ->]; simpl in Hlb.
    - explode_list b 4; repeat split; try reflexivity; exact Hfam.
    - explode_list b 16; repeat split; try reflexivity; exact Hfam. }
  destruct Hlayout as (HfA & HfB & HC & H2 & H3 & Hp4 & Hp6).
  exists A, B, {| sa := poke (sa B) off b |}.
  split; [exact HA | split]; [| split; [exact HB | split]];
    [| | split; [| split]].
  - rewrite set_port_stores by (rewrite HfA; exact Hf).
    now rewrite HC.
  - apply (set_addr_stores B ip e f b Hf HfB Hlit).
  - rewrite (get_port_family A e HwfA) by (rewrite HfA; exact Hf).
    rewrite (get_port_family this e Hwf Hfam'), H2, H3; reflexivity.
  - destruct Hf as [-> | ->].
    + now rewrite (get_addr_ipv4 B e HwfB HfB),
        (get_addr_ipv4 this e Hwf Hfam), Hp4.
    + now rewrite (get_addr_ipv6 B e HwfB HfB),
        (get_addr_ipv6 this e Hwf Hfam), Hp6.
  - rewrite <- HC; unfold get_family, sa_family, store_u16; cbn [sa].
    unfold sa_family in HfA; rewrite <- HfA.
    destruct HwfA as [HlA _]; unfold sizeof_sa in HlA.
    destruct (sa A) as [|a0 [|a1 [|a2 [|a3 r]]]]; try discriminate.
    reflexivity.
Qed.

Lemma set_addr_set_port_commute_witness :
  exists A B C,
    set_addr (socketaddr_of "10.0.0.1" 53) "127.0.0.1" 0 = ((0, A), 0) /\
    set_port A 8080 0 = ((0, C), 0) /\
    set_port (socketaddr_of "10.0.0.1" 53) 8080 0 = ((0, B), 0) /\
    set_addr B "127.0.0.1" 0 = ((0, C), 0) /\
    get_port A 0 = get_port (socketaddr_of "10.0.0.1" 53) 0 /\
    get_addr B 0 = get_addr (socketaddr_of "10.0.0.1" 53) 0 /\
    get_family C = AF_INET.
Proof.
  apply (set_addr_set_port_commute (socketaddr_of "10.0.0.1" 53) "127.0.0.1"
           8080 0 AF_INET [127; 0; 0; 1]).
  - apply wf_socketaddr_of_examples.
  - left; reflexivity.
  - reflexivity.
  - reflexivity.
Defined.

(** ** The text written to a stream can be read again *)

Lemma split_at_append (c : Z) (a r : string) (ch : ascii) :
  charfree c a = true -> code ch = c ->
  split_at c (String.append a (String ch r)) = (a, r).
Proof.
  intros Ha Hc; induction a as [|x a IH]; cbn [String.append split_at].
  - rewrite Hc, Z.eqb_refl; reflexivity.
  - simpl in Ha; apply andb_true_iff in Ha as [Hx Ha].
    apply negb_true_iff in Hx; rewrite Hx, (IH Ha); reflexivity.
Qed.

Lemma inet_ntop6_charfree (c : Z) (src : list Z) :
  no_digit c -> c <> 46 -> c <> 58 -> charfree c (inet_ntop6 src) = true.
Proof.
  intros Hc Hdot Hcolon.
  assert (Hcol : charfree c colon = true).
  { unfold colon; cbn [charfree]; change (code (chr 58)) with 58.
    destruct (Z.eqb_spec 58 c); [lia | reflexivity]. }
  assert (Hfmt : forall word5 best words i,
            charfree c (inet_ntop6_fmt src word5 best i words) = true).
  { intros word5 best words; induction words as [|w words IH]; intros i;
      cbn [inet_ntop6_fmt]; [reflexivity |].
    destruct (in_run best i).
    - rewrite charfree_append, IH.
      destruct (i =? base best); [rewrite Hcol |]; reflexivity.
    - rewrite charfree_append.
      assert (H0 : charfree c (if i =? 0 then EmptyString else colon) = true)
        by (destruct (i =? 0); [reflexivity | exact Hcol]).
      rewrite H0; cbn [andb].
      destruct (encapsulated_ipv4 word5 best i).
      + now apply inet_ntop4_charfree.
      + now rewrite charfree_append, IH, hex_charfree. }
  unfold inet_ntop6; rewrite charfree_append, Hfmt; cbn [andb].
  match goal with
  | |- charfree c (if ?x then _ else _) = true => destruct x
  end; [exact Hcol | reflexivity].
Qed.

Lemma port_range (this : socketaddr) :
  wf this -> uint16 (256 * nth 2 (sa this) 0 + nth 3 (sa this) 0).
Proof.
  intros [_ Hb]; pose proof (Forall_byte_nth _ 2 Hb).
  pose proof (Forall_byte_nth _ 3 Hb); unfold uint16, byte in *; lia.
Qed.

(** X17: what [operator<<] writes for an address can be read again.  For
    family AF_INET the output cut at its first colon is [get_addr()] and
    the decimal [get_port()]; for AF_INET6 the output starts with a
    bracket, what follows cut at the first closing bracket is
    [get_addr()], and a colon and the decimal [get_port()] come next.  In
    both cases [set] with the two parts succeeds on any object and builds
    an address with the same family, [get_addr()] and [get_port()]. *)
Theorem operator_shl_parses_back (this that : socketaddr) (e : Z) :
  wf this ->
  (sa_family this = AF_INET ->
   let out := fst (operator_shl EmptyString this e) in
   let a := fst (split_at 58 out) in
   let p := snd (split_at 58 out) in
   a = fst (get_addr this e) /\ atou 10 p 0 = fst (get_port this e) /\
   exists R,
     set that a (atou 10 p 0) e = ((0, R), e) /\
     get_family R = AF_INET /\ get_addr R e = get_addr this e /\
     get_port R e = get_port this e) /\
  (sa_family this = AF_INET6 ->
   exists rest,
     fst (operator_shl EmptyString this e) = String "[" rest /\
     let a := fst (split_at 93 rest) in
     let p := snd (split_at 58 (snd (split_at 93 rest))) in
     a = fst (get_addr this e) /\ atou 10 p 0 = fst (get_port this e) /\
     fst (split_at 58 (snd (split_at 93 rest))) = EmptyString /\
     exists R,
       set that a (atou 10 p 0) e = ((0, R), e) /\
       get_family R = AF_INET6 /\ get_addr R e = get_addr this e /\
       get_port R e = get_port this e).
Proof.
  intros Hwf; destruct (literal_get_addr this e Hwf) as [H4 H6].
  pose proof (port_range this Hwf) as Hport.
  split; intros Hfam.
  - specialize (H4 Hfam).
    rewrite (operator_shl_ipv4 _ this e Hwf Hfam); cbn [fst String.append].
    rewrite (get_port_family this e Hwf (or_introl Hfam)) in *.
    rewrite (get_addr_ipv4 this e Hwf Hfam) in *; cbn [fst] in *.
    destruct (wf_peek this off_sin_addr 4 Hwf) as [Hl Hb];
      [unfold sizeof_sa, off_sin_addr; lia |].
    set (b := peek (sa this) off_sin_addr 4) in *.
    set (P := 256 * nth 2 (sa this) 0 + nth 3 (sa this) 0) in *.
    rewrite (split_at_append 58 (inet_ntop4 b) (dec P) ":")
      by (try reflexivity; apply inet_ntop4_charfree;
          unfold no_digit; lia).
    cbn [fst snd]; rewrite dec_value by (unfold uint16 in Hport; lia).
    split; [reflexivity | split; [reflexivity |]].
    eexists; split; [apply (set_ipv4 that _ P e b H4) |].
    pose proof (wf_set_ipv4 P b Hl Hb) as HwfR.
    set (R := {| sa := _ |}) in *.
    assert (HfR : sa_family R = AF_INET) by reflexivity.
    split; [exact HfR | split].
    + rewrite (get_addr_ipv4 R e HwfR HfR); f_equal; f_equal.
      explode_list b 4; reflexivity.
    + eapply get_port_stored; [exact Hport | left; reflexivity | reflexivity].
  - specialize (H6 Hfam).
    rewrite (operator_shl_ipv6 _ this e Hwf Hfam); cbn [fst String.append].
    rewrite (get_port_family this e Hwf (or_intror Hfam)) in *.
    rewrite (get_addr_ipv6 this e Hwf Hfam) in *; cbn [fst] in *.
    destruct (wf_peek this off_sin6_addr 16 Hwf) as [Hl Hb];
      [unfold sizeof_sa, off_sin6_addr; lia |].
    set (b := peek (sa this) off_sin6_addr 16) in *.
    set (P := 256 * nth 2 (sa this) 0 + nth 3 (sa this) 0) in *.
    eexists; split; [reflexivity |].
    rewrite (split_at_append 93 (inet_ntop6 b) (String ":" (dec P)) "]")
      by (try reflexivity; apply inet_ntop6_charfree;
          unfold no_digit; lia).
    cbn [fst snd split_at].
    change (code ":" =? 58) with true; cbv iota; cbn [fst snd].
    rewrite dec_value by (unfold uint16 in Hport; lia).
    split; [reflexivity | split; [reflexivity | split; [reflexivity |]]].
    eexists; split; [apply (set_ipv6 that _ P e b H6) |].
    pose proof (wf_set_ipv6 P b Hl Hb) as HwfR.
    set (R := {| sa := _ |}) in *.
    assert (HfR : sa_family R = AF_INET6) by reflexivity.
    split; [exact HfR | split].
    + rewrite (get_addr_ipv6 R e HwfR HfR); f_equal; f_equal.
      explode_list b 16; reflexivity.
    + eapply get_port_stored; [exact Hport | right; reflexivity | reflexivity].
Qed.

Lemma operator_shl_parses_back_witness :
  let this := socketaddr_of "::1" 443 in
  let that := socketaddr_of "10.0.0.1" 53 in
  (sa_family this = AF_INET ->
   let out := fst (operator_shl EmptyString this 0) in
   let a := fst (split_at 58 out) in
   let p := snd (split_at 58 out) in
   a = fst (get_addr this 0) /\ atou 10 p 0 = fst (get_port this 0) /\
   exists R,
     set that a (atou 10 p 0) 0 = ((0, R), 0) /\
     get_family R = AF_INET /\ get_addr R 0 = get_addr this 0 /\
     get_port R 0 = get_port this 0) /\
  (sa_family this = AF_INET6 ->
   exists rest,
     fst (operator_shl EmptyString this 0) = String "[" rest /\
     let a := fst (split_at 93 rest) in
     let p := snd (split_at 58 (snd (split_at 93 rest))) in
     a = fst (get_addr this 0) /\ atou 10 p 0 = fst (get_port this 0) /\
     fst (split_at 58 (snd (split_at 93 rest))) = EmptyString /\
     exists R,
       set that a (atou 10 p 0) 0 = ((0, R), 0) /\
       get_family R = AF_INET6 /\ get_addr R 0 = get_addr this 0 /\
       get_port R 0 = get_port this 0).
Proof.
  apply (operator_shl_parses_back (socketaddr_of "::1" 443)
           (socketaddr_of "10.0.0.1" 53) 0).
  apply wf_socketaddr_of_examples.
Defined.

(** The storage that [set] leaves for a literal of family [f]. *)
Lemma set_literal (this : socketaddr) (L : string) (P e f : Z) (b : list Z) :
  f = AF_INET \/ f = AF_INET6 -> literal f L = Some b ->
  exists A,
    set this L P e = ((0, A), e) /\ wf A /\ sa_family A = f /\
    peek (sa A) (if f =? AF_INET then off_sin_addr else off_sin6_addr)
      (List.length b) = b /\
    (uint16 P -> get_port A e = (P, e)).
Proof.
  intros [-> | ->] HL; pose proof HL as HL'; unfold literal in HL';
    simpl in HL'.
  - destruct (inet_pton4_sound _ _ HL') as (Hl & Hb & _).
    eexists; split; [apply (set_ipv4 this L P e b HL) |].
    split; [now apply wf_set_ipv4 | split; [reflexivity | split]].
    + explode_list b 4; reflexivity.
    + intros HP; eapply get_port_stored;
        [exact HP | left; reflexivity | reflexivity].
  - destruct (inet_pton6_sound _ _ HL') as (Hl & Hb).
    eexists; split; [apply (set_ipv6 this L P e b HL) |].
    split; [now apply wf_set_ipv6 | split; [reflexivity | split]].
    + explode_list b 16; reflexivity.
    + intros HP; eapply get_port_stored;
        [exact HP | right; reflexivity | reflexivity].
Qed.

(** X18: for two addresses built by [set], from literals and ports,
    [==] is equality of what the addresses show: it holds exactly when
    family, [get_addr()] and [get_port()] agree, which is exactly when the
    two literals are of one family and denote the same bytes and the ports
    are the same, however the literals are spelled. *)
Theorem operator_eq_of_set_is_semantic
    (this that : socketaddr) (L M : string) (P Q e f g : Z) (b c : list Z) :
  uint16 P -> uint16 Q ->
  f = AF_INET \/ f = AF_INET6 -> g = AF_INET \/ g = AF_INET6 ->
  literal f L = Some b -> literal g M = Some c ->
  let A := snd (fst (set this L P e)) in
  let B := snd (fst (set that M Q e)) in
  (operator_eq A B = true <->
   get_family A = get_family B /\
   fst (get_addr A e) = fst (get_addr B e) /\
   fst (get_port A e) = fst (get_port B e)) /\
  (operator_eq A B = true <-> f = g /\ b = c /\ P = Q).
Proof.
  intros HP HQ Hf Hg HL HM A B.
  destruct (set_literal this L P e f b Hf HL)
    as (A' & HA & HwA & HfA & HpA & HgA).
  destruct (set_literal that M Q e g c Hg HM)
    as (B' & HB & HwB & HfB & HpB & HgB).
  subst A B; rewrite HA, HB; cbn [fst snd].
  specialize (HgA HP); specialize (HgB HQ).
  assert (Hsem : f = g /\ b = c /\ P = Q -> A' = B').
  { intros (-> & -> & ->).
    destruct Hg as [-> | ->].
    - rewrite (set_ipv4 this L Q e c HL) in HA.
      rewrite (set_ipv4 that M Q e c HM) in HB. congruence.
    - rewrite (set_ipv6 this L Q e c HL) in HA.
      rewrite (set_ipv6 that M Q e c HM) in HB. congruence. }
  assert (Hshow : get_family A' = get_family B' /\
                  fst (get_addr A' e) = fst (get_addr B' e) /\
                  fst (get_port A' e) = fst (get_port B' e) ->
                  f = g /\ b = c /\ P = Q).
  { unfold get_family; rewrite HfA, HfB, HgA, HgB; cbn [fst].
    intros (Hfg & Ha & Hpq); symmetry in Hfg; rewrite Hfg in *; clear Hfg.
    split; [reflexivity |].
    split; [| exact Hpq].
    destruct (literal_get_addr A' e HwA) as [A4 A6].
    destruct (literal_get_addr B' e HwB) as [B4 B6].
    assert (Hlb : List.length b = List.length c).
    { unfold literal in HL, HM; destruct Hf as [-> | ->]; simpl in HL, HM.
      - destruct (inet_pton4_sound _ _ HL) as (-> & _).
        destruct (inet_pton4_sound _ _ HM) as (-> & _); reflexivity.
      - destruct (inet_pton6_sound _ _ HL) as (-> & _).
        destruct (inet_pton6_sound _ _ HM) as (-> & _); reflexivity. }
    rewrite <- HpA, <- HpB, <- Hlb.
    destruct Hf as [-> | ->].
    + specialize (A4 HfA); specialize (B4 HfB).
      rewrite Ha, B4 in A4; injection A4 as A4.
      change (AF_INET =? AF_INET) with true; cbv iota.
      unfold literal in HL; simpl in HL.
      destruct (inet_pton4_sound _ _ HL) as (-> & _); now symmetry.
    + specialize (A6 HfA); specialize (B6 HfB).
      rewrite Ha, B6 in A6; injection A6 as A6.
      change (AF_INET6 =? AF_INET) with false; cbv iota.
      unfold literal in HL; simpl in HL.
      destruct (inet_pton6_sound _ _ HL) as (-> & _); now symmetry. }
  rewrite (operator_eq_iff A' B' HwA HwB).
  split; split.
  - intros ->; repeat split; reflexivity.
  - intros H; apply Hsem, Hshow, H.
  - intros E; apply Hshow; rewrite E; repeat split; reflexivity.
  - exact Hsem.
Qed.

Lemma operator_eq_of_set_is_semantic_witness :
  let A := snd (fst (set socketaddr_default "0:0:0:0:0:0:0:1" 443 0)) in
  let B := snd (fst (set (socketaddr_of "10.0.0.1" 53) "::1" 443 0)) in
  (operator_eq A B = true <->
   get_family A = get_family B /\
   fst (get_addr A 0) = fst (get_addr B 0) /\
   fst (get_port A 0) = fst (get_port B 0)) /\
  (operator_eq A B = true <->
   AF_INET6 = AF_INET6 /\
   [0;0;0;0;0;0;0;0;0;0;0;0;0;0;0;1] = [0;0;0;0;0;0;0;0;0;0;0;0;0;0;0;1] /\
   443 = 443).
Proof.
  apply (operator_eq_of_set_is_semantic socketaddr_default
           (socketaddr_of "10.0.0.1" 53) "0:0:0:0:0:0:0:1" "::1" 443 443 0
           AF_INET6 AF_INET6 [0;0;0;0;0;0;0;0;0;0;0;0;0;0;0;1]
           [0;0;0;0;0;0;0;0;0;0;0;0;0;0;0;1]);
    first [ reflexivity | right; reflexivity | unfold uint16; lia ].
Defined.

(** ** What every mutator keeps *)

Lemma wf_set_sockaddr_family (this : socketaddr) (raw : list Z) :
  Forall byte raw ->
  (load_u16 raw 0 = AF_INET -> (sizeof_sin <= List.length raw)%nat) ->
  (load_u16 raw 0 = AF_INET6 -> (sizeof_sin6 <= List.length raw)%nat) ->
  wf (set_sockaddr this raw).
Proof.
  intros Hb H4 H6.
  destruct (Z.eq_dec (load_u16 raw 0) AF_INET) as [E4 | E4].
  - apply (set_sockaddr_copied this raw AF_INET sizeof_sin); auto.
  - destruct (Z.eq_dec (load_u16 raw 0) AF_INET6) as [E6 | E6].
    + apply (set_sockaddr_copied this raw AF_INET6 sizeof_sin6); auto.
    + unfold set_sockaddr; apply Z.eqb_neq in E4, E6; rewrite E4, E6.
      apply wf_set_family.
Qed.

(** X19: no mutator writes outside the [sizeof(sa)] bytes of the object
    or stores anything but unsigned char values: [set_family], [set_addr],
    [set_port] and [set], whatever their arguments and whether they
    succeed or fail, the [set] that loads a native structure long enough
    for its family, and [operator=] from a well-formed object all leave a
    well-formed storage. *)
Theorem mutators_keep_storage
    (this other : socketaddr) (fam port e : Z) (ip addr : string)
    (raw : list Z) :
  wf this ->
  wf (set_family this fam) /\
  wf (snd (fst (set_addr this ip e))) /\
  wf (snd (fst (set_port this port e))) /\
  wf (snd (fst (set this addr port e))) /\
  (Forall byte raw ->
   (load_u16 raw 0 = AF_INET -> (sizeof_sin <= List.length raw)%nat) ->
   (load_u16 raw 0 = AF_INET6 -> (sizeof_sin6 <= List.length raw)%nat) ->
   wf (set_sockaddr this raw)) /\
  (wf other -> wf (operator_assign this other)).
Proof.
  intros Hwf.
  split; [apply wf_set_family |].
  split; [now apply wf_set_addr |].
  split; [now apply wf_set_port |].
  split; [now apply wf_set |].
  split; [apply wf_set_sockaddr_family |].
  intros Ho; destruct Hwf as [Hl _].
  pose proof Ho as [Hlo _].
  unfold operator_assign; now rewrite (memcpy_whole this other Hlo Hl).
Qed.

Lemma mutators_keep_storage_witness :
  let this := socketaddr_of "10.0.0.1" 53 in
  let raw := [10; 0; 1; 187; 0; 0; 0; 0; 0; 0; 0; 0; 0; 0; 0; 0;
              0; 0; 0; 0; 0; 0; 0; 1; 0; 0; 0; 0] in
  wf (set_family this 1) /\
  wf (snd (fst (set_addr this "::1" 0))) /\
  wf (snd (fst (set_port this 65536 0))) /\
  wf (snd (fst (set this "10.0.0.256" 80 0))) /\
  (Forall byte raw ->
   (load_u16 raw 0 = AF_INET -> (sizeof_sin <= List.length raw)%nat) ->
   (load_u16 raw 0 = AF_INET6 -> (sizeof_sin6 <= List.length raw)%nat) ->
   wf (set_sockaddr this raw)) /\
  (wf (socketaddr_of "::1" 443) ->
   wf (operator_assign this (socketaddr_of "::1" 443))).
Proof.
  apply (mutators_keep_storage (socketaddr_of "10.0.0.1" 53)
           (socketaddr_of "::1" 443) 1 65536 0 "::1" "10.0.0.256"
           [10; 0; 1; 187; 0; 0; 0; 0; 0; 0; 0; 0; 0; 0; 0; 0;
            0; 0; 0; 0; 0; 0; 0; 1; 0; 0; 0; 0]).
  apply wf_socketaddr_of_examples.
Defined.

(** ** The default address in the order *)

Lemma memcmp_zeros (a : list Z) :
  Forall byte a -> forall n k, 0 <= memcmp a (repeat 0 k) n.
Proof.
  induction 1 as [|x a Hx Ha IH]; intros [|n] [|k]; cbn [memcmp repeat];
    try lia.
  destruct (Z.eqb_spec x 0); [apply IH | unfold byte in Hx; lia].
Qed.

(** X20: a default-constructed address is the least element of the order:
    no address is [<] it, and it is [<] every address that differs from
    it. *)
Theorem default_sorts_first (a : socketaddr) :
  wf a ->
  operator_lt a socketaddr_default = false /\
  (operator_lt socketaddr_default a = true <-> a <> socketaddr_default) /\
  (operator_lt socketaddr_default a = false <-> a = socketaddr_default).
Proof.
  intros Hwf; pose proof Hwf as [_ Hb].
  pose proof (memcmp_zeros (sa a) Hb sizeof_sa sizeof_sa) as H0.
  pose proof (operator_eq_iff a socketaddr_default Hwf wf_socketaddr_default)
    as Heq.
  unfold operator_lt, operator_eq in *.
  rewrite (memcmp_opp (sa a) (sa socketaddr_default)).
  change (sa socketaddr_default) with (repeat 0 sizeof_sa) in *.
  set (m := memcmp (sa a) (repeat 0 sizeof_sa) sizeof_sa) in *.
  rewrite Z.eqb_eq in Heq.
  split; [apply Z.ltb_ge; exact H0 |].
  split; [rewrite Z.ltb_lt | rewrite Z.ltb_ge]; split; intros H.
  - intros E; apply Heq in E; lia.
  - assert (m <> 0) by (intros E; apply H, Heq, E); lia.
  - apply Heq; lia.
  - apply Heq in H; lia.
Qed.

Lemma default_sorts_first_witness :
  let a := socketaddr_of "10.0.0.1" 53 in
  operator_lt a socketaddr_default = false /\
  (operator_lt socketaddr_default a = true <-> a <> socketaddr_default) /\
  (operator_lt socketaddr_default a = false <-> a = socketaddr_default).
Proof.
  apply (default_sorts_first (socketaddr_of "10.0.0.1" 53)).
  apply wf_socketaddr_of_examples.
Defined.

(** ** A loaded address passed on *)

(** X21: an address loaded from a native structure goes through [data()]
    unchanged: loading a second object from the [data()] of the first
    gives the same bytes, so the two are [==], whatever the family field
    of the structure is and whatever either object held before. *)
Theorem set_sockaddr_data_round_trip (this that : socketaddr) (raw : list Z) :
  Forall byte raw ->
  (load_u16 raw 0 = AF_INET -> (sizeof_sin <= List.length raw)%nat) ->
  (load_u16 raw 0 = AF_INET6 -> (sizeof_sin6 <= List.length raw)%nat) ->
  set_sockaddr that (data (set_sockaddr this raw)) = set_sockaddr this raw /\
  operator_eq (set_sockaddr that (data (set_sockaddr this raw)))
    (set_sockaddr this raw) = true.
Proof.
  intros Hb H4 H6.
  assert (H : set_sockaddr that (data (set_sockaddr this raw))
              = set_sockaddr this raw).
  { unfold data.
    destruct (Z.eq_dec (load_u16 raw 0) AF_INET) as [E4 | E4].
    - destruct (set_sockaddr_copied this raw AF_INET sizeof_sin
                  ltac:(left; split; reflexivity) Hb (H4 E4) E4)
        as (Hsa & Hwf & Hfam).
      destruct (set_sockaddr this raw) as [m]; cbn [sa] in *.
      unfold sa_family in Hfam; cbn [sa] in Hfam.
      unfold set_sockaddr at 1; rewrite Hfam.
      change (AF_INET =? AF_INET) with true; cbv iota; f_equal.
      rewrite Hsa at 2; unfold memcpy; f_equal.
      rewrite Hsa, firstn_app, firstn_firstn, length_firstn.
      specialize (H4 E4); unfold sizeof_sin in *.
      replace (16 - Nat.min 16 (List.length raw))%nat with 0%nat by lia.
      rewrite firstn_O, app_nil_r; reflexivity.
    - destruct (Z.eq_dec (load_u16 raw 0) AF_INET6) as [E6 | E6].
      + destruct (set_sockaddr_copied this raw AF_INET6 sizeof_sin6
                    ltac:(right; split; reflexivity) Hb (H6 E6) E6)
          as (Hsa & Hwf & Hfam).
        destruct (set_sockaddr this raw) as [m]; cbn [sa] in *.
        unfold sa_family in Hfam; cbn [sa] in Hfam.
        unfold set_sockaddr at 1; rewrite Hfam.
        change (AF_INET6 =? AF_INET) with false;
          change (AF_INET6 =? AF_INET6) with true; cbv iota; f_equal.
        rewrite Hsa at 2; unfold memcpy; f_equal.
        rewrite Hsa, firstn_app, firstn_firstn, length_firstn.
        specialize (H6 E6); unfold sizeof_sin6 in *.
        replace (28 - Nat.min 28 (List.length raw))%nat with 0%nat by lia.
        rewrite firstn_O, app_nil_r; reflexivity.
      + assert (Hd : set_sockaddr this raw = set_family this AF_UNSPEC).
        { unfold set_sockaddr; apply Z.eqb_neq in E4, E6.
          now rewrite E4, E6. }
        rewrite Hd; reflexivity. }
  split; [exact H |].
  rewrite H; unfold operator_eq; now rewrite memcmp_refl.
Qed.

Lemma set_sockaddr_data_round_trip_witness :
  let raw := [2; 0; 0; 53; 10; 0; 0; 1; 7; 7; 7; 7; 7; 7; 7; 7] in
  let this := socketaddr_default in
  let that := socketaddr_of "::1" 443 in
  set_sockaddr that (data (set_sockaddr this raw)) = set_sockaddr this raw /\
  operator_eq (set_sockaddr that (data (set_sockaddr this raw)))
    (set_sockaddr this raw) = true.
Proof.
  apply (set_sockaddr_data_round_trip socketaddr_default
           (socketaddr_of "::1" 443)
           [2; 0; 0; 53; 10; 0; 0; 1; 7; 7; 7; 7; 7; 7; 7; 7]).
  - apply Forall_byte_check; reflexivity.
  - intros _; unfold sizeof_sin; simpl; lia.
  - intros H; discriminate H.
Defined.

